(** * Project-RPS: the bootcamp form, the result editor and the API layer

    A shallow embedding of
      - the React form and its container (BootcampForm, BootcampFormContainer),
      - the Next.js route [pages/api/generate-bootcamp.ts],
      - the Express server [express_api.js],
    together with the properties of them that the specification states. *)

From Stdlib Require Import ZArith NArith Ascii String Lia.
From stdpp Require Import gmap list fin_maps strings pretty.

Local Open Scope Z_scope.

(** ** JavaScript strings

    A JavaScript string is a sequence of UTF-16 code units.  Literals of the
    source are written [str "..."]. *)

Abbreviation jsstring := (list N).

Definition str (s : string) : jsstring :=
  map N_of_ascii (list_ascii_of_string s).

(** [WhiteSpace] and [LineTerminator] of ECMAScript: what
    [String.prototype.trim] strips. *)
Definition is_js_whitespace (c : N) : bool :=
  (  (c =? 0x0009) || (c =? 0x000A) || (c =? 0x000B) || (c =? 0x000C)
  || (c =? 0x000D) || (c =? 0x0020) || (c =? 0x00A0) || (c =? 0x1680)
  || ((0x2000 <=? c) && (c <=? 0x200A))
  || (c =? 0x2028) || (c =? 0x2029) || (c =? 0x202F) || (c =? 0x205F)
  || (c =? 0x3000) || (c =? 0xFEFF))%N.

Fixpoint trimStart (s : jsstring) : jsstring :=
  match s with
  | c :: s' => if is_js_whitespace c then trimStart s' else s
  | [] => []
  end.

Definition trimEnd (s : jsstring) : jsstring :=
  reverse (trimStart (reverse s)).

Definition trim (s : jsstring) : jsstring := trimEnd (trimStart s).

(** [!s] on a string: only the empty string is falsy. *)
Definition str_falsy (s : jsstring) : bool :=
  match s with [] => true | _ => false end.

(** A string is blank when it is empty or made of white space only. *)
Definition blank (s : jsstring) : bool := forallb is_js_whitespace s.

(** ** JavaScript numbers

    The numbers of this program come out of [JSON.parse], of [Date.now()] and
    of literals; none is NaN.  They are binary64 values, modelled exactly. *)

Module Number.

(** A Number value other than NaN: the real [m * 2^e] of a finite binary64
    (kept with [m] odd, zero as [Finite 0 0], so that equal numbers are equal
    terms; [+0] and [-0] are one value, as for [===]), or an infinity. *)
Inductive number :=
  | Finite (m e : Z)
  | PosInf
  | NegInf.

Fixpoint odd_part (p : positive) : positive * Z :=
  match p with
  | xO p' => let '(q, t) := odd_part p' in (q, t + 1)
  | _ => (p, 0)
  end.

(** The canonical form of [m * 2^e]. *)
Definition normalize (m e : Z) : number :=
  match m with
  | Z0 => Finite 0 0
  | Zpos p => let '(q, t) := odd_part p in Finite (Zpos q) (e + t)
  | Zneg p => let '(q, t) := odd_part p in Finite (Zneg q) (e + t)
  end.

(** [p / q] compared with [2^l] and with [10^j], for [p, q > 0]. *)
Definition ge_pow (b : Z) (p q j : Z) : bool :=
  if 0 <=? j then q * b ^ j <=? p else q <=? p * b ^ (- j).

(** Round the positive rational [p / q] to the nearest binary64, ties to
    even; [None] stands for an overflow to infinity. *)
Definition round_pos (p q : Z) : option (Z * Z) :=
  let l := Z.log2 p - Z.log2 q in
  let fl := if ge_pow 2 p q l then l else l - 1 in
  let e := Z.max (fl - 52) (-1074) in
  let '(n, d) := if 0 <=? e then (p, q * 2 ^ e) else (p * 2 ^ (- e), q) in
  let M := n / d in
  let r := n mod d in
  let M' := if 2 * r <? d then M
            else if d <? 2 * r then M + 1
            else if Z.even M then M else M + 1 in
  if (971 <? e) || ((e =? 971) && (2 ^ 53 <=? M')) then None
  else Some (M', e).

(** The Number value of the rational [p / q], [q > 0]. *)
Definition of_ratio (p q : Z) : number :=
  match p with
  | Z0 => Finite 0 0
  | Zpos _ => match round_pos p q with
              | Some (m, e) => normalize m e
              | None => PosInf
              end
  | Zneg _ => match round_pos (- p) q with
              | Some (m, e) => normalize (- m) e
              | None => NegInf
              end
  end.

Definition of_Z (z : Z) : number := of_ratio z 1.

(** The Number value of the decimal [d * 10^x]. *)
Definition of_decimal (d x : Z) : number :=
  if 0 <=? x then of_ratio (d * 10 ^ x) 1 else of_ratio d (10 ^ (- x)).

Definition is_zero (n : number) : bool :=
  match n with Finite 0 _ => true | _ => false end.

Definition is_finite (n : number) : bool :=
  match n with Finite _ _ => true | _ => false end.

Definition eqb (a b : number) : bool :=
  match a, b with
  | Finite m e, Finite m' e' => (m =? m') && (e =? e')
  | PosInf, PosInf | NegInf, NegInf => true
  | _, _ => false
  end.

(** The number of the opposite sign. *)
Definition opp (x : number) : number :=
  match x with
  | Finite m e => Finite (- m) e
  | PosInf => NegInf
  | NegInf => PosInf
  end.

(** A binary64 in canonical form: an odd significand of at most 53 bits
    with an exponent between that of the least subnormal and that of the
    greatest finite value, or zero, or an infinity. *)
Definition is_double (x : number) : bool :=
  match x with
  | Finite Z0 e => e =? 0
  | Finite m e =>
      Z.odd m && (Z.abs m <? 2 ^ 53) && (-1074 <=? e)
      && (Z.log2 (Z.abs m) + e <? 1024)
  | _ => true
  end.

(** *** Decimal digits *)

Definition digit (d : Z) : N := Z.to_N (48 + d).

Fixpoint digits_go (fuel : nat) (z : Z) (acc : jsstring) : jsstring :=
  match fuel with
  | O => acc
  | S fuel' =>
      if z <? 10 then digit z :: acc
      else digits_go fuel' (z / 10) (digit (z mod 10) :: acc)
  end.

(** The decimal digits of [z >= 0]; a number has no more decimal digits than
    binary ones. *)
Definition digits (z : Z) : jsstring :=
  digits_go (S (Z.to_nat (Z.log2 z))) z [].

Definition ndigits (z : Z) : Z := Z.of_nat (length (digits z)).

Definition zeros (n : Z) : jsstring := replicate (Z.to_nat n) 48%N.

(** *** Number::toString *)

(** The positive finite [m * 2^e] as a fraction. *)
Definition as_ratio (m e : Z) : Z * Z :=
  if 0 <=? e then (m * 2 ^ e, 1) else (m, 2 ^ (- e)).

(** The [n] with [10^(n-1) <= p/q < 10^n]. *)
Definition decimal_exponent (p q : Z) : Z :=
  if q <=? p then ndigits (p / q)
  else
    let j := ndigits (q / p) in
    if ge_pow 10 p q (1 - j) then 2 - j else 1 - j.

(** [floor (p/q / 10^j)]. *)
Definition scaled_floor (p q j : Z) : Z :=
  if 0 <=? j then p / (q * 10 ^ j) else (p * 10 ^ (- j)) / q.

(** The distance between [p/q] and [s * 10^j], times their common
    denominator. *)
Definition dist (p q s j : Z) : Z :=
  if 0 <=? j then Z.abs (p - s * 10 ^ j * q) else Z.abs (p * 10 ^ (- j) - s * q).

(** [s] has [k] digits and [s * 10^(n-k)] has the Number value [x]. *)
Definition represents (x : number) (k : Z) (c : Z * Z) : bool :=
  (10 ^ (k - 1) <=? fst c) && (fst c <? 10 ^ k)
  && eqb (of_decimal (fst c) (snd c - k)) x.

(** The candidates [(s, n')] with [k] digits next to [p/q], which lies
    between [10^(n-1)] and [10^n] and has the Number value [x]: those that
    represent [x], the closest first, of two as close the even one. *)
Definition candidates (p q n : Z) (x : number) (k : Z) : list (Z * Z) :=
  let lo := scaled_floor p q (n - k) in
  let hi := lo + 1 in
  let c_lo := (lo, n) in
  let c_hi := if hi =? 10 ^ k then (10 ^ (k - 1), n + 1) else (hi, n) in
  let d c := dist p q (fst c) (snd c - k) in
  let ordered :=
    if d c_lo <? d c_hi then [c_lo; c_hi]
    else if d c_hi <? d c_lo then [c_hi; c_lo]
    else if Z.even (fst c_lo) then [c_lo; c_hi] else [c_hi; c_lo] in
  filter (fun c => represents x k c = true) ordered.

(** The exact decimal expansion [s * 10^x] of [m * 2^e]: with as many
    digits as [s] has there is a candidate, and [s] has no more decimal
    digits than binary ones. *)
Definition exact_digits (m e : Z) : Z * Z :=
  if 0 <=? e then (m * 2 ^ e, 0) else (m * 5 ^ (- e), e).

(** The shortest digits [(s, n', k)]: the least [k] that has a candidate. *)
Fixpoint shortest (p q n : Z) (x : number) (k : Z) (fuel : nat) : Z * Z * Z :=
  match fuel with
  | O => (0, 1, 1)
  | S fuel' =>
      match candidates p q n x k with
      | (s, n') :: _ => (s, n', k)
      | [] => shortest p q n x (k + 1) fuel'
      end
  end.

(** The exponent part: [e], the sign and the digits of [x]. *)
Definition exponent_text (x : Z) : jsstring :=
  str "e" ++ (if 0 <=? x then str "+" else str "-") ++ digits (Z.abs x).

(** The text for the digits [s], [k] of them, and the exponent [n]. *)
Definition format (s n k : Z) : jsstring :=
  let ds := digits s in
  if (k <=? n) && (n <=? 21) then ds ++ zeros (n - k)
  else if (0 <? n) && (n <=? 21) then
    take (Z.to_nat n) ds ++ str "." ++ drop (Z.to_nat n) ds
  else if (-6 <? n) && (n <=? 0) then
    str "0." ++ zeros (- n) ++ ds
  else if k =? 1 then ds ++ exponent_text (n - 1)
  else take 1 ds ++ str "." ++ drop 1 ds ++ exponent_text (n - 1).

(** The text of the positive finite [m * 2^e]. *)
Definition toString_pos (m e : Z) : jsstring :=
  let '(p, q) := as_ratio m e in
  let '(s, n, k) :=
    shortest p q (decimal_exponent p q) (normalize m e) 1
      (S (Z.to_nat (Z.log2 (fst (exact_digits m e))))) in
  format s n k.

Definition toString (x : number) : jsstring :=
  match x with
  | Finite Z0 _ => str "0"
  | Finite (Zpos p) e => toString_pos (Zpos p) e
  | Finite (Zneg p) e => str "-" ++ toString_pos (Zpos p) e
  | PosInf => str "Infinity"
  | NegInf => str "-Infinity"
  end.

End Number.

(** ** JavaScript values

    The values this program handles: what [JSON.parse] returns, and
    [undefined] for a property that is not there. *)

Inductive value : Type :=
  | VUndefined
  | VNull
  | VBool (b : bool)
  | VNum (n : Number.number)
  | VStr (s : jsstring)
  | VArr (l : list value)
  | VObj (o : gmap jsstring value).

(** [ToBoolean]. *)
Definition truthy (v : value) : bool :=
  match v with
  | VUndefined | VNull => false
  | VBool b => b
  | VNum n => negb (Number.is_zero n)
  | VStr s => negb (str_falsy s)
  | VArr _ | VObj _ => true
  end.

(** [v === undefined || v === null]: reading a property of such a value, or
    destructuring it, throws a TypeError. *)
Definition nullish (v : value) : bool :=
  match v with VUndefined | VNull => true | _ => false end.

(** [v.k] for a [v] that is not nullish and a name [k] that no prototype
    defines (all the names this program reads are such): the own property of
    an object, [undefined] on a primitive or an array. *)
Definition get_prop (v : value) (k : jsstring) : value :=
  match v with
  | VObj o => default VUndefined (o !! k)
  | _ => VUndefined
  end.

Definition VInt (z : Z) : value := VNum (Number.of_Z z).
Definition VString (s : string) : value := VStr (str s).

(** ** JSON.stringify and JSON.parse *)

Module JSON.

Definition is_high_surrogate (c : N) : bool := ((0xD800 <=? c) && (c <=? 0xDBFF))%N.
Definition is_low_surrogate (c : N) : bool := ((0xDC00 <=? c) && (c <=? 0xDFFF))%N.

Definition hex_digit (d : N) : N :=
  (if d <? 10 then 48 + d else 87 + d)%N.

(** [UnicodeEscape]: a backslash, [u] and four lowercase hexadecimal digits. *)
Definition unicode_escape (c : N) : jsstring :=
  [92; 117; hex_digit (c / 4096 mod 16); hex_digit (c / 256 mod 16);
   hex_digit (c / 16 mod 16); hex_digit (c mod 16)]%N.

(** One code unit that is not a surrogate, as [QuoteJSONString] writes it. *)
Definition quote_unit (c : N) : jsstring :=
  (if c =? 8 then str "\b"
   else if c =? 9 then str "\t"
   else if c =? 10 then str "\n"
   else if c =? 12 then str "\f"
   else if c =? 13 then str "\r"
   else if c =? 34 then [92; 34]
   else if c =? 92 then [92; 92]
   else if c <? 32 then unicode_escape c
   else [c])%N.

(** The body of [QuoteJSONString]: a surrogate pair is kept, a lone
    surrogate is escaped. *)
Fixpoint quote_units (s : jsstring) : jsstring :=
  match s with
  | [] => []
  | c :: s' =>
      if is_high_surrogate c then
        match s' with
        | d :: s'' =>
            if is_low_surrogate d then c :: d :: quote_units s''
            else unicode_escape c ++ quote_units s'
        | [] => unicode_escape c
        end
      else if is_low_surrogate c then unicode_escape c ++ quote_units s'
      else quote_unit c ++ quote_units s'
  end.

Definition quote (s : jsstring) : jsstring := [34%N] ++ quote_units s ++ [34%N].

Fixpoint join (sep : jsstring) (parts : list jsstring) : jsstring :=
  match parts with
  | [] => []
  | [p] => p
  | p :: ps => p ++ sep ++ join sep ps
  end.

(** The [gap] of [JSON.stringify(v, null, 2)]. *)
Definition gap : jsstring := str "  ".

Definition newline : jsstring := [10%N].

Definition wrap (open close indent indent' : jsstring) (parts : list jsstring)
  : jsstring :=
  match parts with
  | [] => open ++ close
  | _ => open ++ newline ++ indent' ++ join (str "," ++ newline ++ indent') parts
         ++ newline ++ indent ++ close
  end.

(** [SerializeJSONProperty] with the gap of two spaces; [None] is
    [undefined].  A number that is not finite is written [null]; in an array
    [undefined] is written [null], in an object its key is left out.  The keys
    of an object are written in the order of the map. *)
Fixpoint serialize (indent : jsstring) (v : value) : option jsstring :=
  match v with
  | VUndefined => None
  | VNull => Some (str "null")
  | VBool true => Some (str "true")
  | VBool false => Some (str "false")
  | VNum n => Some (if Number.is_finite n then Number.toString n else str "null")
  | VStr s => Some (quote s)
  | VArr l =>
      let indent' := indent ++ gap in
      Some (wrap (str "[") (str "]") indent indent'
              (map (fun x => default (str "null") (serialize indent' x)) l))
  | VObj o =>
      let indent' := indent ++ gap in
      Some (wrap (str "{") (str "}") indent indent'
              (map_fold (fun k x acc =>
                           match serialize indent' x with
                           | Some t => (quote k ++ str ": " ++ t) :: acc
                           | None => acc
                           end) [] o))
  end.

(** [JSON.stringify(v, null, 2)]. *)
Definition stringify (v : value) : option jsstring := serialize [] v.

(** *** JSON.parse *)

(** The white space of the JSON grammar. *)
Definition is_ws (c : N) : bool :=
  ((c =? 9) || (c =? 10) || (c =? 13) || (c =? 32))%N.

Fixpoint skip_ws (s : jsstring) : jsstring :=
  match s with
  | c :: s' => if is_ws c then skip_ws s' else s
  | [] => []
  end.

Definition is_digit (c : N) : bool := ((48 <=? c) && (c <=? 57))%N.

Definition hex_value (c : N) : option N :=
  (if (48 <=? c) && (c <=? 57) then Some (c - 48)
   else if (97 <=? c) && (c <=? 102) then Some (c - 87)
   else if (65 <=? c) && (c <=? 70) then Some (c - 55)
   else None)%N.

(** The characters of a string literal after its opening quote, up to the
    closing one. *)
Fixpoint parse_chars (s : jsstring) : option (jsstring * jsstring) :=
  match s with
  | [] => None
  | c :: s' =>
      (if c =? 34 then Some ([], s')
       else if c =? 92 then
         match s' with
         | [] => None
         | e :: s'' =>
             let simple (u : N) :=
               match parse_chars s'' with
               | Some (t, r) => Some (u :: t, r)
               | None => None
               end in
             if e =? 34 then simple 34
             else if e =? 92 then simple 92
             else if e =? 47 then simple 47
             else if e =? 98 then simple 8
             else if e =? 102 then simple 12
             else if e =? 110 then simple 10
             else if e =? 114 then simple 13
             else if e =? 116 then simple 9
             else if e =? 117 then
               match s'' with
               | h1 :: h2 :: h3 :: h4 :: s4 =>
                   match hex_value h1, hex_value h2, hex_value h3, hex_value h4 with
                   | Some a, Some b, Some c', Some d =>
                       match parse_chars s4 with
                       | Some (t, r) => Some ((a * 4096 + b * 256 + c' * 16 + d) :: t, r)
                       | None => None
                       end
                   | _, _, _, _ => None
                   end
               | _ => None
               end
             else None
         end
       else if c <? 32 then None
       else
         match parse_chars s' with
         | Some (t, r) => Some (c :: t, r)
         | None => None
         end)%N
  end.

(** The longest prefix of digits. *)
Fixpoint span_digits (s : jsstring) : jsstring * jsstring :=
  match s with
  | c :: s' =>
      if is_digit c then let '(ds, r) := span_digits s' in (c :: ds, r)
      else ([], s)
  | [] => ([], [])
  end.

(** The value of a sequence of digits. *)
Definition digits_value (ds : jsstring) : Z :=
  foldl (fun acc c => 10 * acc + Z.of_N (c - 48)) 0 ds.

(** [s] without its first code unit, when that is [c]. *)
Definition after (c : N) (s : jsstring) : option jsstring :=
  match s with
  | c' :: r => if (c' =? c)%N then Some r else None
  | [] => None
  end.

(** The integer part of a number: [0], or digits that do not start with
    [0]. *)
Definition parse_int (s : jsstring) : option (jsstring * jsstring) :=
  match after 48 s with
  | Some r => Some ([48%N], r)
  | None => match span_digits s with
            | ([], _) => None
            | (ds, r) => Some (ds, r)
            end
  end.

Definition parse_frac (s : jsstring) : option (jsstring * jsstring) :=
  match after 46 s with
  | Some r => match span_digits r with
              | ([], _) => None
              | (ds, r') => Some (ds, r')
              end
  | None => Some ([], s)
  end.

Definition parse_exp (s : jsstring) : option (Z * jsstring) :=
  match s with
  | c :: r =>
      if ((c =? 101) || (c =? 69))%N then
        let '(neg, r1) := match after 43 r, after 45 r with
                          | Some r1, _ => (false, r1)
                          | _, Some r1 => (true, r1)
                          | _, _ => (false, r)
                          end in
        match span_digits r1 with
        | ([], _) => None
        | (ds, r2) => Some (if neg then - digits_value ds else digits_value ds, r2)
        end
      else Some (0, s)
  | [] => Some (0, s)
  end.

(** A number of the JSON grammar and its Number value. *)
Definition parse_number (s : jsstring) : option (Number.number * jsstring) :=
  let '(neg, s1) := match after 45 s with
                    | Some s1 => (true, s1)
                    | None => (false, s)
                    end in
  match parse_int s1 with
  | None => None
  | Some (ip, s2) =>
      match parse_frac s2 with
      | None => None
      | Some (fp, s3) =>
          match parse_exp s3 with
          | None => None
          | Some (x, s4) =>
              let d := digits_value (ip ++ fp) in
              Some (Number.of_decimal (if neg then - d else d)
                      (x - Z.of_nat (length fp)), s4)
          end
      end
  end.

Definition strip_prefix (p s : jsstring) : option jsstring :=
  if bool_decide (take (length p) s = p) then Some (drop (length p) s) else None.

(** A value of the JSON grammar at the head of [s], and what follows it.
    Every call consumes fuel; [parse] gives enough of it. *)
Fixpoint parse_value (fuel : nat) (s : jsstring) : option (value * jsstring) :=
  match fuel with
  | O => None
  | S fuel' =>
      match skip_ws s with
      | [] => None
      | c :: r =>
          (if c =? 123 then
             match after 125 (skip_ws r) with
             | Some r' => Some (VObj ∅, r')
             | None => match parse_members fuel' r with
                       | Some (kvs, r') =>
                           Some (VObj (list_to_map (reverse kvs)), r')
                       | None => None
                       end
             end
           else if c =? 91 then
             match after 93 (skip_ws r) with
             | Some r' => Some (VArr [], r')
             | None => match parse_elements fuel' r with
                       | Some (vs, r') => Some (VArr vs, r')
                       | None => None
                       end
             end
           else if c =? 34 then
             match parse_chars r with
             | Some (t, r') => Some (VStr t, r')
             | None => None
             end
           else if (c =? 45) || is_digit c then
             match parse_number (c :: r) with
             | Some (n, r') => Some (VNum n, r')
             | None => None
             end
           else
             match strip_prefix (str "true") (c :: r),
                   strip_prefix (str "false") (c :: r),
                   strip_prefix (str "null") (c :: r) with
             | Some r', _, _ => Some (VBool true, r')
             | _, Some r', _ => Some (VBool false, r')
             | _, _, Some r' => Some (VNull, r')
             | _, _, _ => None
             end)%N
      end
  end
with parse_elements (fuel : nat) (s : jsstring) : option (list value * jsstring) :=
  match fuel with
  | O => None
  | S fuel' =>
      match parse_value fuel' s with
      | None => None
      | Some (v, r) =>
          match after 44 (skip_ws r), after 93 (skip_ws r) with
          | Some r', _ =>
              match parse_elements fuel' r' with
              | Some (vs, r'') => Some (v :: vs, r'')
              | None => None
              end
          | _, Some r' => Some ([v], r')
          | _, _ => None
          end
      end
  end
with parse_members (fuel : nat) (s : jsstring)
  : option (list (jsstring * value) * jsstring) :=
  match fuel with
  | O => None
  | S fuel' =>
      match after 34 (skip_ws s) with
      | None => None
      | Some r =>
          match parse_chars r with
          | None => None
          | Some (k, r1) =>
              match after 58 (skip_ws r1) with
              | None => None
              | Some r2 =>
                  match parse_value fuel' r2 with
                  | None => None
                  | Some (v, r3) =>
                      match after 44 (skip_ws r3), after 125 (skip_ws r3) with
                      | Some r4, _ =>
                          match parse_members fuel' r4 with
                          | Some (kvs, r5) => Some ((k, v) :: kvs, r5)
                          | None => None
                          end
                      | _, Some r4 => Some ([(k, v)], r4)
                      | _, _ => None
                      end
                  end
              end
          end
      end
  end.

(** [JSON.parse(s)]; [None] is the SyntaxError.  In an object a later
    duplicate of a key wins. *)
Definition parse (s : jsstring) : option value :=
  match parse_value (2 * length s + 2) s with
  | Some (v, r) => match skip_ws r with [] => Some v | _ => None end
  | None => None
  end.

(** *** What is saved and loaded again *)

(** The number [n] is finite, and [Number::toString] writes it as a number
    of the JSON grammar that has the value [n]. *)
Definition number_survives (n : Number.number) : bool :=
  Number.is_finite n
  && match parse_number (Number.toString n) with
     | Some (n', []) => Number.eqb n' n
     | _ => false
     end.

(** All the numbers in [v] are binary64 values. *)
Fixpoint doubles (v : value) : bool :=
  match v with
  | VNum n => Number.is_double n
  | VArr l => forallb doubles l
  | VObj o => map_fold (fun _ x acc => doubles x && acc) true o
  | _ => true
  end.

(** All the numbers in [v] are finite. *)
Fixpoint finite (v : value) : bool :=
  match v with
  | VNum n => Number.is_finite n
  | VArr l => forallb finite l
  | VObj o => map_fold (fun _ x acc => finite x && acc) true o
  | _ => true
  end.

(** All the numbers in [v] survive. *)
Fixpoint survives (v : value) : bool :=
  match v with
  | VNum n => number_survives n
  | VArr l => forallb survives l
  | VObj o => map_fold (fun _ x acc => survives x && acc) true o
  | _ => true
  end.

(** There is no [undefined] in [v]. *)
Fixpoint defined (v : value) : bool :=
  match v with
  | VUndefined => false
  | VArr l => forallb defined l
  | VObj o => map_fold (fun _ x acc => defined x && acc) true o
  | _ => true
  end.

(** The number of values in [v]. *)
Fixpoint weight (v : value) : nat :=
  match v with
  | VArr l => S (foldr (fun x acc => weight x + acc)%nat O l)
  | VObj o => S (map_fold (fun _ x acc => weight x + acc)%nat O o)
  | _ => 1
  end.

(** [r] does not start with a digit: a run of digits ends before it. *)
Definition no_digit_head (r : jsstring) : Prop :=
  match r with
  | c :: _ => is_digit c = false
  | [] => True
  end.

(** What follows a value in the text that [serialize] writes: the end, a
    comma or a line feed. *)
Definition delimited (rest : jsstring) : bool :=
  match rest with
  | [] => true
  | c :: _ => ((c =? 44) || (c =? 10))%N
  end.

(** A text starts as a value does: not with white space, nor with a closing
    bracket or brace. *)
Definition starts_token (t : jsstring) : bool :=
  match t with
  | c :: _ => (negb (is_ws c) && negb (c =? 93) && negb (c =? 125))%N
  | [] => false
  end.

(** The value [x], written with the indentation [indent], is read back:
    after white space and before a delimiter, with enough fuel. *)
Definition reads (indent : jsstring) (x : value) : Prop :=
  forall (pre rest : jsstring) (fuel : nat),
    forallb is_ws pre = true -> delimited rest = true ->
    (2 * weight x <= fuel)%nat ->
    exists t, serialize indent x = Some t
              /\ starts_token t = true
              /\ parse_value fuel (pre ++ t ++ rest) = Some (x, rest).

(** The text of an element of an array, and of a member of an object. *)
Definition element_text (indent : jsstring) (x : value) : jsstring :=
  default (str "null") (serialize indent x).

Definition member_text (indent : jsstring) (kv : jsstring * value) : jsstring :=
  quote kv.1 ++ str ": " ++ element_text indent kv.2.

Definition weights (l : list value) : nat :=
  foldr (fun x acc => weight x + acc)%nat O l.

End JSON.

(** ** Dates *)

Module Date.

(** [String(t)] for an integral time value. *)
Definition decimal (t : Z) : jsstring :=
  if t <? 0 then str "-" ++ Number.digits (- t) else Number.digits t.

Definition pad (width : nat) (z : Z) : jsstring :=
  let d := decimal z in replicate (width - length d) 48%N ++ d.

(** Year, month and day of the day number [days] counted from 1970-01-01. *)
Definition civil (days : Z) : Z * Z * Z :=
  let z := days + 719468 in
  let era := z / 146097 in
  let doe := z - era * 146097 in
  let yoe := (doe - doe / 1460 + doe / 36524 - doe / 146096) / 365 in
  let doy := doe - (365 * yoe + yoe / 4 - yoe / 100) in
  let mp := (5 * doy + 2) / 153 in
  let d := doy - (153 * mp + 2) / 5 + 1 in
  let m := if mp <? 10 then mp + 3 else mp - 9 in
  let y := yoe + era * 400 + (if m <=? 2 then 1 else 0) in
  (y, m, d).

(** [new Date(t).toISOString()]. *)
Definition toISOString (t : Z) : jsstring :=
  let '(y, m, d) := civil (t / 86400000) in
  let ms := t mod 86400000 in
  let year := if (0 <=? y) && (y <=? 9999) then pad 4 y
              else (if y <? 0 then str "-" else str "+") ++ pad 6 (Z.abs y) in
  year ++ str "-" ++ pad 2 m ++ str "-" ++ pad 2 d ++ str "T"
  ++ pad 2 (ms / 3600000) ++ str ":" ++ pad 2 (ms / 60000 mod 60) ++ str ":"
  ++ pad 2 (ms / 1000 mod 60) ++ str "." ++ pad 3 (ms mod 1000) ++ str "Z".

End Date.

(** ** The API layer *)

Module Api.

(** A path below the directory of the application ([process.cwd()] in the
    route, [__dirname] in the server), as the segments given to
    [path.join]. *)
Abbreviation path := (list jsstring).

(** The command given to [exec]: the parts that the source joins into one
    line.  An argument is a flag with either a value of the request put in
    by a template literal, or a path. *)
Inductive argument :=
  | ArgValue (flag : jsstring) (v : value)
  | ArgPath (flag : jsstring) (p : path).

Record command := {
  interpreter : jsstring;
  script : path;
  arguments : list argument
}.

(** What was thrown.  The message of an error of the engine is the
    engine's. *)
Inductive exn :=
  | TypeError (what : jsstring)
  | SyntaxError (input : jsstring)
  | SystemError (message : jsstring)
  | ExecError (stdout stderr message : jsstring).

(** The calls into the operating system, in the order they are made.  The
    lines written with [console.log] and [console.error] are left out. *)
Inductive event :=
  | EMkdir (p : path)
  | EExec (c : command) (timeout : Z)
  | EAccess (p : path)
  | EReadFile (p : path)
  | EWriteFile (p : path) (content : jsstring)
  | EUnlink (p : path).

(** How a subprocess ends: [execAsync] resolves, or rejects (exit code that
    is not zero, timeout, no such program). *)
Inductive exec_result :=
  | Exited (stdout stderr : jsstring)
  | Failed (stdout stderr message : jsstring).

(** What the handlers do not decide. *)
Record Env := {
  (** the successive readings of the clock *)
  clock : nat -> Z;
  (** a call into the file system that fails, and its message *)
  io_error : event -> option jsstring;
  (** the message for a file that is not there *)
  enoent : path -> jsstring;
  (** the subprocess: how it ends and what it leaves in the files *)
  run : command -> Z -> gmap path jsstring -> exec_result * gmap path jsstring;
  (** the message of an error thrown by the engine *)
  engine_message : exn -> jsstring
}.

Record World := {
  files : gmap path jsstring;
  ticks : nat;
  trace : list event
}.

Inductive result (A : Type) :=
  | Ok (a : A)
  | Throw (e : exn).
Arguments Ok {A} a.
Arguments Throw {A} e.

(** A computation of a handler: it reads and changes the world, and returns
    or throws. *)
Definition M (A : Type) : Type := World -> result A * World.

Definition ret {A} (a : A) : M A := fun w => (Ok a, w).

Definition throw {A} (e : exn) : M A := fun w => (Throw e, w).

Definition bind {A B} (m : M A) (k : A -> M B) : M B :=
  fun w => match m w with
           | (Ok a, w') => k a w'
           | (Throw e, w') => (Throw e, w')
           end.

(** [try { m } catch (e) { h e }]. *)
Definition try_catch {A} (m : M A) (h : exn -> M A) : M A :=
  fun w => match m w with
           | (Ok a, w') => (Ok a, w')
           | (Throw e, w') => h e w'
           end.

(** The outcome of [m] as a value. *)
Definition attempt {A} (m : M A) : M (result A) :=
  fun w => match m w with (r, w') => (Ok r, w') end.

#[export] Instance M_ret : MRet M := @ret.
#[export] Instance M_bind : MBind M := fun A B k m => bind m k.

Definition log (e : event) (w : World) : World :=
  {| files := files w; ticks := ticks w; trace := trace w ++ [e] |}.

Definition set_files (f : gmap path jsstring) (w : World) : World :=
  {| files := f; ticks := ticks w; trace := trace w |}.

Record Request := {
  method : jsstring;
  body : value
}.

Inductive payload :=
  | Json (v : value)
  | Buffer (content : jsstring).

(** What was sent: the status, the headers set by the handler, and the
    body. *)
Record Response := {
  status : Z;
  headers : list (jsstring * jsstring);
  sent : payload
}.

(** [res.status(code).json(v)]. *)
Definition json (code : Z) (v : value) : Response :=
  {| status := code; headers := []; sent := Json v |}.

(** [{ success: false, error: message }]. *)
Definition failure (message : jsstring) : value :=
  VObj (<[str "success" := VBool false]> (<[str "error" := VStr message]> ∅)).

(** [{ success: true, data: data }]. *)
Definition success (data : value) : value :=
  VObj (<[str "success" := VBool true]> (<[str "data" := data]> ∅)).

(** [s.includes(t)]. *)
Fixpoint includes (s t : jsstring) : bool :=
  if bool_decide (take (length t) s = t) then true
  else match s with
       | [] => false
       | _ :: s' => includes s' t
       end.

(** [s.replace(/[\r\n]+/g, ' ')]. *)
Fixpoint replace_newlines (s : jsstring) : jsstring :=
  match s with
  | [] => []
  | c :: s' =>
      if ((c =? 13) || (c =? 10))%N then
        match s' with
        | d :: _ => if ((d =? 13) || (d =? 10))%N then replace_newlines s'
                    else 32%N :: replace_newlines s'
        | [] => [32%N]
        end
      else c :: replace_newlines s'
  end.

(** [s.replace(/"/g, '\\"')]. *)
Definition escape_quotes (s : jsstring) : jsstring :=
  flat_map (fun c => if (c =? 34)%N then [92; 34]%N else [c]) s.

(** [s.slice(-6)]. *)
Definition last6 (s : jsstring) : jsstring := drop (length s - 6) s.

(** The fields that a generate request must carry. *)
Definition required : list jsstring :=
  [str "nama"; str "durasi"; str "level"; str "deskripsi"].

Section Handlers.

Context (env : Env).

(** [Date.now()], and the time value of [new Date()]. *)
Definition now : M Z :=
  fun w => (Ok (clock env (ticks w)),
            {| files := files w; ticks := S (ticks w); trace := trace w |}).

(** A call into the file system: logged, then failed by the environment or
    carried out. *)
Definition fs_call {A} (e : event) (act : M A) : M A :=
  fun w => match io_error env e with
           | Some message => (Throw (SystemError message), log e w)
           | None => act (log e w)
           end.

(** [fs.mkdir(p, { recursive: true })]; directories are not kept in
    [files]. *)
Definition mkdir (p : path) : M unit := fs_call (EMkdir p) (ret tt).

Definition access (p : path) : M unit :=
  fs_call (EAccess p)
    (fun w => match files w !! p with
              | Some _ => (Ok tt, w)
              | None => (Throw (SystemError (enoent env p)), w)
              end).

Definition readFile (p : path) : M jsstring :=
  fs_call (EReadFile p)
    (fun w => match files w !! p with
              | Some c => (Ok c, w)
              | None => (Throw (SystemError (enoent env p)), w)
              end).

Definition writeFile (p : path) (content : jsstring) : M unit :=
  fs_call (EWriteFile p content)
    (fun w => (Ok tt, set_files (<[p := content]> (files w)) w)).

Definition unlink (p : path) : M unit :=
  fs_call (EUnlink p)
    (fun w => match files w !! p with
              | Some _ => (Ok tt, set_files (delete p (files w)) w)
              | None => (Throw (SystemError (enoent env p)), w)
              end).

(** [fs.unlink(p).catch(() => { })]. *)
Definition unlink_quietly (p : path) : M unit :=
  try_catch (unlink p) (fun _ => ret tt).

(** [execAsync(cmd, { timeout })]. *)
Definition execAsync (c : command) (timeout : Z) : M (jsstring * jsstring) :=
  fun w =>
    let w1 := log (EExec c timeout) w in
    match run env c timeout (files w1) with
    | (Exited stdout stderr, f) => (Ok (stdout, stderr), set_files f w1)
    | (Failed stdout stderr message, f) =>
        (Throw (ExecError stdout stderr message), set_files f w1)
    end.

(** [JSON.parse(s)]. *)
Definition JSON_parse (s : jsstring) : M value :=
  match JSON.parse s with
  | Some v => ret v
  | None => throw (SyntaxError s)
  end.

(** [error.message]. *)
Definition message_of (e : exn) : jsstring :=
  match e with
  | SystemError m => m
  | ExecError _ _ m => m
  | _ => engine_message env e
  end.

(** [v.k = x], as the response will show it.  On [null] and [undefined] it
    throws; on another primitive it throws in strict code and does nothing
    in sloppy code; a named property of an array is not part of its JSON
    text. *)
Definition set_prop (strict : bool) (v : value) (k : jsstring) (x : value)
  : M value :=
  match v with
  | VObj o => ret (VObj (<[k := x]> o))
  | VArr l => ret (VArr l)
  | VUndefined | VNull => throw (TypeError k)
  | _ => if strict then throw (TypeError k) else ret v
  end.

(** The block [identitas]. *)
Definition identitas (nama kode durasi level : value) : value :=
  VObj (<[str "nama" := nama]>
       (<[str "kode" := kode]>
       (<[str "durasi" := durasi]>
       (<[str "tipe" := VString "Hybrid"]>
       (<[str "level" := level]>
       (<[str "kapasitas" := VInt 25]> ∅)))))).

Definition temp : path := [str "temp"].

Definition temp_file (stem : jsstring) (t : Z) (ext : jsstring) : path :=
  [str "temp"; stem ++ Date.decimal t ++ ext].

(** *** pages/api/generate-bootcamp.ts *)

Definition next_command (nama durasi level additional_context : value)
  (outputPath : path) : command :=
  {| interpreter := str "python3";
     script := [str "scripts"; str "ai_to_json.py"];
     arguments :=
       [ArgValue (str "--name") nama;
        ArgValue (str "--durasi") durasi;
        ArgValue (str "--level") level;
        ArgValue (str "--context")
          (if truthy additional_context then additional_context else VStr []);
        ArgPath (str "--output") outputPath] |}.

(** The part of [handler] inside [try]. *)
Definition next_generate (req : Request) : M Response :=
  if nullish (body req) then throw (TypeError (str "nama")) else
  let nama := get_prop (body req) (str "nama") in
  let durasi := get_prop (body req) (str "durasi") in
  let level := get_prop (body req) (str "level") in
  let deskripsi := get_prop (body req) (str "deskripsi") in
  let additional_context := get_prop (body req) (str "additional_context") in
  if negb (truthy nama) || negb (truthy durasi) || negb (truthy level)
     || negb (truthy deskripsi)
  then ret (json 400 (failure (str "Missing required fields")))
  else
    t0 ← now;
    let outputPath := temp_file (str "bootcamp_") t0 (str ".json") in
    _ ← mkdir temp;
    '(stdout, stderr) ←
      execAsync (next_command nama durasi level additional_context outputPath)
        300000;
    jsonData ← readFile outputPath;
    bootcampData ← JSON_parse jsonData;
    t1 ← now;
    bootcampData ← set_prop true bootcampData (str "identitas")
      (identitas nama (VStr (str "BOOT-" ++ Date.decimal t1)) durasi level);
    t2 ← now;
    bootcampData ← set_prop true bootcampData (str "id")
      (VStr (str "boot-" ++ Date.decimal t2));
    t3 ← now;
    bootcampData ← set_prop true bootcampData (str "createdAt")
      (VStr (Date.toISOString t3));
    t4 ← now;
    bootcampData ← set_prop true bootcampData (str "updatedAt")
      (VStr (Date.toISOString t4));
    _ ← unlink_quietly outputPath;
    ret (json 200 (success bootcampData)).

(** [handler(req, res)] of the route. *)
Definition next_handler (req : Request) : M Response :=
  if negb (bool_decide (method req = str "POST"))
  then ret (json 405 (failure (str "Method not allowed")))
  else
    try_catch (next_generate req)
      (fun error => ret (json 500 (failure (message_of error)))).

(** *** express_api.js *)

Definition python_exe : jsstring :=
  str "C:\Users\Asus\AppData\Local\Programs\Python\Python312\python.exe".

Definition express_command (nama durasi level : value) (context : jsstring)
  (outputPath : path) : command :=
  {| interpreter := python_exe;
     script := [str "scripts"; str "ai_to_json.py"];
     arguments :=
       [ArgValue (str "--name") nama;
        ArgValue (str "--durasi") durasi;
        ArgValue (str "--level") level;
        ArgValue (str "--context") (VStr context);
        ArgPath (str "--output") outputPath] |}.

(** [error.message || 'Unknown error']. *)
Definition message_or_unknown (e : exn) : jsstring :=
  if str_falsy (message_of e) then str "Unknown error" else message_of e.

(** [{ success: false, error, details }]. *)
Definition failure_details (message details : jsstring) : value :=
  VObj (<[str "success" := VBool false]>
       (<[str "error" := VStr message]>
       (<[str "details" := VStr details]> ∅))).

(** The part of the generate route inside its outer [try]. *)
Definition express_generate_body (req : Request) : M Response :=
  if nullish (body req) then throw (TypeError (str "nama")) else
  let nama := get_prop (body req) (str "nama") in
  let durasi := get_prop (body req) (str "durasi") in
  let level := get_prop (body req) (str "level") in
  let deskripsi := get_prop (body req) (str "deskripsi") in
  let additional_context := get_prop (body req) (str "additional_context") in
  if negb (truthy nama) || negb (truthy durasi) || negb (truthy level)
     || negb (truthy deskripsi)
  then ret (json 400 (failure
              (str "Missing required fields: nama, durasi, level, deskripsi")))
  else
    t0 ← now;
    let outputPath := temp_file (str "bootcamp_") t0 (str ".json") in
    _ ← mkdir temp;
    context ←
      (if truthy additional_context then
         match additional_context with
         | VStr s => ret (escape_quotes (replace_newlines s))
         | _ => throw (TypeError (str "replace"))
         end
       else ret []);
    r ← attempt (execAsync
                    (express_command nama durasi level context outputPath)
                    300000);
    match r with
    | Throw (ExecError stdout stderr message) =>
        if includes stdout (str "API key not found")
           || includes stderr (str "API key not found")
        then ret (json 500 (failure (str
          "OpenAI API key not found. Please set OPENAI_API_KEY in .env.local file")))
        else if includes stdout (str "Failed to initialize")
                || includes stderr (str "Failed to initialize")
        then ret (json 500 (failure (str
          "Failed to initialize OpenAI client. Check your API key is valid.")))
        else throw (ExecError stdout stderr message)
    | Throw execError => throw execError
    | Ok (stdout, stderr) =>
        found ← attempt (access outputPath);
        match found with
        | Throw _ =>
            ret (json 500 (failure_details (str
              "AI generation failed. Check if OpenAI API key is set in .env.local")
              stdout))
        | Ok _ =>
            jsonData ← readFile outputPath;
            bootcampData ← JSON_parse jsonData;
            t1 ← now;
            bootcampData ← set_prop false bootcampData (str "identitas")
              (identitas nama
                 (VStr (str "BOOT-" ++ last6 (Date.decimal t1))) durasi level);
            t2 ← now;
            bootcampData ← set_prop false bootcampData (str "id")
              (VStr (str "boot-" ++ Date.decimal t2));
            t3 ← now;
            bootcampData ← set_prop false bootcampData (str "createdAt")
              (VStr (Date.toISOString t3));
            t4 ← now;
            bootcampData ← set_prop false bootcampData (str "updatedAt")
              (VStr (Date.toISOString t4));
            _ ← unlink_quietly outputPath;
            ret (json 200 (success bootcampData))
        end
    end.

(** [app.post('/api/generate-bootcamp', ...)]. *)
Definition express_generate (req : Request) : M Response :=
  try_catch (express_generate_body req)
    (fun error => ret (json 500 (failure (message_or_unknown error)))).

Definition convert_command (jsonPath docxPath : path) : command :=
  {| interpreter := python_exe;
     script := [str "scripts"; str "json_to_docx.py"];
     arguments := [ArgPath (str "--input") jsonPath;
                   ArgPath (str "--output") docxPath] |}.

Definition docx_headers : list (jsstring * jsstring) :=
  [(str "Content-Type",
    str "application/vnd.openxmlformats-officedocument.wordprocessingml.document");
   (str "Content-Disposition",
    str "attachment; filename=" ++ [34%N] ++ str "bootcamp_curriculum.docx"
    ++ [34%N])].

(** The part of the convert route inside [try]. *)
Definition express_convert_body (req : Request) : M Response :=
  let bootcampData := body req in
  if negb (truthy bootcampData)
     || negb (truthy (get_prop bootcampData (str "identitas")))
  then ret (json 400 (failure (str "Invalid bootcamp data")))
  else
    timestamp ← now;
    let jsonPath := temp_file (str "bootcamp_") timestamp (str ".json") in
    let docxPath := temp_file (str "bootcamp_") timestamp (str ".docx") in
    text ← match JSON.stringify bootcampData with
            | Some text => ret text
            | None => throw (TypeError (str "data"))
            end;
    _ ← writeFile jsonPath text;
    '(stdout, stderr) ← execAsync (convert_command jsonPath docxPath) 60000;
    docxBuffer ← readFile docxPath;
    _ ← unlink_quietly jsonPath;
    _ ← unlink_quietly docxPath;
    ret {| status := 200; headers := docx_headers; sent := Buffer docxBuffer |}.

(** [app.post('/api/convert-to-docx', ...)]. *)
Definition express_convert (req : Request) : M Response :=
  try_catch (express_convert_body req)
    (fun error => ret (json 500 (failure (message_or_unknown error)))).

(** The document that a generate request answers with: the object [o]
    written by the script, with the block [identitas], [id], [createdAt] and
    [updatedAt] set, from the four clock readings that follow the script. *)
Definition enriched (o : gmap jsstring value) (nama durasi level : value)
  (kode : jsstring) (t2 t3 t4 : Z) : value :=
  VObj (<[str "updatedAt" := VStr (Date.toISOString t4)]>
       (<[str "createdAt" := VStr (Date.toISOString t3)]>
       (<[str "id" := VStr (str "boot-" ++ Date.decimal t2)]>
       (<[str "identitas" := identitas nama (VStr kode) durasi level]> o)))).

(** The context that the server passes to the script. *)
Definition express_context (additional_context : value) : jsstring :=
  match additional_context with
  | VStr s => escape_quotes (replace_newlines s)
  | _ => []
  end.

End Handlers.

End Api.

(** ** The form collector (BootcampForm) *)

Module Form.

(** [BootcampFormInput].  [durasi] is only ever set from the initial [8] or
    from [parseInt(value) || 0], hence an integer. *)
Record BootcampFormInput := {
  nama : jsstring;
  durasi : Z;
  level : jsstring;
  deskripsi : jsstring;
  additional_context : jsstring
}.

(** The initial value passed to [useState]. *)
Definition initialFormData : BootcampFormInput := {|
  nama := [];
  durasi := 8;
  level := str "Beginner";
  deskripsi := [];
  additional_context := []
|}.

(** The component state: the record of the fields and the error map
    ([Partial<Record<keyof BootcampFormInput, string>>]). *)
Record State := {
  formData : BootcampFormInput;
  errors : gmap jsstring jsstring
}.

Definition msg_nama : jsstring := str "Nama bootcamp wajib diisi".
Definition msg_durasi : jsstring := str "Durasi harus antara 1-24 minggu".
Definition msg_deskripsi : jsstring := str "Deskripsi bootcamp wajib diisi".

(** The map [newErrors] that [validate] builds. *)
Definition newErrors (fd : BootcampFormInput) : gmap jsstring jsstring :=
  let e0 : gmap jsstring jsstring := ∅ in
  let e1 := if str_falsy (trim (nama fd))
            then <[str "nama" := msg_nama]> e0 else e0 in
  let e2 := if (durasi fd <? 1) || (durasi fd >? 24)
            then <[str "durasi" := msg_durasi]> e1 else e1 in
  let e3 := if str_falsy (trim (deskripsi fd))
            then <[str "deskripsi" := msg_deskripsi]> e2 else e2 in
  e3.

(** [validate()]: stores the new error map ([setErrors]) and answers whether
    it has no key. *)
Definition validate (st : State) : State * bool :=
  let e := newErrors (formData st) in
  ({| formData := formData st; errors := e |},
   Nat.eqb (size e) 0).

(** What a handler of the component does to the world outside the component
    state: it may cancel the browser's default action of the event, and it
    may call the functions received as props. *)
Inductive call :=
  | OnSubmit (data : BootcampFormInput)
  | OnGenerateAI (data : BootcampFormInput).

Record Outcome := {
  state : State;
  defaultPrevented : bool;
  calls : list call
}.

(** [handleSubmit]: the submit event of the form. *)
Definition handleSubmit (st : State) : Outcome :=
  let '(st', ok) := validate st in
  {| state := st';
     defaultPrevented := true;
     calls := if ok then [OnSubmit (formData st)] else [] |}.

(** [handleGenerateAI]: the click on the generate button.  [hasGenerateAI]
    tells whether the optional prop [onGenerateAI] was given. *)
Definition handleGenerateAI (hasGenerateAI : bool) (st : State) : Outcome :=
  let '(st', ok) := validate st in
  {| state := st';
     defaultPrevented := false;
     calls := if ok && hasGenerateAI then [OnGenerateAI (formData st)] else [] |}.

(** The three rules of the form. *)
Definition nama_ok (fd : BootcampFormInput) : bool := negb (blank (nama fd)).
Definition durasi_ok (fd : BootcampFormInput) : bool :=
  (1 <=? durasi fd) && (durasi fd <=? 24).
Definition deskripsi_ok (fd : BootcampFormInput) : bool :=
  negb (blank (deskripsi fd)).

(** The error entry of a field: its message when its rule is broken. *)
Definition entry (ok : bool) (message : jsstring) : option jsstring :=
  if ok then None else Some message.

(** The error map that the three rules call for. *)
Definition expected_errors (fd : BootcampFormInput) (k : jsstring)
  : option jsstring :=
  if bool_decide (k = str "nama") then entry (nama_ok fd) msg_nama
  else if bool_decide (k = str "durasi") then entry (durasi_ok fd) msg_durasi
  else if bool_decide (k = str "deskripsi")
       then entry (deskripsi_ok fd) msg_deskripsi
  else None.

Definition valid (fd : BootcampFormInput) : bool :=
  nama_ok fd && durasi_ok fd && deskripsi_ok fd.

End Form.

(** ** The result editor (BootcampFormContainer) *)

Module Editor.

Record State := {
  loading : bool;
  generatedData : value;
  jsonContent : jsstring
}.

(** The state of [useState(false)], [useState(null)], [useState('')]. *)
Definition initial : State :=
  {| loading := false; generatedData := VNull; jsonContent := [] |}.

(** What a handler shows or hands to the user. *)
Inductive effect :=
  | Alert (message : jsstring)
  | Download (filename type text : jsstring).

Definition check_mark : jsstring := [0x2705%N].
Definition cross_mark : jsstring := [0x274C%N].

Definition msg_loaded : jsstring :=
  check_mark ++ str " JSON Loaded Successfully! You can now edit and convert it.".
Definition msg_load_error : jsstring :=
  cross_mark ++ str " Error loading JSON: Invalid format".
Definition msg_download_error : jsstring :=
  cross_mark ++ str " Invalid JSON content. Please fix errors before downloading.".

(** [reader.onload] of [handleLoadJson], with the text read from the
    file. *)
Definition onload (content : jsstring) (st : State) : State * list effect :=
  match JSON.parse content with
  | Some parsed =>
      ({| loading := loading st;
          generatedData := parsed;
          jsonContent := content |},
       [Alert msg_loaded])
  | None => (st, [Alert msg_load_error])
  end.

(** [handleLoadJson]: [files] are the texts of the selected files.  Without
    a file nothing happens; the first file is read and given to
    [onload]. *)
Definition handleLoadJson (files : list jsstring) (st : State)
  : State * list effect :=
  match files with
  | [] => (st, [])
  | content :: _ => onload content st
  end.

(** [handleDownload], with the reading [now] of [Date.now()].  A Blob part
    that is [undefined] becomes the text [undefined]. *)
Definition handleDownload (now : Z) (st : State) : State * list effect :=
  match JSON.parse (jsonContent st) with
  | Some parsed =>
      (st, [Download (str "bootcamp_" ++ Date.decimal now ++ str ".json")
              (str "application/json")
              (default (str "undefined") (JSON.stringify parsed))])
  | None => (st, [Alert msg_download_error])
  end.

End Editor.

(** ** Sample requests and environments *)

Module Scenario.
Import Api.

(** A JSON text written with single quotes in place of double quotes. *)
Definition json_text (s : string) : jsstring :=
  map (fun c => if (c =? 39)%N then 34%N else c) (str s).

Fixpoint output_path (args : list argument) : option path :=
  match args with
  | ArgPath flag p :: rest =>
      if bool_decide (flag = str "--output") then Some p else output_path rest
  | _ :: rest => output_path rest
  | [] => None
  end.

(** A script that exits with code zero after writing [text] at the path of
    its [--output] argument. *)
Definition writes (text : jsstring)
  : command -> Z -> gmap path jsstring -> exec_result * gmap path jsstring :=
  fun c _ f =>
    (Exited [] [],
     match output_path (arguments c) with
     | Some p => <[p := text]> f
     | None => f
     end).

(** A script that fails and writes nothing. *)
Definition fails (message : jsstring)
  : command -> Z -> gmap path jsstring -> exec_result * gmap path jsstring :=
  fun _ _ f => (Failed [] [] message, f).

Definition environment
  (run : command -> Z -> gmap path jsstring -> exec_result * gmap path jsstring)
  (io_error : event -> option jsstring) : Env :=
  {| clock := fun n => 1700000000000 + Z.of_nat n;
     io_error := io_error;
     enoent := fun _ => str "ENOENT: no such file or directory";
     run := run;
     engine_message := fun _ => str "engine error" |}.

Definition no_io_error : event -> option jsstring := fun _ => None.

(** The file system refuses every [unlink]. *)
Definition unlink_refused : event -> option jsstring :=
  fun e => match e with
           | EUnlink _ => Some (str "EPERM: operation not permitted")
           | _ => None
           end.

Definition start : World := {| files := ∅; ticks := 0; trace := [] |}.

Definition post (body : value) : Request :=
  {| method := str "POST"; body := body |}.

(** The request of the specification's scenario. *)
Definition web_dev : value :=
  VObj (<[str "nama" := VString "Web Dev"]>
       (<[str "durasi" := VInt 8]>
       (<[str "level" := VString "Beginner"]>
       (<[str "deskripsi" := VString "Learn web dev"]> ∅)))).

(** The same request without its description. *)
Definition web_dev_without_deskripsi : value :=
  VObj (<[str "nama" := VString "Web Dev"]>
       (<[str "durasi" := VInt 8]>
       (<[str "level" := VString "Beginner"]> ∅))).

(** The same request with a duration of zero. *)
Definition web_dev_zero_weeks : value :=
  VObj (<[str "nama" := VString "Web Dev"]>
       (<[str "durasi" := VInt 0]>
       (<[str "level" := VString "Beginner"]>
       (<[str "deskripsi" := VString "Learn web dev"]> ∅)))).

(** A document as the generate endpoint returns it. *)
Definition document : value :=
  VObj (<[str "identitas" := identitas (VString "Web Dev")
            (VString "BOOT-000001") (VInt 8) (VString "Beginner")]>
       (<[str "modules" := VArr []]> ∅)).

Definition not_unlink (e : event) : bool :=
  match e with EUnlink _ => false | _ => true end.

(** The [error] of a JSON response. *)
Definition error_of (r : result Response) : value :=
  match r with
  | Ok resp => match sent resp with
               | Json v => get_prop v (str "error")
               | Buffer _ => VUndefined
               end
  | Throw _ => VUndefined
  end.

End Scenario.

(** ** What a request may do, and what a failure is answered with *)

Module ServerDefs.
Import Api.

(** A call into the operating system that a generate request with the
    output path [p] may make. *)
Definition generate_event (p : path) (e : event) : Prop :=
  match e with
  | EMkdir d => d = temp
  | EExec c timeout =>
      script c = [str "scripts"; str "ai_to_json.py"] /\ timeout = 300000
  | EAccess q | EReadFile q | EUnlink q => q = p
  | EWriteFile _ _ => False
  end.

(** The same for a convert request with the paths [jsonPath] and
    [docxPath]. *)
Definition convert_event (jsonPath docxPath : path) (e : event) : Prop :=
  match e with
  | EWriteFile q _ => q = jsonPath
  | EExec c timeout => c = convert_command jsonPath docxPath /\ timeout = 60000
  | EReadFile q => q = docxPath
  | EUnlink q => q = jsonPath \/ q = docxPath
  | EMkdir _ | EAccess _ => False
  end.

(** A generate request lacks a field: its body is there, and one of the
    required fields is falsy. *)
Definition missing (req : Request) : Prop :=
  nullish (body req) = false
  /\ exists k, k ∈ required /\ truthy (get_prop (body req) k) = false.

Definition is_unlink (e : event) : bool :=
  match e with EUnlink _ => true | _ => false end.



End ServerDefs.

(** ** The change of a field (BootcampForm) *)

Module FormEvents.
Import Form.

(** The digits of radix 16 at the head of [s], as their values. *)
Fixpoint span_hex (s : jsstring) : list N * jsstring :=
  match s with
  | c :: s' =>
      match JSON.hex_value c with
      | Some d => let '(ds, r) := span_hex s' in (d :: ds, r)
      | None => ([], s)
      end
  | [] => ([], [])
  end.

Definition hex_number (ds : list N) : Z :=
  foldl (fun acc d => 16 * acc + Z.of_N d) 0 ds.

(** The text after a prefix [0x] or [0X]. *)
Definition after_0x (s : jsstring) : option jsstring :=
  match s with
  | c :: x :: r =>
      if ((c =? 48) && ((x =? 120) || (x =? 88)))%N then Some r else None
  | _ => None
  end.

(** [parseInt(string)], with no radix: white space is skipped, then a sign,
    and the integer is read as far as its digits go, in radix 16 after [0x]
    and in radix 10 otherwise.  The result is the integer [sign * mathInt]
    whose Number value is returned; [None] is NaN, for a text without a
    digit there.  (The value is exact, as the engines compute it; the
    standard lets an engine round after the twentieth digit.) *)
Definition parseInt (string : jsstring) : option Z :=
  let s := trimStart string in
  let '(sign, s) := match s with
                    | c :: r => if (c =? 45)%N then (-1, r)
                                else if (c =? 43)%N then (1, r)
                                else (1, s)
                    | [] => (1, s)
                    end in
  match after_0x s with
  | Some r => match span_hex r with
              | ([], _) => None
              | (ds, _) => Some (sign * hex_number ds)
              end
  | None => match JSON.span_digits s with
            | ([], _) => None
            | (ds, _) => Some (sign * JSON.digits_value ds)
            end
  end.

(** [parseInt(value) || 0]: NaN and zero give [0]. *)
Definition parseInt_or_0 (value : jsstring) : Number.number :=
  match parseInt value with
  | Some z => Number.of_Z z
  | None => Number.of_Z 0
  end.

(** The integer that a Number value is, when it is one. *)
Definition integer (n : Number.number) : option Z :=
  match n with
  | Number.Finite m e => if 0 <=? e then Some (m * 2 ^ e) else None
  | _ => None
  end.

(** The controls that [handleChange] is attached to, by their [name]. *)
Inductive field := Nama | Durasi | Level | Deskripsi | AdditionalContext.

Definition name (f : field) : jsstring :=
  match f with
  | Nama => str "nama"
  | Durasi => str "durasi"
  | Level => str "level"
  | Deskripsi => str "deskripsi"
  | AdditionalContext => str "additional_context"
  end.

(** [{ ...prev, [name]: name === 'durasi' ? parseInt(value) || 0 : value }].
    [None]: the number is an infinity (a text of more than 308 digits),
    which the record, with its integer [durasi], does not hold. *)
Definition set_field (f : field) (value : jsstring) (prev : BootcampFormInput)
  : option BootcampFormInput :=
  match f with
  | Nama =>
      Some {| nama := value; durasi := durasi prev; level := level prev;
              deskripsi := deskripsi prev;
              additional_context := additional_context prev |}
  | Durasi =>
      d ← integer (parseInt_or_0 value);
      Some {| nama := nama prev; durasi := d; level := level prev;
              deskripsi := deskripsi prev;
              additional_context := additional_context prev |}
  | Level =>
      Some {| nama := nama prev; durasi := durasi prev; level := value;
              deskripsi := deskripsi prev;
              additional_context := additional_context prev |}
  | Deskripsi =>
      Some {| nama := nama prev; durasi := durasi prev; level := level prev;
              deskripsi := value;
              additional_context := additional_context prev |}
  | AdditionalContext =>
      Some {| nama := nama prev; durasi := durasi prev; level := level prev;
              deskripsi := deskripsi prev; additional_context := value |}
  end.

(** [if (errors[name]) setErrors(prev => ({ ...prev, [name]: undefined }))]:
    a key set to [undefined] reads as a key that is not there. *)
Definition clear_error (k : jsstring) (errors : gmap jsstring jsstring)
  : gmap jsstring jsstring :=
  match errors !! k with
  | Some message => if str_falsy message then errors else delete k errors
  | None => errors
  end.

(** [handleChange]: the change event of the control [f], whose value is
    [value]. *)
Definition handleChange (f : field) (value : jsstring) (st : State)
  : option State :=
  fd ← set_field f value (formData st);
  Some {| formData := fd; errors := clear_error (name f) (errors st) |}.

(** The first code unit after the white space is neither a digit nor a
    sign: the text does not start as a number does. *)
Definition not_a_number (value : jsstring) : Prop :=
  match trimStart value with
  | c :: _ => JSON.is_digit c = false /\ c <> 45%N /\ c <> 43%N
  | [] => True
  end.

End FormEvents.

(** ** JSON.stringify without a gap *)

Module Wire.
Import JSON.

(** [SerializeJSONProperty] with an empty gap, as [JSON.stringify(v)] and
    [res.json(v)] write a value; [None] is [undefined].  As in [serialize],
    the keys of an object are written in the order of the map. *)
Fixpoint compact (v : value) : option jsstring :=
  match v with
  | VUndefined => None
  | VNull => Some (str "null")
  | VBool true => Some (str "true")
  | VBool false => Some (str "false")
  | VNum n => Some (if Number.is_finite n then Number.toString n else str "null")
  | VStr s => Some (quote s)
  | VArr l =>
      Some (str "[" ++ join (str ",")
                         (map (fun x => default (str "null") (compact x)) l)
            ++ str "]")
  | VObj o =>
      Some (str "{" ++ join (str ",")
                         (map_fold (fun k x acc =>
                                      match compact x with
                                      | Some t => (quote k ++ str ":" ++ t) :: acc
                                      | None => acc
                                      end) [] o)
            ++ str "}")
  end.

(** What may follow a value in a text without white space: the end, a
    comma, a closing bracket or a closing brace. *)
Definition closes (rest : jsstring) : bool :=
  match rest with
  | [] => true
  | c :: _ => ((c =? 44) || (c =? 93) || (c =? 125))%N
  end.

(** The value [x] is read back from its compact text. *)
Definition reads_compact (x : value) : Prop :=
  forall (rest : jsstring) (fuel : nat),
    closes rest = true -> (2 * weight x <= fuel)%nat ->
    exists t, compact x = Some t
              /\ starts_token t = true
              /\ parse_value fuel (t ++ rest) = Some (x, rest).

Definition compact_element (x : value) : jsstring :=
  default (str "null") (compact x).

Definition compact_member (kv : jsstring * value) : jsstring :=
  quote kv.1 ++ str ":" ++ compact_element kv.2.

End Wire.

(** ** The requests of the container (BootcampFormContainer) *)

Module Container.
Import Editor Wire.

(** A request given to [fetch]. *)
Record request := {
  url : jsstring;
  method : jsstring;
  headers : list (jsstring * jsstring);
  body : jsstring
}.

(** [fetch(url, { method: 'POST', headers: { 'Content-Type':
    'application/json' }, body })]. *)
Definition post (url body : jsstring) : request :=
  {| url := url; method := str "POST";
     headers := [(str "Content-Type", str "application/json")];
     body := body |}.

(** What [fetch] and the reading of the body come to: [fetch] rejects and
    there is no response; or a response arrives, with its [ok], the type of
    its content and its body; or a response arrives and the reading of its
    body fails. *)
Inductive fetched :=
  | Rejected (message : jsstring)
  | Responded (ok : bool) (type content : jsstring)
  | Interrupted (ok : bool) (message : jsstring).

(** The object that [formData] is. *)
Definition form_value (fd : Form.BootcampFormInput) : value :=
  VObj (<[str "nama" := VStr (Form.nama fd)]>
       (<[str "durasi" := VInt (Form.durasi fd)]>
       (<[str "level" := VStr (Form.level fd)]>
       (<[str "deskripsi" := VStr (Form.deskripsi fd)]>
       (<[str "additional_context" := VStr (Form.additional_context fd)]> ∅))))).

(** [JSON.stringify(v)] for a [v] that is not [undefined]. *)
Definition stringify (v : value) : jsstring := default [] (compact v).

(** The container's [handleSubmit]: the prop [onSubmit] of the form. *)
Definition handleSubmit (formData : Form.BootcampFormInput) : list effect :=
  [Alert (str "Form submitted! (Manual logic to be implemented)")].

(** [setJsonContent(e.target.value)]: the change of the text area. *)
Definition edit (text : jsstring) (st : State) : State :=
  {| loading := loading st; generatedData := generatedData st;
     jsonContent := text |}.

(** [(jsonContent || generatedData) && ...]: the editor is rendered. *)
Definition editor_shown (st : State) : bool :=
  negb (str_falsy (jsonContent st)) || truthy (generatedData st).

Section Browser.

(** The message of an error thrown by the engine. *)
Context (engine_message : Api.exn -> jsstring).

(** *** handleGenerateAI *)

Definition msg_generated : jsstring :=
  check_mark ++ str " AI Generation Successful! Please review the JSON below.".

Definition generate_request (formData : Form.BootcampFormInput) : request :=
  post (str "/api/generate-bootcamp") (stringify (form_value formData)).

(** [setLoading(true)], before the request. *)
Definition start_generate (st : State) : State :=
  {| loading := true; generatedData := generatedData st;
     jsonContent := jsonContent st |}.

(** What [handleGenerateAI] does once the request has come to [outcome], in
    the state [st] of that moment: the [try] after the request, its
    [catch] and its [finally]. *)
Definition finish_generate (outcome : fetched) (st : State)
  : State * list effect :=
  let fail (message : jsstring) :=
    ({| loading := false; generatedData := generatedData st;
        jsonContent := jsonContent st |},
     [Alert (str "Error: " ++ message)]) in
  match outcome with
  | Rejected message => fail message
  | Responded false _ _ | Interrupted false _ => fail (str "AI generation failed")
  | Interrupted true message => fail message
  | Responded true _ content =>
      match JSON.parse content with
      | None => fail (engine_message (Api.SyntaxError content))
      | Some data =>
          if nullish data
          then fail (engine_message (Api.TypeError (str "success")))
          else if truthy (get_prop data (str "success"))
                  && truthy (get_prop data (str "data"))
          then ({| loading := false;
                   generatedData := get_prop data (str "data");
                   jsonContent :=
                     default [] (JSON.stringify (get_prop data (str "data"))) |},
                [Alert msg_generated])
          else fail (str "Invalid response structure")
      end
  end.

(** [handleGenerateAI(formData)], when nothing else happens between the
    request and its outcome: the request, and the state and the alerts at
    the end. *)
Definition handleGenerateAI (formData : Form.BootcampFormInput)
  (outcome : fetched) (st : State) : request * (State * list effect) :=
  (generate_request formData, finish_generate outcome (start_generate st)).

(** *** handleConvertToDocx *)

(** The button [btn-convert-docx], as the handler sets it. *)
Record button := {
  disabled : bool;
  innerText : jsstring
}.

Definition label_convert : jsstring := [0xD83D; 0xDCC4]%N ++ str " Convert to DOCX".
Definition label_converting : jsstring := [0x23F3%N] ++ str " Converting...".
Definition label_downloaded : jsstring := check_mark ++ str " Downloaded!".

Definition ready : button := {| disabled := false; innerText := label_convert |}.
Definition busy : button := {| disabled := true; innerText := label_converting |}.

Definition msg_convert_error (message : jsstring) : jsstring :=
  cross_mark ++ str " Error converting to DOCX: " ++ message.

(** What the handler does: the request it sent, if any, and the button
    while this request was under way; then the button as the handler leaves
    it (when there is one), the alerts and downloads, and the button that
    the timer will set after its delay, if a timer was started. *)
Record converted := {
  sent : option request;
  waiting : option button;
  now_button : option button;
  effects : list effect;
  timer : option (Z * button)
}.

(** The [catch]: the alert, and the button made ready again. *)
Definition convert_failed (request : option request) (btn : option button)
  (message : jsstring) : converted :=
  {| sent := request;
     waiting := match request with
                | Some _ => option_map (fun _ => busy) btn
                | None => None
                end;
     now_button := option_map (fun _ => ready) btn;
     effects := [Alert (msg_convert_error message)];
     timer := None |}.

(** [handleConvertToDocx()]: [btn] is the button that
    [document.getElementById] finds, if any, [outcome] what the request
    comes to, and [now] the reading of [Date.now()]. *)
Definition handleConvertToDocx (now : Z) (outcome : fetched)
  (btn : option button) (st : State) : converted :=
  match JSON.parse (jsonContent st) with
  | None =>
      convert_failed None btn (engine_message (Api.SyntaxError (jsonContent st)))
  | Some parsed =>
      let request := post (str "/api/convert-to-docx") (stringify parsed) in
      match outcome with
      | Rejected message => convert_failed (Some request) btn message
      | Responded false _ _ | Interrupted false _ =>
          convert_failed (Some request) btn (str "Conversion failed")
      | Interrupted true message => convert_failed (Some request) btn message
      | Responded true type content =>
          {| sent := Some request;
             waiting := option_map (fun _ => busy) btn;
             now_button :=
               option_map (fun _ => {| disabled := true;
                                       innerText := label_downloaded |}) btn;
             effects :=
               [Download (str "bootcamp_curriculum_" ++ Date.decimal now
                          ++ str ".docx") type content];
             timer := option_map (fun _ => (2000, ready)) btn |}
      end
  end.

(** The button once the timer, if any, has fired. *)
Definition settled (c : converted) : option button :=
  match timer c with
  | Some (_, b) => Some b
  | None => now_button c
  end.

End Browser.

End Container.

(** ** Sample states of the form and of the container *)

Module Samples.

(** The form as it is first shown. *)
Definition blank_form : Form.State :=
  {| Form.formData := Form.initialFormData; Form.errors := ∅ |}.

Definition web_dev_form : Form.BootcampFormInput :=
  {| Form.nama := str "Web Dev"; Form.durasi := 8;
     Form.level := str "Beginner"; Form.deskripsi := str "Learn web dev";
     Form.additional_context := [] |}.

(** The container with [content] in its editor. *)
Definition loaded (content : jsstring) : Editor.State :=
  {| Editor.loading := false; Editor.generatedData := VNull;
     Editor.jsonContent := content |}.

(** An engine whose errors all carry the same message. *)
Definition engine : Api.exn -> jsstring := fun _ => str "engine error".


End Samples.


(** * Properties *)

(** ** Strings *)

Lemma trimStart_nil_iff (s : jsstring) : trimStart s = [] <-> blank s = true.
Proof.
  unfold blank. induction s as [|c s IH]; simpl; [tauto|].
  destruct (is_js_whitespace c); simpl; [exact IH|].
  split; intros H; discriminate H.
Qed.

Lemma blank_trimStart (s : jsstring) : blank (trimStart s) = blank s.
Proof.
  unfold blank. induction s as [|c s IH]; simpl; [reflexivity|].
  destruct (is_js_whitespace c) eqn:E; simpl; [exact IH|].
  rewrite E. reflexivity.
Qed.

Lemma blank_app (s t : jsstring) : blank (s ++ t) = blank s && blank t.
Proof. unfold blank. apply forallb_app. Qed.

Lemma blank_reverse (s : jsstring) : blank (reverse s) = blank s.
Proof.
  induction s as [|c s IH]; [reflexivity|].
  rewrite reverse_cons, blank_app, IH. unfold blank. simpl.
  rewrite andb_true_r. apply andb_comm.
Qed.

(** [trim] leaves nothing exactly when the string is blank. *)
Lemma str_falsy_trim (s : jsstring) : str_falsy (trim s) = blank s.
Proof.
  unfold trim, trimEnd.
  destruct (blank s) eqn:B.
  - assert (H : trimStart (reverse (trimStart s)) = []).
    { apply trimStart_nil_iff. rewrite blank_reverse, blank_trimStart. exact B. }
    rewrite H. reflexivity.
  - destruct (reverse (trimStart (reverse (trimStart s)))) as [|c r] eqn:E;
      [|reflexivity].
    apply (f_equal reverse) in E. rewrite reverse_involutive in E.
    change (reverse []) with (@nil N) in E.
    apply trimStart_nil_iff in E.
    rewrite blank_reverse, blank_trimStart in E. congruence.
Qed.

(** ** The form collector *)

Module FormProps.
Import Form.

Lemma durasi_rule (fd : BootcampFormInput) :
  (durasi fd <? 1) || (durasi fd >? 24) = negb (durasi_ok fd).
Proof. unfold durasi_ok. lia. Qed.

Lemma newErrors_lookup (fd : BootcampFormInput) (k : jsstring) :
  newErrors fd !! k = expected_errors fd k.
Proof.
  unfold newErrors, expected_errors, nama_ok, deskripsi_ok.
  rewrite !str_falsy_trim, durasi_rule.
  destruct (blank (nama fd)), (durasi_ok fd), (blank (deskripsi fd)); simpl;
    repeat case_bool_decide; subst;
    repeat (rewrite lookup_insert_eq || (rewrite lookup_insert_ne by done));
    try rewrite lookup_empty; try reflexivity; try done.
Qed.

Lemma newErrors_empty (fd : BootcampFormInput) :
  newErrors fd = ∅ <-> valid fd = true.
Proof.
  split.
  - intros H.
    pose proof (newErrors_lookup fd (str "nama")) as H1.
    pose proof (newErrors_lookup fd (str "durasi")) as H2.
    pose proof (newErrors_lookup fd (str "deskripsi")) as H3.
    rewrite H, lookup_empty in H1, H2, H3.
    unfold expected_errors in *. simpl in *. unfold valid.
    destruct (nama_ok fd), (durasi_ok fd), (deskripsi_ok fd);
      simpl in *; congruence.
  - intros H. apply map_eq. intros k.
    rewrite newErrors_lookup, lookup_empty. unfold expected_errors, valid in *.
    destruct (nama_ok fd), (durasi_ok fd), (deskripsi_ok fd);
      simpl in *; try discriminate; repeat case_bool_decide; reflexivity.
Qed.

Lemma validate_answer (st : State) : (validate st).2 = valid (formData st).
Proof.
  unfold validate. simpl.
  destruct (valid (formData st)) eqn:V.
  - apply newErrors_empty in V. rewrite V. reflexivity.
  - apply Nat.eqb_neq. intros H. apply map_size_empty_iff in H.
    apply newErrors_empty in H. congruence.
Qed.

(** C1.  [validate()] leaves the fields as they are and recomputes the error
    map: a field has an entry, with its message, exactly when its rule is
    broken (a blank name, a duration outside [1,24], a blank description),
    whatever the other fields hold, and no other key has an entry; it
    returns false when some rule is broken, and true, with an empty map,
    when all three rules hold. *)
Theorem validate_spec (st : State) :
  let fd := formData st in
  formData (validate st).1 = fd
  /\ (forall k, errors (validate st).1 !! k = expected_errors fd k)
  /\ (validate st).2 = nama_ok fd && durasi_ok fd && deskripsi_ok fd
  /\ ((validate st).2 = true -> errors (validate st).1 = ∅).
Proof.
  cbv zeta. split; [reflexivity|]. split; [apply newErrors_lookup|].
  split; [apply validate_answer|].
  intros H. rewrite validate_answer in H. apply newErrors_empty in H.
  unfold validate. simpl. exact H.
Qed.

(** C8.  Submitting and generating both run [validate()] first: the state
    they leave is the one [validate()] leaves, the fields untouched and the
    error map recomputed.  When [validate()] returns true the handler of the
    trigger ([onSubmit], respectively [onGenerateAI]) is called once, with the
    record of the fields as it is; when it returns false no handler is
    called.  (Without the optional prop [onGenerateAI] the button is not
    rendered, and [handleGenerateAI] would call nothing.) *)
Theorem submit_generate_spec (st : State) :
  let fd := formData st in
  let ok := (validate st).2 in
  state (handleSubmit st) = (validate st).1
  /\ state (handleGenerateAI true st) = (validate st).1
  /\ formData (validate st).1 = fd
  /\ calls (handleSubmit st) = (if ok then [OnSubmit fd] else [])
  /\ calls (handleGenerateAI true st) = (if ok then [OnGenerateAI fd] else [])
  /\ calls (handleGenerateAI false st) = [].
Proof.
  cbv zeta. unfold handleSubmit, handleGenerateAI.
  destruct (validate st) as [st' ok] eqn:E. simpl.
  rewrite andb_true_r, andb_false_r.
  assert (formData st' = formData st) as ->.
  { unfold validate in E. injection E as <- _. reflexivity. }
  repeat split.
Qed.

End FormProps.

(** ** The API layer *)

Module ApiProps.
Import Api.

Lemma required_falsy (b : value) (k : jsstring) :
  k ∈ required -> truthy (get_prop b k) = false ->
  negb (truthy (get_prop b (str "nama")))
  || negb (truthy (get_prop b (str "durasi")))
  || negb (truthy (get_prop b (str "level")))
  || negb (truthy (get_prop b (str "deskripsi"))) = true.
Proof.
  unfold required. rewrite !elem_of_cons, elem_of_nil.
  intros [->|[->|[->|[->|[]]]]] ->; simpl; rewrite ?orb_true_r; reflexivity.
Qed.

(** A POST request that lacks a truthy required field: the route answers
    400 and touches nothing. *)
Lemma next_rejects (env : Env) (req : Request) (w : World) (k : jsstring) :
  method req = str "POST" -> nullish (body req) = false ->
  k ∈ required -> truthy (get_prop (body req) k) = false ->
  next_handler env req w
  = (Ok (json 400 (failure (str "Missing required fields"))), w).
Proof.
  intros Hm Hb Hk Hf. unfold next_handler, next_generate, try_catch.
  rewrite Hm, Hb, (required_falsy _ _ Hk Hf). reflexivity.
Qed.

(** The same for the server, with its own message. *)
Lemma express_rejects (env : Env) (req : Request) (w : World) (k : jsstring) :
  nullish (body req) = false ->
  k ∈ required -> truthy (get_prop (body req) k) = false ->
  express_generate env req w
  = (Ok (json 400 (failure
       (str "Missing required fields: nama, durasi, level, deskripsi"))), w).
Proof.
  intros Hb Hk Hf. unfold express_generate, express_generate_body, try_catch.
  rewrite Hb, (required_falsy _ _ Hk Hf). reflexivity.
Qed.

(** C9.  A request to the route with a method other than POST is answered
    405 with [{ success: false, error: "Method not allowed" }]; the body of
    the request is not looked at and the world is left as it was: no call
    into the file system, no subprocess. *)
Theorem method_not_allowed (env : Env) (req : Request) (w : World) :
  method req <> str "POST" ->
  next_handler env req w
  = (Ok (json 405 (failure (str "Method not allowed"))), w).
Proof.
  intros H. unfold next_handler. rewrite bool_decide_eq_false_2 by exact H.
  reflexivity.
Qed.

Lemma method_not_allowed_witness :
  next_handler (Scenario.environment (Scenario.writes []) Scenario.no_io_error)
    {| method := str "GET"; body := Scenario.web_dev |} Scenario.start
  = (Ok (json 405 (failure (str "Method not allowed"))), Scenario.start).
Proof. apply method_not_allowed. vm_compute. discriminate. Defined.

(** C3, as the specification states it, fails on the server: for the
    request without a description it answers with another message. *)
Lemma express_missing_fields_message :
  (express_generate
     (Scenario.environment (Scenario.writes []) Scenario.no_io_error)
     (Scenario.post Scenario.web_dev_without_deskripsi) Scenario.start).1
  <> Ok (json 400 (failure (str "Missing required fields"))).
Proof.
  intros H. apply (f_equal Scenario.error_of) in H. vm_compute in H.
  discriminate H.
Qed.

(** C3, amended.  A request whose body (not [null] or [undefined]) lacks one
    of [nama], [durasi], [level], [deskripsi] is answered 400, by the route
    (for a POST) with exactly [{ success: false, error: "Missing required
    fields" }], by the server with [{ success: false, error: "Missing
    required fields: nama, durasi, level, deskripsi" }]; in both the world
    is left as it was: no subprocess is invoked. *)
Theorem missing_fields (env : Env) (req : Request) (w : World) (k : jsstring) :
  nullish (body req) = false ->
  k ∈ required -> get_prop (body req) k = VUndefined ->
  (method req = str "POST" ->
   next_handler env req w
   = (Ok (json 400 (failure (str "Missing required fields"))), w))
  /\ express_generate env req w
     = (Ok (json 400 (failure
          (str "Missing required fields: nama, durasi, level, deskripsi"))), w).
Proof.
  intros Hb Hk Hu.
  assert (Hf : truthy (get_prop (body req) k) = false) by (rewrite Hu; reflexivity).
  split.
  - intros Hm. exact (next_rejects env req w k Hm Hb Hk Hf).
  - exact (express_rejects env req w k Hb Hk Hf).
Qed.

Lemma missing_fields_witness :
  let env := Scenario.environment (Scenario.writes []) Scenario.no_io_error in
  let req := Scenario.post Scenario.web_dev_without_deskripsi in
  next_handler env req Scenario.start
  = (Ok (json 400 (failure (str "Missing required fields"))), Scenario.start)
  /\ express_generate env req Scenario.start
     = (Ok (json 400 (failure
          (str "Missing required fields: nama, durasi, level, deskripsi"))),
        Scenario.start).
Proof.
  intros env req.
  destruct (missing_fields env req Scenario.start (str "deskripsi")) as [H1 H2].
  - reflexivity.
  - unfold required. set_solver.
  - reflexivity.
  - split; [apply H1; reflexivity | exact H2].
Defined.

(** C10.  A required field that is there but falsy, the empty string or the
    number zero, is treated as a field that is not there: the route (for a
    POST) and the server give the answer they give for the request without
    the field, which is their 400 answer for missing fields.  In particular
    [durasi: 0] is rejected. *)
Theorem falsy_field_rejected (env : Env) (o : gmap jsstring value)
  (w : World) (k : jsstring) (v : value) :
  k ∈ required -> o !! k = Some v ->
  v = VStr [] \/ v = VInt 0 ->
  let present := Scenario.post (VObj o) in
  let absent := Scenario.post (VObj (delete k o)) in
  next_handler env present w = next_handler env absent w
  /\ next_handler env present w
     = (Ok (json 400 (failure (str "Missing required fields"))), w)
  /\ express_generate env present w = express_generate env absent w
  /\ express_generate env present w
     = (Ok (json 400 (failure
          (str "Missing required fields: nama, durasi, level, deskripsi"))), w).
Proof.
  intros Hk Ho Hv present absent.
  assert (Hp : truthy (get_prop (body present) k) = false).
  { simpl. rewrite Ho. destruct Hv as [-> | ->]; reflexivity. }
  assert (Ha : truthy (get_prop (body absent) k) = false).
  { simpl. rewrite lookup_delete_eq. reflexivity. }
  rewrite (next_rejects env present w k), (next_rejects env absent w k),
    (express_rejects env present w k), (express_rejects env absent w k);
    auto.
Qed.

Lemma falsy_field_rejected_witness :
  let env := Scenario.environment (Scenario.writes []) Scenario.no_io_error in
  next_handler env (Scenario.post Scenario.web_dev_zero_weeks) Scenario.start
  = (Ok (json 400 (failure (str "Missing required fields"))), Scenario.start).
Proof.
  intros env. unfold Scenario.web_dev_zero_weeks.
  refine (proj1 (proj2 (falsy_field_rejected env _ Scenario.start
                          (str "durasi") (VInt 0) _ _ _))).
  - unfold required. set_solver.
  - reflexivity.
  - right. reflexivity.
Defined.

(** C7.  A convert request without a body, or whose body has no block
    [identitas], is answered 400 with exactly [{ success: false, error:
    "Invalid bootcamp data" }]; the world is left as it was: no temporary
    file is written and no subprocess is invoked. *)
Theorem convert_rejects (env : Env) (req : Request) (w : World) :
  nullish (body req) = true \/ get_prop (body req) (str "identitas") = VUndefined ->
  express_convert env req w
  = (Ok (json 400 (failure (str "Invalid bootcamp data"))), w).
Proof.
  intros H. unfold express_convert, express_convert_body, try_catch.
  assert (E : negb (truthy (body req))
              || negb (truthy (get_prop (body req) (str "identitas"))) = true).
  { destruct H as [H | H].
    - destruct (body req); try discriminate H; reflexivity.
    - rewrite H. apply orb_true_r. }
  rewrite E. reflexivity.
Qed.

Lemma convert_rejects_witness :
  express_convert
    (Scenario.environment (Scenario.writes []) Scenario.no_io_error)
    (Scenario.post Scenario.web_dev) Scenario.start
  = (Ok (json 400 (failure (str "Invalid bootcamp data"))), Scenario.start).
Proof. apply convert_rejects. right. reflexivity. Defined.

Ltac quiet :=
  cbn -[str temp_file Date.decimal Date.toISOString next_command
        express_command convert_command identitas enriched json success
        failure failure_details JSON.parse JSON.stringify temp includes
        escape_quotes replace_newlines last6].

Ltac step :=
  repeat first
    [ progress (unfold mbind, M_bind, bind, now, mkdir, access, fs_call,
        execAsync, readFile, writeFile, JSON_parse, unlink_quietly, unlink,
        attempt, try_catch, ret, throw, log, set_files, set_prop)
    | progress quiet ].






Ltac case_inner :=
  match goal with
  | |- context [match ?x with _ => _ end] =>
      lazymatch x with
      | context [match _ with _ => _ end] => fail
      | _ => destruct x eqn:?
      end
  end.

Ltac cases := repeat (case_inner; step).

Ltac leaf :=
  let H := fresh in
  intros H; injection H as <- <-;
  try (intros; simpl in *; discriminate).

Lemma next_cleanup (env : Env) (req : Request) (w w' : World)
  (resp : Response) :
  let p := temp_file (str "bootcamp_") (clock env (ticks w)) (str ".json") in
  next_handler env req w = (Ok resp, w') -> status resp = 200 ->
  (exists pre, trace w' = pre ++ [EUnlink p])
  /\ (files w' !! p = None \/ is_Some (io_error env (EUnlink p))).
Proof.
  intros p. subst p. unfold next_handler, next_generate.
  step. cases; leaf; intros _; simpl.
  all: try (split; [eexists; reflexivity|]).
  all: try (left; apply lookup_delete_eq).
  all: try (right; eexists; eassumption).
  all: try (right; eexists; reflexivity).
  all: try congruence.
Qed.

Lemma express_cleanup (env : Env) (req : Request) (w w' : World)
  (resp : Response) :
  let p := temp_file (str "bootcamp_") (clock env (ticks w)) (str ".json") in
  express_generate env req w = (Ok resp, w') -> status resp = 200 ->
  (exists pre, trace w' = pre ++ [EUnlink p])
  /\ (files w' !! p = None \/ is_Some (io_error env (EUnlink p))).
Proof.
  intros p. subst p. unfold express_generate, express_generate_body.
  step. cases; leaf; intros _; simpl.
  all: try (split; [eexists; reflexivity|]).
  all: try (left; apply lookup_delete_eq).
  all: try (right; eexists; reflexivity).
  all: try congruence.
Qed.

Lemma json_docx_ne (t : Z) :
  temp_file (str "bootcamp_") t (str ".json")
  <> temp_file (str "bootcamp_") t (str ".docx").
Proof.
  unfold temp_file. intros H. injection H as H.
  repeat apply app_inv_head in H. discriminate H.
Qed.

Lemma docx_json_ne (t : Z) :
  temp_file (str "bootcamp_") t (str ".docx")
  <> temp_file (str "bootcamp_") t (str ".json").
Proof. intros H. symmetry in H. exact (json_docx_ne t H). Qed.

Lemma convert_cleanup (env : Env) (req : Request) (w w' : World)
  (resp : Response) :
  let jsonPath :=
    temp_file (str "bootcamp_") (clock env (ticks w)) (str ".json") in
  let docxPath :=
    temp_file (str "bootcamp_") (clock env (ticks w)) (str ".docx") in
  express_convert env req w = (Ok resp, w') -> status resp = 200 ->
  (exists pre, trace w' = pre ++ [EUnlink jsonPath; EUnlink docxPath])
  /\ (files w' !! jsonPath = None \/ is_Some (io_error env (EUnlink jsonPath)))
  /\ (files w' !! docxPath = None \/ is_Some (io_error env (EUnlink docxPath))).
Proof.
  intros p q. subst p q. unfold express_convert, express_convert_body.
  step. cases; leaf; intros _; simpl.
  all: (split; [eexists; rewrite <- app_assoc; reflexivity|]).
  all: pose proof (json_docx_ne (clock env (ticks w)));
    pose proof (docx_json_ne (clock env (ticks w)));
    simplify_map_eq.
  all: try (split; first [left; congruence | right; eexists; reflexivity]).
Qed.

(** C4, as the specification states it, fails on a request that fails: when
    the converter fails, the JSON file written for the request is still
    there when the 500 answer is sent, and when the generator leaves a text
    that does not parse, so is its output file; no [unlink] was tried. *)
Lemma failure_leaves_temp_files :
  let convert :=
    express_convert
      (Scenario.environment (Scenario.fails (str "Command failed"))
         Scenario.no_io_error)
      (Scenario.post Scenario.document) Scenario.start in
  let generate :=
    next_handler
      (Scenario.environment (Scenario.writes (str "oops")) Scenario.no_io_error)
      (Scenario.post Scenario.web_dev) Scenario.start in
  let temp_json := temp_file (str "bootcamp_") 1700000000000 (str ".json") in
  (convert.1 = Ok (json 500 (failure (str "Command failed")))
   /\ is_Some (files convert.2 !! temp_json)
   /\ forallb Scenario.not_unlink (trace convert.2) = true)
  /\ (generate.1 = Ok (json 500 (failure (str "engine error")))
      /\ files generate.2 !! temp_json = Some (str "oops")
      /\ forallb Scenario.not_unlink (trace generate.2) = true).
Proof.
  repeat split; try (vm_compute; reflexivity).
  vm_compute. eexists. reflexivity.
Qed.

(** C4, amended.  On every request that is answered 200, by the route or by
    the server, the last calls into the file system before the answer are
    the [unlink] of the temporary files of the request (the output file of
    the generator; the JSON file and the DOCX file of the converter), and
    each of these files is gone unless its [unlink] failed: a failing
    [unlink] does not change the answer. *)
Theorem cleanup_on_success (env : Env) (req : Request) (w w' : World)
  (resp : Response) :
  let jsonPath :=
    temp_file (str "bootcamp_") (clock env (ticks w)) (str ".json") in
  let docxPath :=
    temp_file (str "bootcamp_") (clock env (ticks w)) (str ".docx") in
  status resp = 200 ->
  (next_handler env req w = (Ok resp, w')
   \/ express_generate env req w = (Ok resp, w') ->
   (exists pre, trace w' = pre ++ [EUnlink jsonPath])
   /\ (files w' !! jsonPath = None \/ is_Some (io_error env (EUnlink jsonPath))))
  /\ (express_convert env req w = (Ok resp, w') ->
      (exists pre, trace w' = pre ++ [EUnlink jsonPath; EUnlink docxPath])
      /\ (files w' !! jsonPath = None
          \/ is_Some (io_error env (EUnlink jsonPath)))
      /\ (files w' !! docxPath = None
          \/ is_Some (io_error env (EUnlink docxPath)))).
Proof.
  intros jsonPath docxPath Hs. split.
  - intros [H | H].
    + exact (next_cleanup env req w w' resp H Hs).
    + exact (express_cleanup env req w w' resp H Hs).
  - intros H. exact (convert_cleanup env req w w' resp H Hs).
Qed.

Lemma cleanup_on_success_witness :
  let env := Scenario.environment (Scenario.writes (str "PK"))
               Scenario.no_io_error in
  let out := express_convert env (Scenario.post Scenario.document)
               Scenario.start in
  files out.2 !! temp_file (str "bootcamp_") 1700000000000 (str ".json") = None
  /\ files out.2 !! temp_file (str "bootcamp_") 1700000000000 (str ".docx")
     = None.
Proof.
  intros env out.
  destruct (cleanup_on_success env (Scenario.post Scenario.document)
              Scenario.start out.2
              {| status := 200; headers := docx_headers;
                 sent := Buffer (str "PK") |}) as [_ H].
  - reflexivity.
  - destruct (H ltac:(vm_compute; reflexivity)) as (_ & [H1 | [x H1]] & [H2 | [y H2]]).
    + split; [exact H1 | exact H2].
    + discriminate H2.
    + discriminate H1.
    + discriminate H1.
Defined.

End ApiProps.

(** ** Numbers: what [Number::toString] writes is read back *)

Module NumberProps.
Import Number JSON.

(** *** Decimal digits *)

Lemma digits_value_acc (acc : Z) (ds : jsstring) :
  foldl (fun a c => 10 * a + Z.of_N (c - 48)) acc ds
  = acc * 10 ^ Z.of_nat (length ds) + digits_value ds.
Proof.
  unfold digits_value. revert acc. induction ds as [|c ds IH]; intros acc.
  - simpl. lia.
  - cbn [foldl length]. rewrite IH, (IH (10 * 0 + Z.of_N (c - 48))).
    rewrite Nat2Z.inj_succ, Z.pow_succ_r by lia. lia.
Qed.

Lemma digits_value_app (a b : jsstring) :
  digits_value (a ++ b)
  = digits_value a * 10 ^ Z.of_nat (length b) + digits_value b.
Proof.
  unfold digits_value at 1. rewrite foldl_app.
  fold (digits_value a). apply digits_value_acc.
Qed.

Lemma digits_value_cons (c : N) (ds : jsstring) :
  digits_value (c :: ds)
  = Z.of_N (c - 48) * 10 ^ Z.of_nat (length ds) + digits_value ds.
Proof. exact (digits_value_app [c] ds). Qed.

Lemma digit_value (d : Z) :
  0 <= d < 10 -> Z.of_N (digit d - 48) = d /\ is_digit (digit d) = true.
Proof.
  intros H. unfold digit, is_digit. split.
  - lia.
  - apply andb_true_intro. split; apply N.leb_le; lia.
Qed.

Lemma digit_zero (d : Z) : 0 <= d < 10 -> digit d = 48%N -> d = 0.
Proof. unfold digit. lia. Qed.

(** What [digits_go] gives with enough fuel. *)
Lemma digits_go_spec (fuel : nat) (z : Z) (acc : jsstring) :
  0 <= z < 2 ^ Z.of_nat fuel -> (1 <= fuel)%nat ->
  exists ds,
    digits_go fuel z acc = ds ++ acc
    /\ forallb is_digit ds = true
    /\ digits_value ds = z
    /\ (z = 0 -> ds = [48%N])
    /\ (0 < z -> 10 ^ (Z.of_nat (length ds) - 1) <= z < 10 ^ Z.of_nat (length ds)
                 /\ head ds <> Some 48%N).
Proof.
  revert z acc. induction fuel as [|f IH]; intros z acc Hz Hf; [lia|].
  cbn [digits_go]. destruct (z <? 10) eqn:E.
  - apply Z.ltb_lt in E. exists [digit z].
    destruct (digit_value z ltac:(lia)) as [Hv Hd].
    split; [reflexivity|]. split; [simpl; rewrite Hd; reflexivity|].
    split; [rewrite digits_value_cons, Hv; change (digits_value []) with 0;
            change (Z.of_nat (length (@nil N))) with 0; lia|].
    split; [intros ->; reflexivity|].
    intros Hp. simpl. split; [lia|].
    intros H. injection H as H. apply digit_zero in H; lia.
  - apply Z.ltb_ge in E.
    assert (Hq : 0 <= z / 10 < 2 ^ Z.of_nat f).
    { split; [apply Z.div_pos; lia|].
      rewrite Nat2Z.inj_succ, Z.pow_succ_r in Hz by lia.
      apply Z.div_lt_upper_bound; lia. }
    assert (Hf' : (1 <= f)%nat).
    { destruct f; [|lia]. simpl in Hq. assert (1 <= z / 10); [|lia].
      apply Z.div_le_lower_bound; lia. }
    destruct (IH (z / 10) (digit (z mod 10) :: acc) Hq Hf')
      as (ds & E1 & E2 & E3 & _ & E5).
    pose proof (Z.mod_pos_bound z 10 ltac:(lia)) as Hm.
    destruct (digit_value (z mod 10) Hm) as [Hv Hd].
    assert (Hq1 : 0 < z / 10) by (apply Z.div_str_pos; lia).
    destruct (E5 Hq1) as [[B1 B2] B3].
    pose proof (Z.div_mod z 10 ltac:(lia)) as Hdm.
    exists (ds ++ [digit (z mod 10)]).
    split; [rewrite E1, <- app_assoc; reflexivity|].
    split; [rewrite forallb_app, E2; simpl; rewrite Hd; reflexivity|].
    split; [rewrite digits_value_app, E3, digits_value_cons, Hv;
            change (digits_value []) with 0;
            change (Z.of_nat (length (@nil N))) with 0;
            change (Z.of_nat (length [digit (z mod 10)])) with 1; lia|].
    split; [lia|]. intros _.
    rewrite length_app, Nat2Z.inj_add. simpl length.
    assert (Hl : 1 <= Z.of_nat (length ds)).
    { destruct ds; [|simpl; lia]. simpl in B2. lia. }
    replace (Z.of_nat (length ds) + Z.of_nat 1 - 1)
      with (Z.succ (Z.of_nat (length ds) - 1)) by lia.
    replace (Z.of_nat (length ds) + Z.of_nat 1)
      with (Z.succ (Z.of_nat (length ds))) by lia.
    rewrite !Z.pow_succ_r by lia.
    split; [lia|].
    destruct ds as [|c ds]; [simpl in Hl; lia|]. exact B3.
Qed.

Lemma digits_spec (z : Z) :
  0 <= z ->
  forallb is_digit (digits z) = true
  /\ digits_value (digits z) = z
  /\ (z = 0 -> digits z = [48%N])
  /\ (0 < z -> 10 ^ (ndigits z - 1) <= z < 10 ^ ndigits z
               /\ head (digits z) <> Some 48%N).
Proof.
  intros Hz. unfold ndigits, digits.
  destruct (digits_go_spec (S (Z.to_nat (Z.log2 z))) z []) as (ds & E & H).
  - rewrite Nat2Z.inj_succ, Z2Nat.id by apply Z.log2_nonneg.
    split; [lia|].
    destruct (Z.eq_dec z 0) as [-> | Hn]; [reflexivity|].
    apply Z.log2_spec. lia.
  - lia.
  - rewrite E, app_nil_r. exact H.
Qed.

(** *** The text of the digits is a number of the JSON grammar *)

Lemma span_digits_all (ds r : jsstring) :
  forallb is_digit ds = true -> no_digit_head r ->
  span_digits (ds ++ r) = (ds, r).
Proof.
  intros Hd Hr. induction ds as [|c ds IH].
  - destruct r as [|c r]; [reflexivity|]. simpl in *. rewrite Hr. reflexivity.
  - simpl in *. apply andb_true_iff in Hd as [-> Hd]. rewrite (IH Hd).
    reflexivity.
Qed.

Lemma after_same (c : N) (s : jsstring) : after c (c :: s) = Some s.
Proof. simpl. rewrite N.eqb_refl. reflexivity. Qed.

Lemma after_other (c d : N) (s : jsstring) :
  d <> c -> after c (d :: s) = None.
Proof. intros H. simpl. rewrite (proj2 (N.eqb_neq d c) H). reflexivity. Qed.

Lemma is_digit_range (c : N) : is_digit c = true -> (48 <= c <= 57)%N.
Proof.
  unfold is_digit. rewrite andb_true_iff, !N.leb_le. tauto.
Qed.

(** An integer part: digits that do not start with [0]. *)
Lemma parse_int_digits (ds r : jsstring) :
  forallb is_digit ds = true -> ds <> [] -> head ds <> Some 48%N ->
  no_digit_head r ->
  parse_int (ds ++ r) = Some (ds, r).
Proof.
  intros Hd Hn Hh Hr. unfold parse_int.
  destruct ds as [|c ds]; [congruence|].
  rewrite <- app_comm_cons, after_other by (simpl in Hh; congruence).
  rewrite app_comm_cons, (span_digits_all _ _ Hd Hr). reflexivity.
Qed.

Lemma parse_int_zero (r : jsstring) : parse_int (48%N :: r) = Some ([48%N], r).
Proof. reflexivity. Qed.

Lemma parse_frac_digits (fp r : jsstring) :
  forallb is_digit fp = true -> fp <> [] -> no_digit_head r ->
  parse_frac (46%N :: fp ++ r) = Some (fp, r).
Proof.
  intros Hd Hn Hr. unfold parse_frac. rewrite after_same.
  rewrite (span_digits_all _ _ Hd Hr). destruct fp; [congruence|reflexivity].
Qed.

Lemma parse_frac_none (r : jsstring) :
  head r <> Some 46%N -> parse_frac r = Some ([], r).
Proof.
  intros H. unfold parse_frac. destruct r as [|c r]; [reflexivity|].
  rewrite after_other by (simpl in H; congruence). reflexivity.
Qed.

Lemma parse_exp_text (x : Z) : parse_exp (exponent_text x) = Some (x, []).
Proof.
  unfold exponent_text, parse_exp.
  destruct (digits_spec (Z.abs x) (Z.abs_nonneg x)) as (Hd & Hv & Hz & Hp).
  assert (Hne : digits (Z.abs x) <> []).
  { intros E. destruct (Z.eq_dec (Z.abs x) 0) as [H0 | H0].
    - rewrite (Hz H0) in E. discriminate E.
    - destruct (Hp ltac:(lia)) as [[B1 B2] _].
      unfold ndigits in *. rewrite E in *. simpl in *. lia. }
  pose proof (span_digits_all (digits (Z.abs x)) [] Hd I) as Hs.
  rewrite app_nil_r in Hs.
  destruct (0 <=? x) eqn:E.
  - apply Z.leb_le in E.
    change (str "e" ++ str "+" ++ digits (Z.abs x))
      with (101%N :: 43%N :: digits (Z.abs x)).
    cbn [N.eqb Pos.eqb orb]. rewrite after_same, Hs, Hv.
    destruct (digits (Z.abs x)); [congruence|]. f_equal. f_equal. lia.
  - apply Z.leb_gt in E.
    change (str "e" ++ str "-" ++ digits (Z.abs x))
      with (101%N :: 45%N :: digits (Z.abs x)).
    cbn [N.eqb Pos.eqb orb]. rewrite after_other, after_same, Hs, Hv by discriminate.
    destruct (digits (Z.abs x)); [congruence|]. f_equal. f_equal. lia.
Qed.


Lemma parse_number_parts (ip F E fp : jsstring) (x : Z) :
  after 45 (ip ++ F ++ E) = None ->
  parse_int (ip ++ F ++ E) = Some (ip, F ++ E) ->
  parse_frac (F ++ E) = Some (fp, E) ->
  parse_exp E = Some (x, []) ->
  parse_number (ip ++ F ++ E)
  = Some (of_decimal (digits_value (ip ++ fp)) (x - Z.of_nat (length fp)), []).
Proof.
  intros H1 H2 H3 H4. unfold parse_number. rewrite H1, H2, H3, H4.
  reflexivity.
Qed.

Lemma pow10_unique (s a b : Z) :
  1 <= a -> 1 <= b ->
  10 ^ (a - 1) <= s < 10 ^ a -> 10 ^ (b - 1) <= s < 10 ^ b -> a = b.
Proof.
  intros Ha Hb H1 H2.
  destruct (Z.lt_trichotomy a b) as [H | [H | H]]; [|exact H|].
  - assert (10 ^ a <= 10 ^ (b - 1)) by (apply Z.pow_le_mono_r; lia). lia.
  - assert (10 ^ b <= 10 ^ (a - 1)) by (apply Z.pow_le_mono_r; lia). lia.
Qed.

(** The digits of a number with [k] digits. *)
Lemma digits_of (s k : Z) :
  1 <= k -> 10 ^ (k - 1) <= s < 10 ^ k ->
  forallb is_digit (digits s) = true
  /\ digits_value (digits s) = s
  /\ Z.of_nat (length (digits s)) = k
  /\ exists c ds, digits s = c :: ds /\ c <> 48%N /\ c <> 45%N
                  /\ is_digit c = true.
Proof.
  intros Hk Hs.
  assert (Hpos : 0 < s).
  { assert (0 < 10 ^ (k - 1)) by (apply Z.pow_pos_nonneg; lia). lia. }
  destruct (digits_spec s ltac:(lia)) as (Hd & Hv & _ & Hp).
  destruct (Hp Hpos) as [Hb Hh].
  assert (Hn : 1 <= ndigits s).
  { unfold ndigits in *. destruct (digits s); [|simpl; lia].
    simpl in Hb. lia. }
  split; [exact Hd|]. split; [exact Hv|].
  split; [exact (pow10_unique s _ _ Hn Hk Hb Hs)|].
  unfold ndigits in Hn. destruct (digits s) as [|c ds]; [simpl in Hn; lia|].
  exists c, ds. split; [reflexivity|].
  simpl in Hd. apply andb_true_iff in Hd as [Hc _].
  split; [simpl in Hh; congruence|].
  split; [|exact Hc]. apply is_digit_range in Hc. lia.
Qed.

Lemma zeros_spec (n : Z) :
  0 <= n ->
  forallb is_digit (zeros n) = true /\ digits_value (zeros n) = 0
  /\ Z.of_nat (length (zeros n)) = n.
Proof.
  intros Hn. unfold zeros. rewrite length_replicate, Z2Nat.id by lia.
  split; [|split; [|reflexivity]].
  - induction (Z.to_nat n) as [|j IH]; [reflexivity|]. simpl. exact IH.
  - induction (Z.to_nat n) as [|j IH]; [reflexivity|].
    cbn [replicate]. rewrite digits_value_cons, IH. simpl. lia.
Qed.

Lemma of_decimal_shift (s j : Z) :
  0 <= j -> of_decimal (s * 10 ^ j) 0 = of_decimal s j.
Proof.
  intros Hj. unfold of_decimal.
  rewrite (proj2 (Z.leb_le 0 j) Hj). simpl (0 <=? 0).
  rewrite Z.pow_0_r, Z.mul_1_r. reflexivity.
Qed.


Lemma forallb_take_drop (ds : jsstring) (j : nat) :
  forallb is_digit ds = true ->
  forallb is_digit (take j ds) = true /\ forallb is_digit (drop j ds) = true.
Proof.
  intros H. rewrite <- (take_drop j ds), forallb_app in H.
  apply andb_true_iff in H. exact H.
Qed.

(** The text that [format] writes for [k] digits [s] is a number of the
    JSON grammar, with the value [s * 10^(n-k)]. *)
Lemma parse_format (s n k : Z) :
  1 <= k -> 10 ^ (k - 1) <= s < 10 ^ k ->
  parse_number (format s n k) = Some (of_decimal s (n - k), []).
Proof.
  intros Hk Hs.
  destruct (digits_of s k Hk Hs) as (Hd & Hv & Hl & c & ds & E & C1 & C2 & C3).
  unfold format.
  destruct ((k <=? n) && (n <=? 21)) eqn:B1.
  { (* the digits, then zeros *)
    apply andb_true_iff in B1 as [B1 _]. apply Z.leb_le in B1.
    destruct (zeros_spec (n - k) ltac:(lia)) as (Zd & Zv & Zl).
    pose proof (parse_number_parts (digits s ++ zeros (n - k)) [] [] [] 0) as P.
    rewrite !app_nil_r in P. rewrite P.
    - rewrite digits_value_app, Hv, Zv, Zl, Z.add_0_r.
      simpl length. rewrite Z.sub_0_r. f_equal. f_equal.
      apply of_decimal_shift. lia.
    - rewrite E, <- app_comm_cons. apply after_other. exact C2.
    - rewrite <- (app_nil_r (digits s ++ zeros (n - k))) at 1.
      apply parse_int_digits.
      + rewrite forallb_app, Hd, Zd. reflexivity.
      + rewrite E. discriminate.
      + rewrite E. simpl. congruence.
      + exact I.
    - reflexivity.
    - reflexivity. }
  destruct ((0 <? n) && (n <=? 21)) eqn:B2.
  { (* a point inside the digits *)
    apply andb_true_iff in B2 as [B2 B2']. apply Z.ltb_lt in B2.
    apply Z.leb_le in B2'.
    assert (Hnk : n < k).
    { apply andb_false_iff in B1 as [B1 | B1];
        [apply Z.leb_gt in B1; lia | apply Z.leb_gt in B1; lia]. }
    destruct (forallb_take_drop (digits s) (Z.to_nat n) Hd) as [Ht Hr].
    assert (Lt : length (take (Z.to_nat n) (digits s)) = Z.to_nat n)
      by (rewrite length_take; lia).
    assert (Lr : Z.of_nat (length (drop (Z.to_nat n) (digits s))) = k - n)
      by (rewrite length_drop; lia).
    pose proof (parse_number_parts (take (Z.to_nat n) (digits s))
                  (46%N :: drop (Z.to_nat n) (digits s)) []
                  (drop (Z.to_nat n) (digits s)) 0) as P.
    rewrite !app_nil_r in P.
    change (str ".") with [46%N].
    change ([46%N] ++ drop (Z.to_nat n) (digits s))
      with (46%N :: drop (Z.to_nat n) (digits s)).
    rewrite P.
    - rewrite take_drop, Hv, Lr. f_equal. f_equal. f_equal. lia.
    - rewrite E. replace (Z.to_nat n) with (S (Z.to_nat (n - 1))) by lia.
      simpl. rewrite (proj2 (N.eqb_neq c 45) C2). reflexivity.
    - apply parse_int_digits.
      + exact Ht.
      + intros H. rewrite H in Lt. simpl in Lt. lia.
      + rewrite E. replace (Z.to_nat n) with (S (Z.to_nat (n - 1))) by lia.
        simpl. congruence.
      + reflexivity.
    - rewrite <- (app_nil_r (drop (Z.to_nat n) (digits s))) at 1.
      apply parse_frac_digits.
      + exact Hr.
      + intros H. rewrite H in Lr. simpl in Lr. lia.
      + exact I.
    - reflexivity. }
  destruct ((-6 <? n) && (n <=? 0)) eqn:B3.
  { (* zeros after the point, then the digits *)
    apply andb_true_iff in B3 as [_ B3]. apply Z.leb_le in B3.
    destruct (zeros_spec (- n) ltac:(lia)) as (Zd & Zv & Zl).
    pose proof (parse_number_parts [48%N]
                  (46%N :: zeros (- n) ++ digits s) []
                  (zeros (- n) ++ digits s) 0) as P.
    rewrite !app_nil_r in P.
    change (str "0." ++ zeros (- n) ++ digits s)
      with ([48%N] ++ 46%N :: zeros (- n) ++ digits s).
    rewrite P.
    - rewrite digits_value_app, digits_value_app, Hv, Zv, length_app,
        Nat2Z.inj_add, Zl, Hl.
      change (digits_value [48%N]) with 0.
      f_equal. f_equal. f_equal; lia.
    - reflexivity.
    - reflexivity.
    - rewrite <- (app_nil_r (zeros (- n) ++ digits s)) at 1.
      apply parse_frac_digits.
      + rewrite forallb_app, Hd, Zd. reflexivity.
      + rewrite E. destruct (zeros (- n)); discriminate.
      + exact I.
    - reflexivity. }
  (* the exponent notation *)
  pose proof (parse_exp_text (n - 1)) as He.
  destruct (k =? 1) eqn:B4.
  - apply Z.eqb_eq in B4. subst k.
    pose proof (parse_number_parts (digits s) [] (exponent_text (n - 1)) []
                  (n - 1)) as P.
    change ([] ++ exponent_text (n - 1)) with (exponent_text (n - 1)) in P.
    rewrite P.
    + rewrite app_nil_r, Hv. simpl length. f_equal. f_equal. f_equal. lia.
    + rewrite E, <- app_comm_cons. apply after_other. exact C2.
    + apply parse_int_digits.
      * exact Hd.
      * rewrite E. discriminate.
      * rewrite E. simpl. congruence.
      * reflexivity.
    + apply parse_frac_none. unfold exponent_text. simpl. discriminate.
    + exact He.
  - apply Z.eqb_neq in B4.
    destruct (forallb_take_drop (digits s) 1 Hd) as [Ht Hr].
    assert (Lr : Z.of_nat (length (drop 1 (digits s))) = k - 1)
      by (rewrite length_drop; lia).
    pose proof (parse_number_parts (take 1 (digits s))
                  (46%N :: drop 1 (digits s)) (exponent_text (n - 1))
                  (drop 1 (digits s)) (n - 1)) as P.
    change (str ".") with [46%N].
    change (take 1 (digits s) ++ [46%N] ++ drop 1 (digits s)
            ++ exponent_text (n - 1))
      with (take 1 (digits s) ++ (46%N :: drop 1 (digits s))
            ++ exponent_text (n - 1)).
    rewrite P.
    + rewrite take_drop, Hv, Lr. f_equal. f_equal. f_equal. lia.
    + rewrite E. simpl. rewrite (proj2 (N.eqb_neq c 45) C2). reflexivity.
    + apply parse_int_digits.
      * exact Ht.
      * rewrite E. discriminate.
      * rewrite E. simpl. congruence.
      * reflexivity.
    + rewrite <- app_comm_cons. apply parse_frac_digits.
      * exact Hr.
      * intros H. rewrite H in Lr. simpl in Lr. lia.
      * reflexivity.
    + exact He.
Qed.

(** *** Rounding *)

Lemma pow2_pos (x : Z) : 0 <= x -> 0 < 2 ^ x.
Proof. intros. apply Z.pow_pos_nonneg; lia. Qed.

Lemma pow2_split (x y : Z) : 0 <= x -> 0 <= y -> 2 ^ (x + y) = 2 ^ x * 2 ^ y.
Proof. intros. apply Z.pow_add_r; assumption. Qed.

Lemma pow2_lt (x y : Z) : 0 <= x -> 0 <= y -> 2 ^ x < 2 ^ y -> x < y.
Proof. intros Hx Hy H. apply (Z.pow_lt_mono_r_iff 2); lia. Qed.

Lemma pow2_le (x y : Z) : 0 <= x <= y -> 2 ^ x <= 2 ^ y.
Proof. intros. apply Z.pow_le_mono_r; lia. Qed.

(** [ge_pow] with both sides scaled by [b^A], which leaves no negative
    exponent. *)
Lemma ge_pow_spec (b p q j A : Z) :
  0 < b -> 0 <= A -> 0 <= j + A ->
  ge_pow b p q j = true <-> q * b ^ (j + A) <= p * b ^ A.
Proof.
  intros Hb HA HjA. unfold ge_pow.
  assert (PA : 0 < b ^ A) by (apply Z.pow_pos_nonneg; lia).
  destruct (0 <=? j) eqn:Hj.
  - apply Z.leb_le in Hj. rewrite Z.leb_le, Z.pow_add_r by lia.
    rewrite Z.mul_assoc. apply Z.mul_le_mono_pos_r. exact PA.
  - apply Z.leb_gt in Hj. rewrite Z.leb_le.
    assert (PJ : 0 < b ^ (j + A)) by (apply Z.pow_pos_nonneg; lia).
    replace (b ^ A) with (b ^ (- j) * b ^ (j + A))
      by (rewrite <- Z.pow_add_r by lia; f_equal; lia).
    rewrite Z.mul_assoc. apply Z.mul_le_mono_pos_r. exact PJ.
Qed.

(** The exponent that [round_pos] starts from is the floor of the binary
    logarithm of [p / q]. *)
Lemma floor_log2 (p q A : Z) :
  0 < p -> 0 < q ->
  let l := Z.log2 p - Z.log2 q in
  let fl := if ge_pow 2 p q l then l else l - 1 in
  0 <= A -> 0 <= fl + A ->
  q * 2 ^ (fl + A) <= p * 2 ^ A < q * 2 ^ (fl + 1 + A).
Proof.
  intros Hp Hq l fl HA HfA.
  destruct (Z.log2_spec p Hp) as [P1 P2].
  destruct (Z.log2_spec q Hq) as [Q1 Q2].
  pose proof (Z.log2_nonneg p) as Lp. pose proof (Z.log2_nonneg q) as Lq.
  pose proof (pow2_pos A HA) as PA.
  subst fl. destruct (ge_pow 2 p q l) eqn:G.
  - split.
    + apply (ge_pow_spec 2 p q l A); [lia | lia | lia | exact G].
    + assert (E : 2 ^ Z.log2 q * 2 ^ (l + 1 + A) = 2 ^ Z.succ (Z.log2 p) * 2 ^ A).
      { rewrite <- !pow2_split by lia. f_equal. lia. }
      pose proof (pow2_pos (l + 1 + A) ltac:(lia)) as PX.
      nia.
  - assert (G' : ~ q * 2 ^ (l + A) <= p * 2 ^ A).
    { intros H. apply (ge_pow_spec 2 p q l A) in H; [congruence | lia | lia | lia]. }
    split.
    + assert (E : 2 ^ Z.succ (Z.log2 q) * 2 ^ (l - 1 + A) = 2 ^ Z.log2 p * 2 ^ A).
      { rewrite <- !pow2_split by lia. f_equal. lia. }
      pose proof (pow2_pos (l - 1 + A) ltac:(lia)) as PX.
      nia.
    + replace (l - 1 + 1 + A) with (l + A) by lia. lia.
Qed.


Lemma odd_part_spec (p q : positive) (t : Z) :
  odd_part p = (q, t) ->
  Zpos p = Zpos q * 2 ^ t /\ 0 <= t /\ Z.odd (Zpos q) = true.
Proof.
  revert q t. induction p as [p IH | p IH |]; intros q t E; simpl in E.
  - inversion E; subst. change (2 ^ 0) with 1. rewrite Z.mul_1_r.
    split; [reflexivity | split; [lia | reflexivity]].
  - destruct (odd_part p) as [q' t'] eqn:E'. inversion E; subst.
    destruct (IH q t' eq_refl) as (V & T & O).
    split; [| split; [lia | exact O]].
    rewrite Z.pow_add_r, Z.mul_assoc, <- V by lia. lia.
  - inversion E; subst. split; [reflexivity | split; [lia | reflexivity]].
Qed.

Lemma normalize_double (m e : Z) : normalize (2 * m) e = normalize m (e + 1).
Proof.
  destruct m as [| p | p]; [reflexivity | |];
    change (2 * Z.pos p) with (Z.pos p~0); change (2 * Z.neg p) with (Z.neg p~0);
    unfold normalize; simpl odd_part;
    destruct (odd_part p) as [q t]; f_equal; lia.
Qed.

Lemma normalize_shift (m e t : Z) :
  0 <= t -> normalize (m * 2 ^ t) e = normalize m (e + t).
Proof.
  intros Ht. revert e. pattern t. apply natlike_ind; [| | exact Ht].
  - intros e. rewrite Z.mul_1_r, Z.add_0_r. reflexivity.
  - intros x Hx IH e. rewrite Z.pow_succ_r by exact Hx.
    replace (m * (2 * 2 ^ x)) with (2 * (m * 2 ^ x)) by lia.
    rewrite normalize_double, IH. f_equal. lia.
Qed.

Lemma normalize_odd (m e : Z) : Z.odd m = true -> normalize m e = Finite m e.
Proof.
  destruct m as [| p | p]; simpl; [discriminate | |];
    destruct p; simpl; try discriminate; intros _; f_equal; lia.
Qed.

(** What [round_pos] returns is in the range of the binary64 format. *)
Lemma round_pos_bounds (p q M e : Z) :
  0 < p -> 0 < q -> round_pos p q = Some (M, e) ->
  0 <= M <= 2 ^ 53 /\ -1074 <= e <= 971 /\ (e = 971 -> M < 2 ^ 53).
Proof.
  intros Hp Hq. unfold round_pos.
  pose proof (floor_log2 p q) as F. cbv zeta in F.
  set (fl := if ge_pow 2 p q (Z.log2 p - Z.log2 q)
             then Z.log2 p - Z.log2 q else Z.log2 p - Z.log2 q - 1) in *.
  set (e0 := Z.max (fl - 52) (-1074)).
  assert (B : exists n d, 0 <= n /\ 0 < d /\ n < d * 2 ^ 53
              /\ (if 0 <=? e0 then (p, q * 2 ^ e0) else (p * 2 ^ (- e0), q))
                 = (n, d)).
  { destruct (0 <=? e0) eqn:He0.
    - apply Z.leb_le in He0. exists p, (q * 2 ^ e0).
      pose proof (pow2_pos e0 He0).
      destruct (F 0 Hp Hq ltac:(lia) ltac:(lia)) as [_ F2].
      replace (fl + 1 + 0) with (e0 + 53) in F2 by lia.
      rewrite pow2_split in F2 by lia.
      repeat split; nia.
    - apply Z.leb_gt in He0. exists (p * 2 ^ (- e0)), q.
      pose proof (pow2_pos (- e0) ltac:(lia)).
      destruct (F (Z.abs fl + 1074) Hp Hq ltac:(lia) ltac:(lia)) as [_ F2].
      set (A := Z.abs fl + 1074) in *.
      assert (L : 2 ^ (fl + 1 + A) <= 2 ^ 53 * 2 ^ (e0 + A)).
      { rewrite <- pow2_split by lia. apply pow2_le. lia. }
      assert (S : 2 ^ A = 2 ^ (- e0) * 2 ^ (e0 + A)).
      { rewrite <- pow2_split by lia. f_equal. lia. }
      pose proof (pow2_pos (e0 + A) ltac:(lia)).
      rewrite S in F2.
      repeat split; nia. }
  destruct B as (n & d & Hn & Hd & Hnd & ->).
  assert (M0 : 0 <= n / d < 2 ^ 53).
  { split; [apply Z.div_pos; lia | apply Z.div_lt_upper_bound; lia]. }
  set (M' := if 2 * (n mod d) <? d then n / d
             else if d <? 2 * (n mod d) then n / d + 1
             else if Z.even (n / d) then n / d else n / d + 1).
  assert (HM : 0 <= M' <= 2 ^ 53).
  { subst M'. repeat match goal with |- context [if ?b then _ else _] =>
      destruct b end; lia. }
  destruct (971 <? e0) eqn:O1; [discriminate |].
  apply Z.ltb_ge in O1.
  destruct (e0 =? 971) eqn:O2; simpl.
  - destruct (2 ^ 53 <=? M') eqn:O3; [discriminate |].
    apply Z.leb_gt in O3. intros E. inversion E; subst. lia.
  - apply Z.eqb_neq in O2. intros E. inversion E; subst. lia.
Qed.

Lemma is_double_normalize (M e : Z) :
  0 <= M <= 2 ^ 53 -> -1074 <= e <= 971 -> (e = 971 -> M < 2 ^ 53) ->
  is_double (normalize M e) = true /\ is_double (normalize (- M) e) = true.
Proof.
  intros HM He Ht.
  destruct M as [| p | p]; [split; reflexivity | | lia].
  simpl. destruct (odd_part p) as [q t] eqn:E.
  destruct (odd_part_spec p q t E) as (V & T & O).
  assert (Hq : Z.pos q < 2 ^ 53).
  { assert (Z.pos q <= 2 ^ 53) by (pose proof (pow2_pos t T); nia).
    assert (Z.pos q <> 2 ^ 53) by (intros C; rewrite C in O; discriminate).
    lia. }
  assert (L : Z.log2 (Z.pos q) + (e + t) < 1024).
  { replace (Z.log2 (Z.pos q) + (e + t)) with (Z.log2 (Z.pos p) + e).
    - destruct (Z.eq_dec (Z.pos p) (2 ^ 53)) as [C | C].
      + rewrite C, Z.log2_pow2 by lia. lia.
      + assert (Z.log2 (Z.pos p) < 53)
          by (apply Z.log2_lt_pow2; lia). lia.
    - rewrite V, Z.log2_mul_pow2 by lia. lia. }
  unfold is_double.
  change (Z.odd (Z.neg q)) with (Z.odd (Z.pos q)).
  change (Z.abs (Z.neg q)) with (Z.pos q). change (Z.abs (Z.pos q)) with (Z.pos q).
  rewrite O.
  rewrite (proj2 (Z.ltb_lt _ _) Hq), (proj2 (Z.leb_le (-1074) (e + t))) by lia.
  rewrite (proj2 (Z.ltb_lt _ _) L). split; reflexivity.
Qed.

(** Every Number value that [of_ratio] gives is a binary64. *)
Lemma of_ratio_double (p q : Z) : 0 < q -> is_double (of_ratio p q) = true.
Proof.
  intros Hq. unfold of_ratio. destruct p as [| p | p]; [reflexivity | |].
  - destruct (round_pos (Z.pos p) q) as [[M e] |] eqn:R; [| reflexivity].
    destruct (round_pos_bounds (Z.pos p) q M e ltac:(lia) Hq R) as (B1 & B2 & B3).
    apply is_double_normalize; assumption.
  - destruct (round_pos (- Z.neg p) q) as [[M e] |] eqn:R; [| reflexivity].
    destruct (round_pos_bounds (- Z.neg p) q M e ltac:(lia) Hq R)
      as (B1 & B2 & B3).
    apply is_double_normalize; assumption.
Qed.

Lemma of_decimal_double (d x : Z) : is_double (of_decimal d x) = true.
Proof.
  unfold of_decimal. destruct (0 <=? x) eqn:Hx; apply of_ratio_double; [lia |].
  apply Z.leb_gt in Hx. apply Z.pow_pos_nonneg; lia.
Qed.


(** Rounding a binary64 gives that binary64: [p / q] is [m * 2^e], written
    as [p * 2^a = q * m * 2^b] with [e = b - a]. *)
Lemma round_pos_exact (p q m e a b : Z) :
  0 < q -> 0 < m < 2 ^ 53 -> -1074 <= e -> Z.log2 m + e < 1024 ->
  0 <= a -> 0 <= b -> e = b - a -> p * 2 ^ a = q * m * 2 ^ b ->
  exists t, 0 <= t /\ round_pos p q = Some (m * 2 ^ t, e - t).
Proof.
  intros Hq Hm He Hl Ha Hb Hab V.
  pose proof (pow2_pos a Ha) as Pa. pose proof (pow2_pos b Hb) as Pb.
  assert (Hp : 0 < p) by nia.
  unfold round_pos.
  pose proof (floor_log2 p q) as F. cbv zeta in F.
  set (fl := if ge_pow 2 p q (Z.log2 p - Z.log2 q)
             then Z.log2 p - Z.log2 q else Z.log2 p - Z.log2 q - 1) in *.
  set (e0 := Z.max (fl - 52) (-1074)).
  set (A := Z.abs fl + Z.abs e + a + 1).
  destruct (F A Hp Hq ltac:(lia) ltac:(lia)) as [F1 _].
  assert (VA : p * 2 ^ A = q * (m * 2 ^ (e + A))).
  { replace A with (a + (A - a)) at 1 by lia.
    replace (e + A) with (b + (A - a)) by lia.
    rewrite !pow2_split by lia. nia. }
  rewrite VA in F1.
  assert (F1' : 2 ^ (fl + A) <= m * 2 ^ (e + A)).
  { apply (Z.mul_le_mono_pos_l _ _ q); assumption. }
  pose proof (pow2_pos (e + A) ltac:(lia)) as PeA.
  assert (Hfl : fl - 52 <= e).
  { assert (2 ^ (fl + A) < 2 ^ (53 + (e + A))).
    { rewrite (pow2_split 53) by lia. nia. }
    apply pow2_lt in H; lia. }
  destruct (Z.log2_spec m ltac:(lia)) as [_ Lm].
  pose proof (Z.log2_nonneg m) as Lm0.
  assert (Hfl' : fl <= 1023).
  { assert (2 ^ (fl + A) < 2 ^ (Z.succ (Z.log2 m) + (e + A))).
    { rewrite (pow2_split (Z.succ (Z.log2 m))) by lia. nia. }
    apply pow2_lt in H; lia. }
  exists (e - e0). split; [lia |].
  set (t := e - e0).
  pose proof (pow2_pos t ltac:(lia)) as Pt.
  assert (B : exists d, 0 < d
              /\ (if 0 <=? e0 then (p, q * 2 ^ e0) else (p * 2 ^ (- e0), q))
                 = (m * 2 ^ t * d, d)).
  { destruct (0 <=? e0) eqn:He0.
    - apply Z.leb_le in He0. exists (q * 2 ^ e0).
      pose proof (pow2_pos e0 He0).
      split; [nia |]. f_equal.
      apply (Z.mul_reg_r _ _ (2 ^ a)); [lia |].
      rewrite V. replace b with (t + e0 + a) by lia.
      rewrite !pow2_split by lia. ring.
    - apply Z.leb_gt in He0. exists q. split; [exact Hq |]. f_equal.
      apply (Z.mul_reg_r _ _ (2 ^ a)); [lia |].
      replace (p * 2 ^ (- e0) * 2 ^ a) with (p * 2 ^ a * 2 ^ (- e0)) by ring.
      rewrite V.
      replace (m * 2 ^ t * q * 2 ^ a) with (q * m * (2 ^ t * 2 ^ a)) by ring.
      rewrite <- Z.mul_assoc, <- !pow2_split by lia.
      f_equal. f_equal. lia. }
  destruct B as (d & Hd & ->).
  rewrite Z.div_mul, Z.mod_mul by lia.
  rewrite (proj2 (Z.ltb_lt (2 * 0) d)) by lia.
  rewrite (proj2 (Z.ltb_ge 971 e0)) by lia.
  assert (O : (e0 =? 971) && (2 ^ 53 <=? m * 2 ^ t) = false).
  { destruct (e0 =? 971) eqn:E; [| reflexivity].
    apply Z.eqb_eq in E. simpl. apply Z.leb_gt.
    assert (m * 2 ^ t < 2 ^ (Z.succ (Z.log2 m) + t)).
    { rewrite pow2_split by lia. nia. }
    assert (2 ^ (Z.succ (Z.log2 m) + t) <= 2 ^ 53) by (apply pow2_le; lia).
    lia. }
  rewrite O. simpl. do 2 f_equal. lia.
Qed.

(** The exact decimal expansion of a binary64 reads back as that
    binary64. *)
Lemma of_decimal_exact_digits (m e : Z) :
  0 < m -> is_double (Finite m e) = true ->
  of_decimal (fst (exact_digits m e)) (snd (exact_digits m e)) = Finite m e.
Proof.
  intros Hm D. unfold is_double in D.
  destruct m as [| pm |]; [lia | | lia].
  apply andb_true_iff in D as [D D4]. apply andb_true_iff in D as [D D3].
  apply andb_true_iff in D as [D1 D2].
  change (Z.abs (Z.pos pm)) with (Z.pos pm) in *.
  apply Z.ltb_lt in D2, D4. apply Z.leb_le in D3.
  set (m := Z.pos pm) in *.
  assert (R : forall p q a b, 0 < q -> 0 <= a -> 0 <= b -> e = b - a ->
              p * 2 ^ a = q * m * 2 ^ b -> of_ratio p q = Finite m e).
  { intros p q a b Hq Ha Hb Hab V.
    destruct (round_pos_exact p q m e a b Hq ltac:(lia) D3 D4 Ha Hb Hab V)
      as (t & Ht & Rt).
    pose proof (pow2_pos a Ha). pose proof (pow2_pos b Hb).
    unfold of_ratio. destruct p as [| pp | pp]; [nia | | nia].
    rewrite Rt, normalize_shift by exact Ht.
    replace (e - t + t) with e by lia. apply normalize_odd. exact D1. }
  unfold exact_digits, of_decimal. destruct (0 <=? e) eqn:He; simpl fst; simpl snd.
  - apply Z.leb_le in He. change (0 <=? 0) with true. cbv iota.
    apply (R _ 1 0 e); [lia | lia | lia | lia |].
    change (10 ^ 0) with 1. change (2 ^ 0) with 1. ring.
  - rewrite He. apply Z.leb_gt in He.
    apply (R _ _ (- e) 0); [apply Z.pow_pos_nonneg; lia | lia | lia | lia |].
    change 10 with (5 * 2) at 1. rewrite Z.pow_mul_l.
    change (2 ^ 0) with 1. ring.
Qed.

(** *** The shortest digits *)

Lemma pow10_pos (x : Z) : 0 <= x -> 0 < 10 ^ x.
Proof. intros. apply Z.pow_pos_nonneg; lia. Qed.

Lemma pow10_split (x y : Z) : 0 <= x -> 0 <= y -> 10 ^ (x + y) = 10 ^ x * 10 ^ y.
Proof. intros. apply Z.pow_add_r; assumption. Qed.

Lemma pow10_lt (x y : Z) : 0 <= x -> 0 <= y -> 10 ^ x < 10 ^ y -> x < y.
Proof. intros Hx Hy H. apply (Z.pow_lt_mono_r_iff 10); lia. Qed.

Lemma ndigits_spec (z : Z) :
  0 < z -> 1 <= ndigits z /\ 10 ^ (ndigits z - 1) <= z < 10 ^ ndigits z.
Proof.
  intros Hz. destruct (digits_spec z ltac:(lia)) as (_ & _ & _ & H).
  destruct (H Hz) as [B _]. split; [| exact B].
  unfold ndigits in *. destruct (digits z); [simpl in B; lia | simpl; lia].
Qed.

(** [decimal_exponent p q] is the [n] with [10^(n-1) <= p/q < 10^n]; both
    sides are scaled by [10^A]. *)
Lemma decimal_exponent_spec (p q A : Z) :
  0 < p -> 0 < q -> 0 <= A -> 0 <= decimal_exponent p q - 1 + A ->
  q * 10 ^ (decimal_exponent p q - 1 + A) <= p * 10 ^ A
                                          < q * 10 ^ (decimal_exponent p q + A).
Proof.
  intros Hp Hq HA. unfold decimal_exponent.
  pose proof (pow10_pos A HA) as PA.
  destruct (q <=? p) eqn:C.
  - apply Z.leb_le in C.
    assert (Hd : 0 < p / q) by (apply Z.div_str_pos; lia).
    destruct (ndigits_spec (p / q) Hd) as (J & B1 & B2).
    set (j := ndigits (p / q)) in *. intros HjA.
    pose proof (Z.mul_div_le p q Hq) as D1.
    pose proof (Z.mul_succ_div_gt p q Hq) as D2.
    pose proof (pow10_pos (j - 1) ltac:(lia)) as P1.
    rewrite (pow10_split (j - 1) A) by lia.
    replace (j + A) with (1 + (j - 1) + A) by lia.
    rewrite (pow10_split (1 + (j - 1)) A), (pow10_split 1 (j - 1)) by lia.
    change (10 ^ 1) with 10.
    assert (T : 10 ^ j = 10 * 10 ^ (j - 1)).
    { replace j with (1 + (j - 1)) at 1 by lia. apply pow10_split; lia. }
    rewrite T in B2.
    assert (L : q * 10 ^ (j - 1) <= p) by nia.
    assert (U : p < q * (10 * 10 ^ (j - 1))) by nia.
    nia.
  - apply Z.leb_gt in C.
    assert (Hd : 0 < q / p) by (apply Z.div_str_pos; lia).
    destruct (ndigits_spec (q / p) Hd) as (J & B1 & B2).
    set (j := ndigits (q / p)) in *.
    pose proof (Z.mul_div_le q p Hp) as D1.
    pose proof (Z.mul_succ_div_gt q p Hp) as D2.
    pose proof (pow10_pos (j - 1) ltac:(lia)) as P1.
    assert (T : 10 ^ j = 10 * 10 ^ (j - 1)).
    { replace j with (1 + (j - 1)) at 1 by lia. apply pow10_split; lia. }
    assert (L : p * 10 ^ (j - 1) <= q) by nia.
    assert (U : q < p * 10 ^ j) by (rewrite T in *; nia).
    destruct (ge_pow 10 p q (1 - j)) eqn:G; intros HjA.
    + apply (ge_pow_spec 10 p q (1 - j) (j - 1)) in G; [| lia | lia | lia].
      replace (1 - j + (j - 1)) with 0 in G by lia. rewrite Z.mul_1_r in G.
      assert (E : q = p * 10 ^ (j - 1)) by lia.
      replace A with (j - 1 + (A - (j - 1))) at 2 3 by lia.
      rewrite (pow10_split (j - 1)), Z.mul_assoc, <- E by lia.
      replace (2 - j - 1 + A) with (A - (j - 1)) by lia.
      replace (2 - j + A) with (1 + (A - (j - 1))) by lia.
      rewrite (pow10_split 1) by lia.
      pose proof (pow10_pos (A - (j - 1)) ltac:(lia)). nia.
    + assert (L' : p * 10 ^ (j - 1) < q).
      { destruct (Z_lt_le_dec (p * 10 ^ (j - 1)) q) as [H | H]; [exact H |].
        assert (ge_pow 10 p q (1 - j) = true); [| congruence].
        apply (ge_pow_spec 10 p q (1 - j) (j - 1)); [lia | lia | lia |].
        replace (1 - j + (j - 1)) with 0 by lia. lia. }
      replace (1 - j - 1 + A) with (A - j) in * by lia.
      replace (1 - j + A) with (A - j + 1) by lia.
      replace A with (j + (A - j)) at 2 by lia.
      replace A with (j - 1 + (A - j + 1)) at 3 by lia.
      rewrite (pow10_split j), (pow10_split (j - 1)) by lia.
      pose proof (pow10_pos (A - j) ltac:(lia)).
      pose proof (pow10_pos (A - j + 1) ltac:(lia)).
      nia.
Qed.


Lemma pow10_pow2_pow5 (a : Z) : 10 ^ a = 2 ^ a * 5 ^ a.
Proof. change 10 with (2 * 5). apply Z.pow_mul_l. Qed.

(** The exact decimal expansion has the value of the fraction. *)
Lemma exact_digits_value (m e : Z) :
  0 < m ->
  let p := fst (as_ratio m e) in
  let q := snd (as_ratio m e) in
  let s := fst (exact_digits m e) in
  let x := snd (exact_digits m e) in
  0 < p /\ 0 < q /\ 0 < s /\ (0 <=? x) = (0 <=? e)
  /\ (if 0 <=? e then x = 0 /\ q = 1 /\ p = s
      else x = e /\ p * 10 ^ (- e) = s * q).
Proof.
  intros Hm. unfold as_ratio, exact_digits.
  destruct (0 <=? e) eqn:He; simpl.
  - apply Z.leb_le in He. pose proof (pow2_pos e He).
    repeat split; nia.
  - rewrite He. apply Z.leb_gt in He. pose proof (pow2_pos (- e) ltac:(lia)).
    assert (0 < 5 ^ (- e)) by (apply Z.pow_pos_nonneg; lia).
    repeat split; try nia.
    rewrite pow10_pow2_pow5. ring.
Qed.

Lemma decimal_exponent_exact (m e : Z) :
  0 < m ->
  decimal_exponent (fst (as_ratio m e)) (snd (as_ratio m e))
  = ndigits (fst (exact_digits m e)) + snd (exact_digits m e).
Proof.
  intros Hm.
  destruct (exact_digits_value m e Hm) as (Hp & Hq & Hs & _ & V).
  set (p := fst (as_ratio m e)) in *. set (q := snd (as_ratio m e)) in *.
  set (s := fst (exact_digits m e)) in *.
  set (x := snd (exact_digits m e)) in *.
  destruct (ndigits_spec s Hs) as (K1 & K2 & K3).
  set (K := ndigits s) in *. set (n := decimal_exponent p q).
  set (A := Z.abs n + Z.abs x + Z.abs K + 1).
  destruct (decimal_exponent_spec p q A Hp Hq ltac:(lia) ltac:(fold n; lia))
    as [D1 D2].
  fold n in D1, D2.
  assert (VA : p * 10 ^ A = q * (s * 10 ^ (x + A))).
  { destruct (0 <=? e) eqn:He.
    - destruct V as (Vx & Vq & Vp). rewrite Vx, Vq, Vp, Z.add_0_l. ring.
    - destruct V as (Vx & V). apply Z.leb_gt in He. rewrite Vx.
      replace A with (- e + (e + A)) at 1 by lia.
      rewrite pow10_split, Z.mul_assoc, V by lia. ring. }
  rewrite VA in D1, D2.
  apply Z.mul_le_mono_pos_l in D1; [| exact Hq].
  apply Z.mul_lt_mono_pos_l in D2; [| exact Hq].
  pose proof (pow10_pos (x + A) ltac:(lia)) as PX.
  assert (U1 : 10 ^ (n - 1 + A) < 10 ^ (K + (x + A))).
  { rewrite (pow10_split K) by lia. nia. }
  assert (U2 : 10 ^ (K - 1 + (x + A)) < 10 ^ (n + A)).
  { rewrite (pow10_split (K - 1)) by lia. nia. }
  apply pow10_lt in U1; [| lia | lia]. apply pow10_lt in U2; [| lia | lia].
  lia.
Qed.

Lemma eqb_eq (a b : number) : eqb a b = true <-> a = b.
Proof.
  destruct a, b; simpl; try (split; [discriminate | congruence]);
    try (split; reflexivity).
  rewrite andb_true_iff, !Z.eqb_eq. split; [intros []; congruence |].
  intros E. inversion E. auto.
Qed.

(** With as many digits as the exact expansion has there is a candidate. *)
Lemma candidates_exact (m e : Z) :
  0 < m -> is_double (Finite m e) = true ->
  let p := fst (as_ratio m e) in
  let q := snd (as_ratio m e) in
  candidates p q (decimal_exponent p q) (Finite m e)
    (ndigits (fst (exact_digits m e))) <> [].
Proof.
  intros Hm D p q. subst p q.
  rewrite (decimal_exponent_exact m e Hm).
  pose proof (of_decimal_exact_digits m e Hm D) as R.
  destruct (exact_digits_value m e Hm) as (Hp & Hq & Hs & Hx & V).
  set (p := fst (as_ratio m e)) in *. set (q := snd (as_ratio m e)) in *.
  set (s := fst (exact_digits m e)) in *.
  set (x := snd (exact_digits m e)) in *.
  destruct (ndigits_spec s Hs) as (K1 & K2 & K3).
  set (K := ndigits s) in *.
  unfold candidates.
  replace (K + x - K) with x by lia.
  assert (F : scaled_floor p q x = s).
  { unfold scaled_floor. rewrite Hx. destruct (0 <=? e).
    - destruct V as (Vx & Vq & Vp). rewrite Vx, Vq, Vp.
      change (10 ^ 0) with 1. rewrite Z.mul_1_l. apply Z.div_1_r.
    - destruct V as (Vx & V). rewrite Vx, V. apply Z.div_mul. lia. }
  rewrite F. cbv zeta.
  set (c_hi := if s + 1 =? 10 ^ K then (10 ^ (K - 1), K + x + 1)
               else (s + 1, K + x)).
  assert (Rep : represents (Finite m e) K (s, K + x) = true).
  { unfold represents. simpl fst. simpl snd.
    replace (K + x - K) with x by lia. rewrite R.
    rewrite (proj2 (Z.leb_le _ _) K2), (proj2 (Z.ltb_lt _ _) K3).
    cbn [andb]. apply eqb_eq. reflexivity. }
  assert (In : (s, K + x) ∈ filter
            (fun c => represents (Finite m e) K c = true)
            (if dist p q (s, K + x).1 ((s, K + x).2 - K)
                <? dist p q c_hi.1 (c_hi.2 - K)
             then [(s, K + x); c_hi]
             else if dist p q c_hi.1 (c_hi.2 - K)
                     <? dist p q (s, K + x).1 ((s, K + x).2 - K)
                  then [c_hi; (s, K + x)]
                  else if Z.even (s, K + x).1 then [(s, K + x); c_hi]
                       else [c_hi; (s, K + x)])).
  { apply list_elem_of_filter. split; [exact Rep |].
    repeat match goal with |- context [if ?b then _ else _] =>
      destruct b end; set_solver. }
  intros C. rewrite C in In. inversion In.
Qed.

Lemma shortest_finds (p q n : Z) (x : number) (K : Z) (fuel : nat) (k : Z) :
  k <= K < k + Z.of_nat fuel -> candidates p q n x K <> [] ->
  exists s n' k', shortest p q n x k fuel = (s, n', k')
                  /\ k <= k' /\ represents x k' (s, n') = true.
Proof.
  revert k. induction fuel as [| fuel IH]; intros k HK HC; [lia |].
  simpl. destruct (candidates p q n x k) as [| [s n'] cs] eqn:C.
  - assert (k <> K) by congruence.
    destruct (IH (k + 1) ltac:(lia) HC) as (s & n' & k' & E & Hk & R).
    exists s, n', k'. split; [exact E | split; [lia | exact R]].
  - exists s, n', k. split; [reflexivity | split; [lia |]].
    assert (In : (s, n') ∈ candidates p q n x k) by (rewrite C; left).
    unfold candidates in In. apply list_elem_of_filter in In as [R _]. exact R.
Qed.

(** [Number::toString] of a positive binary64 is a number of the JSON
    grammar that has this value. *)
Lemma toString_pos_parse (m e : Z) :
  0 < m -> is_double (Finite m e) = true ->
  exists s n k, toString_pos m e = format s n k
                /\ 1 <= k /\ 10 ^ (k - 1) <= s < 10 ^ k
                /\ of_decimal s (n - k) = Finite m e.
Proof.
  intros Hm D. unfold toString_pos.
  pose proof (candidates_exact m e Hm D) as C. cbv zeta in C.
  destruct (exact_digits_value m e Hm) as (_ & _ & Hs & _).
  destruct (ndigits_spec _ Hs) as (K1 & K2 & _).
  destruct (as_ratio m e) as [p q]. simpl fst in C. simpl snd in C.
  assert (N : normalize m e = Finite m e).
  { apply normalize_odd. unfold is_double in D.
    destruct m; [lia | | lia].
    apply andb_true_iff in D as [D _]. apply andb_true_iff in D as [D _].
    apply andb_true_iff in D as [D _]. exact D. }
  rewrite N.
  set (S0 := fst (exact_digits m e)) in *.
  destruct (shortest_finds p q (decimal_exponent p q) (Finite m e)
              (ndigits S0) (S (Z.to_nat (Z.log2 S0))) 1) as (s & n & k & E & Hk & R).
  { split; [lia |].
    assert (2 ^ (ndigits S0 - 1) <= S0).
    { etransitivity; [| exact K2].
      apply Z.pow_le_mono_l. lia. }
    apply Z.log2_le_pow2 in H; [| lia].
    pose proof (Z.log2_nonneg S0). lia. }
  { exact C. }
  rewrite E. exists s, n, k. split; [reflexivity |].
  unfold represents in R. simpl fst in R. simpl snd in R.
  apply andb_true_iff in R as [R R3]. apply andb_true_iff in R as [R1 R2].
  apply Z.leb_le in R1. apply Z.ltb_lt in R2. apply eqb_eq in R3.
  auto with lia.
Qed.


(** The text of [format] starts with a digit. *)
Lemma format_head (s n k : Z) :
  1 <= k -> 10 ^ (k - 1) <= s < 10 ^ k -> after 45 (format s n k) = None.
Proof.
  intros Hk Hs.
  destruct (digits_of s k Hk Hs) as (_ & _ & _ & c & ds & E & _ & C & _).
  unfold format. rewrite E.
  destruct ((k <=? n) && (n <=? 21)).
  { rewrite <- app_comm_cons. apply after_other. exact C. }
  destruct ((0 <? n) && (n <=? 21)) eqn:B.
  { apply andb_true_iff in B as [B _]. apply Z.ltb_lt in B.
    replace (Z.to_nat n) with (S (Z.to_nat (n - 1))) by lia.
    cbn [take]. rewrite <- app_comm_cons. apply after_other. exact C. }
  destruct ((-6 <? n) && (n <=? 0)); [reflexivity |].
  destruct (k =? 1).
  - rewrite <- app_comm_cons. apply after_other. exact C.
  - cbn [take]. rewrite <- app_comm_cons. apply after_other. exact C.
Qed.

Lemma normalize_opp (m e : Z) : normalize (- m) e = opp (normalize m e).
Proof.
  destruct m as [| p | p]; simpl; [reflexivity | |];
    destruct (odd_part p) as [q t]; reflexivity.
Qed.

Lemma of_ratio_opp (p q : Z) : of_ratio (- p) q = opp (of_ratio p q).
Proof.
  unfold of_ratio. destruct p as [| p | p]; [reflexivity | |].
  - change (- Z.pos p) with (Z.neg p). change (- Z.neg p) with (Z.pos p).
    destruct (round_pos (Z.pos p) q) as [[m e] |]; [| reflexivity].
    apply normalize_opp.
  - change (- Z.neg p) with (Z.pos p).
    destruct (round_pos (Z.pos p) q) as [[m e] |]; [| reflexivity].
    rewrite normalize_opp. destruct (normalize m e); simpl; [| reflexivity..].
    rewrite Z.opp_involutive. reflexivity.
Qed.

Lemma of_decimal_opp (d x : Z) : of_decimal (- d) x = opp (of_decimal d x).
Proof.
  unfold of_decimal. destruct (0 <=? x).
  - rewrite Z.mul_opp_l. apply of_ratio_opp.
  - apply of_ratio_opp.
Qed.

Lemma parse_number_minus (t r : jsstring) (x : number) :
  after 45 t = None -> parse_number t = Some (x, r) ->
  parse_number (45%N :: t) = Some (opp x, r).
Proof.
  unfold parse_number. intros H. rewrite after_same, H.
  destruct (parse_int t) as [[ip s2] |]; [| discriminate].
  destruct (parse_frac s2) as [[fp s3] |]; [| discriminate].
  destruct (parse_exp s3) as [[ex s4] |]; [| discriminate].
  intros E. inversion E; subst. rewrite of_decimal_opp. reflexivity.
Qed.

(** Every finite binary64 survives: [Number::toString] writes it as a text
    that parses to the same number. *)
Theorem double_survives (x : number) :
  is_double x = true -> is_finite x = true -> number_survives x = true.
Proof.
  intros D F. unfold number_survives. rewrite F. cbn [andb].
  destruct x as [m e | |]; [| discriminate F | discriminate F].
  destruct m as [| p | p].
  - simpl in D. apply Z.eqb_eq in D. subst e. vm_compute. reflexivity.
  - destruct (toString_pos_parse (Z.pos p) e ltac:(lia) D)
      as (s & n & k & E & Hk & Hs & V).
    unfold toString. rewrite E, (parse_format s n k Hk Hs), V.
    apply eqb_eq. reflexivity.
  - assert (D' : is_double (Finite (Z.pos p) e) = true) by exact D.
    destruct (toString_pos_parse (Z.pos p) e ltac:(lia) D')
      as (s & n & k & E & Hk & Hs & V).
    unfold toString. rewrite E.
    change (str "-" ++ format s n k) with (45%N :: format s n k).
    rewrite (parse_number_minus _ _ _ (format_head s n k Hk Hs)
               (parse_format s n k Hk Hs)), V.
    apply eqb_eq. reflexivity.
Qed.

End NumberProps.

(** ** JSON: what is written is read back *)

Module JSONProps.
Import JSON NumberProps.

(** *** Strings *)

Lemma hex_value_digit (d : N) :
  (d < 16)%N -> hex_value (hex_digit d) = Some d.
Proof.
  intros H. unfold hex_value, hex_digit.
  destruct (d <? 10)%N eqn:E.
  - apply N.ltb_lt in E.
    replace ((48 <=? 48 + d) && (48 + d <=? 57))%N with true
      by (symmetry; apply andb_true_intro; split; apply N.leb_le; lia).
    f_equal. lia.
  - apply N.ltb_ge in E.
    replace ((48 <=? 87 + d) && (87 + d <=? 57))%N with false
      by (symmetry; apply andb_false_intro2; apply N.leb_gt; lia).
    replace ((97 <=? 87 + d) && (87 + d <=? 102))%N with true
      by (symmetry; apply andb_true_intro; split; apply N.leb_le; lia).
    f_equal. lia.
Qed.

Lemma hex_digits_value (c : N) :
  (c < 65536)%N ->
  (c / 4096 mod 16 * 4096 + c / 256 mod 16 * 256 + c / 16 mod 16 * 16
   + c mod 16)%N = c.
Proof.
  intros H.
  pose proof (N.div_mod c 16 ltac:(lia)).
  pose proof (N.div_mod (c / 16) 16 ltac:(lia)).
  pose proof (N.div_mod (c / 256) 16 ltac:(lia)).
  pose proof (N.mod_small (c / 4096) 16) as H4.
  rewrite H4 by (apply N.Div0.div_lt_upper_bound; lia).
  replace (c / 256)%N with (c / 16 / 16)%N in *
    by (rewrite N.Div0.div_div; reflexivity).
  replace (c / 4096)%N with (c / 16 / 16 / 16)%N in *
    by (rewrite !N.Div0.div_div; reflexivity).
  lia.
Qed.

(** An escape [\uXXXX] is read back as its code unit. *)
Lemma parse_unicode_escape (c : N) (s : jsstring) (t r : jsstring) :
  (c < 65536)%N ->
  parse_chars s = Some (t, r) ->
  parse_chars (unicode_escape c ++ s) = Some (c :: t, r).
Proof.
  intros Hc Hs. unfold unicode_escape.
  change (parse_chars ([92; 117; hex_digit (c / 4096 mod 16);
                         hex_digit (c / 256 mod 16); hex_digit (c / 16 mod 16);
                         hex_digit (c mod 16)]%N ++ s))
    with (match hex_value (hex_digit (c / 4096 mod 16)),
                hex_value (hex_digit (c / 256 mod 16)),
                hex_value (hex_digit (c / 16 mod 16)),
                hex_value (hex_digit (c mod 16)) with
          | Some a, Some b, Some c', Some d =>
              match parse_chars s with
              | Some (t, r) => Some ((a * 4096 + b * 256 + c' * 16 + d)%N :: t, r)
              | None => None
              end
          | _, _, _, _ => None
          end).
  rewrite !hex_value_digit by (apply N.mod_upper_bound; lia).
  rewrite Hs, hex_digits_value by exact Hc. reflexivity.
Qed.


(** A code unit written as itself is read as itself. *)
Lemma parse_literal_unit (c : N) (s t r : jsstring) :
  c <> 34%N -> c <> 92%N -> (32 <= c)%N ->
  parse_chars s = Some (t, r) ->
  parse_chars (c :: s) = Some (c :: t, r).
Proof.
  intros H1 H2 H3 Hs. simpl.
  rewrite (proj2 (N.eqb_neq c 34) H1), (proj2 (N.eqb_neq c 92) H2),
    (proj2 (N.ltb_ge c 32) H3), Hs.
  reflexivity.
Qed.

Lemma parse_quote_unit (c : N) (s t r : jsstring) :
  parse_chars s = Some (t, r) ->
  parse_chars (quote_unit c ++ s) = Some (c :: t, r).
Proof.
  intros Hs. unfold quote_unit.
  destruct (c =? 8)%N eqn:E8; [apply N.eqb_eq in E8; subst; simpl; rewrite Hs; reflexivity|].
  destruct (c =? 9)%N eqn:E9; [apply N.eqb_eq in E9; subst; simpl; rewrite Hs; reflexivity|].
  destruct (c =? 10)%N eqn:E10; [apply N.eqb_eq in E10; subst; simpl; rewrite Hs; reflexivity|].
  destruct (c =? 12)%N eqn:E12; [apply N.eqb_eq in E12; subst; simpl; rewrite Hs; reflexivity|].
  destruct (c =? 13)%N eqn:E13; [apply N.eqb_eq in E13; subst; simpl; rewrite Hs; reflexivity|].
  destruct (c =? 34)%N eqn:E34; [apply N.eqb_eq in E34; subst; simpl; rewrite Hs; reflexivity|].
  destruct (c =? 92)%N eqn:E92; [apply N.eqb_eq in E92; subst; simpl; rewrite Hs; reflexivity|].
  destruct (c <? 32)%N eqn:E32.
  - apply N.ltb_lt in E32. apply parse_unicode_escape; [lia | exact Hs].
  - apply parse_literal_unit; try exact Hs.
    + apply N.eqb_neq. exact E34.
    + apply N.eqb_neq. exact E92.
    + apply N.ltb_ge. exact E32.
Qed.

Lemma surrogate_literal (c : N) :
  is_high_surrogate c || is_low_surrogate c = true ->
  c <> 34%N /\ c <> 92%N /\ (32 <= c)%N /\ (c < 65536)%N.
Proof.
  unfold is_high_surrogate, is_low_surrogate.
  rewrite orb_true_iff, !andb_true_iff, !N.leb_le. lia.
Qed.

Lemma quote_units_cons (c : N) (s : jsstring) :
  quote_units (c :: s)
  = if is_high_surrogate c then
      match s with
      | d :: s'' =>
          if is_low_surrogate d then c :: d :: quote_units s''
          else unicode_escape c ++ quote_units s
      | [] => unicode_escape c
      end
    else if is_low_surrogate c then unicode_escape c ++ quote_units s
    else quote_unit c ++ quote_units s.
Proof. reflexivity. Qed.

(** What [QuoteJSONString] writes between the quotes is read back. *)
Lemma parse_quote_units_bounded (n : nat) (s r : jsstring) :
  (length s <= n)%nat ->
  parse_chars (quote_units s ++ 34%N :: r) = Some (s, r).
Proof.
  revert s. induction n as [|n IH]; intros s Hn.
  - destruct s; [|simpl in Hn; lia]. reflexivity.
  - destruct s as [|c s]; [reflexivity|].
    simpl in Hn. rewrite quote_units_cons.
    destruct (is_high_surrogate c) eqn:Eh.
    + destruct (surrogate_literal c) as (H1 & H2 & H3 & H4);
        [rewrite Eh; reflexivity|].
      destruct s as [|d s].
      * apply parse_unicode_escape; [exact H4 | reflexivity].
      * destruct (is_low_surrogate d) eqn:El.
        -- destruct (surrogate_literal d) as (D1 & D2 & D3 & D4);
             [rewrite El; apply orb_true_r|].
           rewrite <- !app_comm_cons.
           apply parse_literal_unit; try assumption.
           apply parse_literal_unit; try assumption.
           apply IH. simpl in Hn. lia.
        -- rewrite <- app_assoc. apply parse_unicode_escape; [exact H4|].
           apply IH. lia.
    + destruct (is_low_surrogate c) eqn:El.
      * destruct (surrogate_literal c) as (H1 & H2 & H3 & H4);
          [rewrite El; apply orb_true_r|].
        rewrite <- app_assoc. apply parse_unicode_escape; [exact H4|].
        apply IH. lia.
      * rewrite <- app_assoc. apply parse_quote_unit. apply IH. lia.
Qed.

Lemma parse_quote_units (s r : jsstring) :
  parse_chars (quote_units s ++ 34%N :: r) = Some (s, r).
Proof. apply (parse_quote_units_bounded (length s)). reflexivity. Qed.


(** *** Numbers *)

Lemma delimited_head (c : N) (rest : jsstring) :
  delimited (c :: rest) = true ->
  is_digit c = false /\ c <> 46%N /\ c <> 101%N /\ c <> 69%N /\ c <> 48%N.
Proof.
  unfold delimited, is_digit.
  rewrite orb_true_iff, !N.eqb_eq. intros [-> | ->]; repeat split; discriminate.
Qed.

Lemma span_digits_app (s rest ds r : jsstring) :
  delimited rest = true ->
  span_digits s = (ds, r) -> span_digits (s ++ rest) = (ds, r ++ rest).
Proof.
  intros Hd. revert ds r. induction s as [|c s IH]; intros ds r H.
  - simpl in H. injection H as <- <-. simpl.
    destruct rest as [|c rest]; [reflexivity|].
    simpl. destruct (delimited_head c rest Hd) as [-> _]. reflexivity.
  - simpl in *. destruct (is_digit c).
    + destruct (span_digits s) as [ds' r'] eqn:E.
      injection H as <- <-. rewrite (IH ds' r' eq_refl). reflexivity.
    + injection H as <- <-. reflexivity.
Qed.

Lemma after_app (c : N) (s rest r : jsstring) :
  after c s = Some r -> after c (s ++ rest) = Some (r ++ rest).
Proof.
  destruct s as [|c' s]; [discriminate|]. simpl.
  destruct (c' =? c)%N; [|discriminate]. intros H. injection H as <-.
  reflexivity.
Qed.

(** A delimiter is none of the code units that the grammar of numbers looks
    for. *)
Lemma after_delimited (c : N) (s rest : jsstring) :
  delimited rest = true -> after c s = None ->
  c = 48%N \/ c = 46%N \/ c = 43%N \/ c = 45%N ->
  after c (s ++ rest) = None.
Proof.
  intros Hd H Hc. destruct s as [|c' s]; [|simpl in *; destruct (c' =? c)%N; [discriminate H | reflexivity]].
  destruct rest as [|d rest]; [reflexivity|]. simpl.
  unfold delimited in Hd. rewrite orb_true_iff, !N.eqb_eq in Hd.
  destruct (d =? c)%N eqn:E; [|reflexivity].
  apply N.eqb_eq in E. subst d.
  destruct Hd as [-> | ->], Hc as [Hc | [Hc | [Hc | Hc]]]; discriminate Hc.
Qed.

Lemma parse_int_app (s rest ip r : jsstring) :
  delimited rest = true ->
  parse_int s = Some (ip, r) -> parse_int (s ++ rest) = Some (ip, r ++ rest).
Proof.
  intros Hd H. unfold parse_int in *.
  destruct (after 48 s) as [r0|] eqn:E.
  - injection H as <- <-. rewrite (after_app _ _ _ _ E). reflexivity.
  - rewrite (after_delimited _ _ _ Hd E) by auto.
    destruct (span_digits s) as [ds r'] eqn:Es.
    rewrite (span_digits_app _ _ _ _ Hd Es).
    destruct ds; [discriminate H|]. injection H as <- <-. reflexivity.
Qed.

Lemma parse_frac_app (s rest fp r : jsstring) :
  delimited rest = true ->
  parse_frac s = Some (fp, r) -> parse_frac (s ++ rest) = Some (fp, r ++ rest).
Proof.
  intros Hd H. unfold parse_frac in *.
  destruct (after 46 s) as [r0|] eqn:E.
  - rewrite (after_app _ _ _ _ E).
    destruct (span_digits r0) as [ds r'] eqn:Es.
    rewrite (span_digits_app _ _ _ _ Hd Es).
    destruct ds; [discriminate H|]. injection H as <- <-. reflexivity.
  - rewrite (after_delimited _ _ _ Hd E) by auto.
    injection H as <- <-. reflexivity.
Qed.

Lemma parse_exp_app (s rest r : jsstring) (x : Z) :
  delimited rest = true ->
  parse_exp s = Some (x, r) -> parse_exp (s ++ rest) = Some (x, r ++ rest).
Proof.
  intros Hd H. unfold parse_exp in *.
  destruct s as [|c s].
  - injection H as <- <-. simpl.
    destruct rest as [|d rest]; [reflexivity|].
    destruct (delimited_head d rest Hd) as (_ & _ & H1 & H2 & _).
    rewrite (proj2 (N.eqb_neq d 101) H1), (proj2 (N.eqb_neq d 69) H2).
    reflexivity.
  - rewrite <- app_comm_cons.
    destruct ((c =? 101) || (c =? 69))%N.
    + destruct (after 43 s) as [r1|] eqn:E1.
      * rewrite (after_app _ _ _ _ E1).
        destruct (span_digits r1) as [ds r'] eqn:Es.
        rewrite (span_digits_app _ _ _ _ Hd Es).
        destruct ds; [discriminate H|]. injection H as <- <-. reflexivity.
      * rewrite (after_delimited _ _ _ Hd E1) by auto.
        destruct (after 45 s) as [r1|] eqn:E2.
        -- rewrite (after_app _ _ _ _ E2).
           destruct (span_digits r1) as [ds r'] eqn:Es.
           rewrite (span_digits_app _ _ _ _ Hd Es).
           destruct ds; [discriminate H|]. injection H as <- <-. reflexivity.
        -- rewrite (after_delimited _ _ _ Hd E2) by auto.
           destruct (span_digits s) as [ds r'] eqn:Es.
           rewrite (span_digits_app _ _ _ _ Hd Es).
           destruct ds; [discriminate H|]. injection H as <- <-. reflexivity.
    + injection H as <- <-. reflexivity.
Qed.

(** A number followed by a delimiter is read as the number alone. *)
Lemma parse_number_app (s rest r : jsstring) (n : Number.number) :
  delimited rest = true ->
  parse_number s = Some (n, r) ->
  parse_number (s ++ rest) = Some (n, r ++ rest).
Proof.
  intros Hd H. unfold parse_number in *.
  assert (E : exists neg s1,
             match after 45 s with
             | Some s1 => (true, s1)
             | None => (false, s)
             end = (neg, s1)
             /\ match after 45 (s ++ rest) with
                | Some s1 => (true, s1)
                | None => (false, s ++ rest)
                end = (neg, s1 ++ rest)).
  { destruct (after 45 s) as [s1|] eqn:E.
    - exists true, s1. rewrite (after_app _ _ _ _ E). auto.
    - exists false, s. rewrite (after_delimited _ _ _ Hd E) by auto. auto. }
  destruct E as (neg & s1 & E1 & E2). rewrite E1 in H. rewrite E2.
  destruct (parse_int s1) as [[ip s2]|] eqn:Ei; [|discriminate H].
  rewrite (parse_int_app _ _ _ _ Hd Ei).
  destruct (parse_frac s2) as [[fp s3]|] eqn:Ef; [|discriminate H].
  rewrite (parse_frac_app _ _ _ _ Hd Ef).
  destruct (parse_exp s3) as [[x s4]|] eqn:Ee; [|discriminate H].
  rewrite (parse_exp_app _ _ _ _ Hd Ee).
  injection H as <- <-. reflexivity.
Qed.

(** The text of a number starts with a minus sign or a digit. *)
Lemma parse_number_head (s r : jsstring) (n : Number.number) :
  parse_number s = Some (n, r) ->
  exists c s', s = c :: s' /\ ((c =? 45)%N || is_digit c = true).
Proof.
  unfold parse_number. intros H.
  destruct s as [|c s]; [discriminate H|].
  exists c, s. split; [reflexivity|].
  simpl in H. destruct (c =? 45)%N eqn:E; [reflexivity|].
  unfold parse_int in H. simpl in H.
  destruct (c =? 48)%N eqn:E0.
  - apply N.eqb_eq in E0. subst. reflexivity.
  - destruct (is_digit c); [reflexivity|]. discriminate H.
Qed.

(** *** Induction on values *)

Lemma map_fold_and (f : value -> bool) (o : gmap jsstring value) :
  map_fold (fun _ x acc => f x && acc) true o = true
  <-> map_Forall (fun _ x => f x = true) o.
Proof.
  rewrite map_fold_foldr, map_Forall_to_list.
  induction (map_to_list o) as [|[k x] l IH]; simpl.
  - split; [constructor | reflexivity].
  - rewrite andb_true_iff, Forall_cons, IH. reflexivity.
Qed.

Lemma weight_lookup (o : gmap jsstring value) (k : jsstring) (x : value) :
  o !! k = Some x -> (weight x < weight (VObj o))%nat.
Proof.
  intros H. simpl. rewrite map_fold_foldr.
  apply elem_of_map_to_list in H.
  induction (map_to_list o) as [|[k' x'] l IH]; [inversion H|].
  simpl. apply elem_of_cons in H as [H | H].
  - injection H as <- <-. lia.
  - specialize (IH H). lia.
Qed.

Lemma weight_elem (l : list value) (x : value) :
  x ∈ l -> (weight x < weight (VArr l))%nat.
Proof.
  intros H. simpl. induction l as [|y l IH]; [inversion H|].
  simpl. apply elem_of_cons in H as [-> | H].
  - lia.
  - specialize (IH H). lia.
Qed.

(** Induction on a value, with the property at hand for the elements of an
    array and for the values of an object. *)
Lemma value_induction (P : value -> Prop) :
  P VUndefined -> P VNull -> (forall b, P (VBool b)) ->
  (forall n, P (VNum n)) -> (forall s, P (VStr s)) ->
  (forall l, Forall P l -> P (VArr l)) ->
  (forall o, map_Forall (fun _ x => P x) o -> P (VObj o)) ->
  forall v, P v.
Proof.
  intros Hu Hn Hb Hnum Hs Ha Ho v.
  remember (weight v) as n eqn:E. revert v E.
  induction n as [n IH] using lt_wf_ind. intros v ->.
  destruct v as [| | b | x | s | l | o]; auto.
  - apply Ha. apply Forall_forall. intros x Hx.
    exact (IH _ (weight_elem l x Hx) x eq_refl).
  - apply Ho. intros k x Hx.
    exact (IH _ (weight_lookup o k x Hx) x eq_refl).
Qed.

(** *** The equations of the parser *)

Lemma parse_elements_S (f : nat) (s : jsstring) :
  parse_elements (S f) s
  = match parse_value f s with
    | None => None
    | Some (v, r) =>
        match after 44 (skip_ws r), after 93 (skip_ws r) with
        | Some r', _ =>
            match parse_elements f r' with
            | Some (vs, r'') => Some (v :: vs, r'')
            | None => None
            end
        | _, Some r' => Some ([v], r')
        | _, _ => None
        end
    end.
Proof. reflexivity. Qed.

Lemma parse_members_S (f : nat) (s : jsstring) :
  parse_members (S f) s
  = match after 34 (skip_ws s) with
    | None => None
    | Some r =>
        match parse_chars r with
        | None => None
        | Some (k, r1) =>
            match after 58 (skip_ws r1) with
            | None => None
            | Some r2 =>
                match parse_value f r2 with
                | None => None
                | Some (v, r3) =>
                    match after 44 (skip_ws r3), after 125 (skip_ws r3) with
                    | Some r4, _ =>
                        match parse_members f r4 with
                        | Some (kvs, r5) => Some ((k, v) :: kvs, r5)
                        | None => None
                        end
                    | _, Some r4 => Some ([(k, v)], r4)
                    | _, _ => None
                    end
                end
            end
        end
    end.
Proof. reflexivity. Qed.

Lemma parse_value_S (f : nat) (s : jsstring) :
  parse_value (S f) s
  = match skip_ws s with
    | [] => None
    | c :: r =>
        (if c =? 123 then
           match after 125 (skip_ws r) with
           | Some r' => Some (VObj ∅, r')
           | None => match parse_members f r with
                     | Some (kvs, r') =>
                         Some (VObj (list_to_map (reverse kvs)), r')
                     | None => None
                     end
           end
         else if c =? 91 then
           match after 93 (skip_ws r) with
           | Some r' => Some (VArr [], r')
           | None => match parse_elements f r with
                     | Some (vs, r') => Some (VArr vs, r')
                     | None => None
                     end
           end
         else if c =? 34 then
           match parse_chars r with
           | Some (t, r') => Some (VStr t, r')
           | None => None
           end
         else if (c =? 45) || is_digit c then
           match parse_number (c :: r) with
           | Some (n, r') => Some (VNum n, r')
           | None => None
           end
         else
           match strip_prefix (str "true") (c :: r),
                 strip_prefix (str "false") (c :: r),
                 strip_prefix (str "null") (c :: r) with
           | Some r', _, _ => Some (VBool true, r')
           | _, Some r', _ => Some (VBool false, r')
           | _, _, Some r' => Some (VNull, r')
           | _, _, _ => None
           end)%N
    end.
Proof. reflexivity. Qed.

Lemma weight_pos (v : value) : (1 <= weight v)%nat.
Proof. destruct v; simpl; lia. Qed.

Lemma weights_cons (x : value) (l : list value) :
  weights (x :: l) = (weight x + weights l)%nat.
Proof. reflexivity. Qed.

(** *** White space *)

Lemma skip_ws_app (pre s : jsstring) :
  forallb is_ws pre = true -> skip_ws (pre ++ s) = skip_ws s.
Proof.
  induction pre as [|c pre IH]; [reflexivity|]. simpl.
  intros H. apply andb_true_iff in H as [-> H]. exact (IH H).
Qed.

Lemma skip_ws_token (t s : jsstring) :
  starts_token t = true -> skip_ws (t ++ s) = t ++ s.
Proof.
  destruct t as [|c t]; [discriminate|]. simpl.
  rewrite !andb_true_iff, negb_true_iff. intros [[-> _] _]. reflexivity.
Qed.

Lemma skip_ws_cons (c : N) (s : jsstring) :
  is_ws c = false -> skip_ws (c :: s) = c :: s.
Proof. intros H. simpl. rewrite H. reflexivity. Qed.

Lemma token_cons (t : jsstring) :
  starts_token t = true ->
  exists c t', t = c :: t' /\ is_ws c = false /\ c <> 93%N /\ c <> 125%N.
Proof.
  destruct t as [|c t]; [discriminate|]. simpl.
  rewrite !andb_true_iff, !negb_true_iff, !N.eqb_neq.
  intros [[H1 H2] H3]. exists c, t. auto.
Qed.

Lemma after_token_close (t s : jsstring) (c : N) :
  starts_token t = true -> c = 93%N \/ c = 125%N ->
  after c (skip_ws (t ++ s)) = None.
Proof.
  intros Ht Hc. rewrite (skip_ws_token _ _ Ht).
  destruct (token_cons t Ht) as (d & t' & -> & _ & H1 & H2). simpl.
  destruct (d =? c)%N eqn:E; [|reflexivity].
  apply N.eqb_eq in E. subst d. destruct Hc; congruence.
Qed.

Lemma join_cons2 (sep p q : jsstring) (ps : list jsstring) :
  join sep (p :: q :: ps) = p ++ sep ++ join sep (q :: ps).
Proof. reflexivity. Qed.

Lemma ws_newline_indent (indent : jsstring) :
  forallb is_ws indent = true -> forallb is_ws (newline ++ indent) = true.
Proof. intros H. simpl. exact H. Qed.

(** *** Arrays *)

(** The elements of an array, written one per line, are read back. *)
Lemma parse_elements_texts (indent indent' : jsstring) (l : list value) :
  Forall (reads indent') l -> l <> [] ->
  forallb is_ws indent = true -> forallb is_ws indent' = true ->
  forall (pre rest : jsstring) (fuel : nat),
    forallb is_ws pre = true ->
    (1 + 2 * weights l <= fuel)%nat ->
    parse_elements fuel
      (pre ++ join (str "," ++ newline ++ indent') (map (element_text indent') l)
       ++ newline ++ indent ++ str "]" ++ rest)
    = Some (l, rest).
Proof.
  intros Hl Hne Hi Hi'. induction Hl as [|x l Hx Hl IH]; [congruence|].
  intros pre rest fuel Hpre Hfuel. rewrite weights_cons in Hfuel.
  pose proof (weight_pos x) as Hw.
  destruct fuel as [|f]; [lia|].
  assert (Ht : delimited (newline ++ indent ++ str "]" ++ rest) = true)
    by reflexivity.
  destruct l as [|y l].
  - destruct (Hx pre (newline ++ indent ++ str "]" ++ rest) f Hpre Ht
                ltac:(lia)) as (t & Et & Tt & Pt).
    simpl map. unfold element_text at 1. rewrite Et. simpl join. simpl default.
    rewrite parse_elements_S, Pt.
    rewrite (app_assoc newline indent (str "]" ++ rest)).
    rewrite (skip_ws_app (newline ++ indent) (str "]" ++ rest))
      by (apply ws_newline_indent; exact Hi).
    reflexivity.
  - set (sep := str "," ++ newline ++ indent') in *.
    set (tail := newline ++ indent ++ str "]" ++ rest) in *.
    change (map (element_text indent') (x :: y :: l))
      with (element_text indent' x :: map (element_text indent') (y :: l)).
    set (ts := map (element_text indent') (y :: l)) in *.
    assert (Hts : exists q qs, ts = q :: qs) by (subst ts; simpl; eauto).
    destruct Hts as (q & qs & Eq). rewrite Eq, join_cons2, <- Eq.
    assert (Hd : delimited (sep ++ join sep ts ++ tail) = true) by reflexivity.
    destruct (Hx pre (sep ++ join sep ts ++ tail) f Hpre Hd
                ltac:(lia)) as (t & Et & Tt & Pt).
    unfold element_text at 1. rewrite Et. simpl default.
    rewrite <- !app_assoc.
    rewrite parse_elements_S, Pt.
    assert (Es : sep ++ join sep ts ++ tail
                 = 44%N :: (newline ++ indent') ++ join sep ts ++ tail)
      by reflexivity.
    rewrite Es, skip_ws_cons, after_same by reflexivity.
    subst tail.
    rewrite (IH ltac:(discriminate) (newline ++ indent') rest f
               (ws_newline_indent _ Hi')
               ltac:(lia)).
    reflexivity.
Qed.


(** *** Objects *)

Lemma member_shape (k t R : jsstring) :
  (quote k ++ str ": " ++ t) ++ R
  = 34%N :: quote_units k ++ 34%N :: 58%N :: [32%N] ++ t ++ R.
Proof. unfold quote. rewrite <- !app_assoc. reflexivity. Qed.

(** The member at the head of a text is read: its key, the colon, its
    value. *)
Lemma parse_member (indent' pre k R : jsstring) (x : value) (f : nat) :
  reads indent' x -> forallb is_ws pre = true -> delimited R = true ->
  (2 * weight x <= f)%nat ->
  exists t, serialize indent' x = Some t
    /\ after 34 (skip_ws (pre ++ (quote k ++ str ": " ++ t) ++ R))
       = Some (quote_units k ++ 34%N :: 58%N :: [32%N] ++ t ++ R)
    /\ parse_chars (quote_units k ++ 34%N :: 58%N :: [32%N] ++ t ++ R)
       = Some (k, 58%N :: [32%N] ++ t ++ R)
    /\ after 58 (skip_ws (58%N :: [32%N] ++ t ++ R)) = Some ([32%N] ++ t ++ R)
    /\ parse_value f ([32%N] ++ t ++ R) = Some (x, R).
Proof.
  intros Hx Hpre HR Hf.
  destruct (Hx [32%N] R f eq_refl HR Hf) as (t & Et & Tt & Pt).
  exists t. split; [exact Et|].
  rewrite member_shape, (skip_ws_app _ _ Hpre), skip_ws_cons, after_same
    by reflexivity.
  split; [reflexivity|]. split; [apply parse_quote_units|].
  rewrite skip_ws_cons, after_same by reflexivity.
  split; [reflexivity | exact Pt].
Qed.

Lemma join_single (sep p : jsstring) : join sep [p] = p.
Proof. reflexivity. Qed.

Lemma member_text_eq (indent' k t : jsstring) (x : value) :
  serialize indent' x = Some t ->
  member_text indent' (k, x) = quote k ++ str ": " ++ t.
Proof. intros E. unfold member_text, element_text. simpl. rewrite E. reflexivity. Qed.

(** The members of an object, written one per line, are read back. *)
Lemma parse_members_texts (indent indent' : jsstring)
  (kvs : list (jsstring * value)) :
  Forall (fun kv => reads indent' kv.2) kvs -> kvs <> [] ->
  forallb is_ws indent = true -> forallb is_ws indent' = true ->
  forall (pre rest : jsstring) (fuel : nat),
    forallb is_ws pre = true ->
    (1 + 2 * weights (kvs.*2) <= fuel)%nat ->
    parse_members fuel
      (pre ++ join (str "," ++ newline ++ indent') (map (member_text indent') kvs)
       ++ newline ++ indent ++ str "}" ++ rest)
    = Some (kvs, rest).
Proof.
  intros Hl Hne Hi Hi'. induction Hl as [|[k x] l Hx Hl IH]; [congruence|].
  intros pre rest fuel Hpre Hfuel. rewrite fmap_cons, weights_cons in Hfuel.
  simpl in Hx. change ((k, x).2) with x in Hfuel.
  pose proof (weight_pos x) as Hw.
  destruct fuel as [|f]; [lia|].
  destruct l as [|y l].
  - destruct (parse_member indent' pre k
                (newline ++ indent ++ str "}" ++ rest) x f Hx Hpre eq_refl
                ltac:(lia)) as (t & Et & E1 & E2 & E3 & E4).
    change (map (member_text indent') [(k, x)])
      with [member_text indent' (k, x)].
    rewrite join_single, (member_text_eq _ _ _ _ Et).
    rewrite parse_members_S, E1, E2, E3, E4.
    rewrite (app_assoc newline indent (str "}" ++ rest)).
    rewrite (skip_ws_app (newline ++ indent) (str "}" ++ rest))
      by (apply ws_newline_indent; exact Hi).
    reflexivity.
  - set (sep := str "," ++ newline ++ indent') in *.
    change (map (member_text indent') ((k, x) :: y :: l))
      with (member_text indent' (k, x) :: map (member_text indent') (y :: l)).
    set (ts := map (member_text indent') (y :: l)) in *.
    assert (Hts : exists q qs, ts = q :: qs) by (subst ts; simpl; eauto).
    destruct Hts as (q & qs & Eq). rewrite Eq, join_cons2, <- Eq.
    destruct (parse_member indent' pre k
                (sep ++ join sep ts ++ newline ++ indent ++ str "}" ++ rest)
                x f Hx Hpre eq_refl ltac:(lia))
      as (t & Et & E1 & E2 & E3 & E4).
    rewrite (member_text_eq _ _ _ _ Et).
    rewrite <- (app_assoc _ (sep ++ join sep ts)).
    rewrite <- (app_assoc sep).
    rewrite parse_members_S, E1, E2, E3, E4.
    assert (Es : sep ++ join sep ts ++ newline ++ indent ++ str "}" ++ rest
                 = 44%N :: (newline ++ indent') ++ join sep ts
                   ++ newline ++ indent ++ str "}" ++ rest)
      by reflexivity.
    rewrite Es, skip_ws_cons, after_same by reflexivity.
    rewrite (IH ltac:(discriminate) (newline ++ indent') rest f
               (ws_newline_indent _ Hi') ltac:(lia)).
    reflexivity.
Qed.

(** *** Values *)

Lemma number_eqb_eq (a b : Number.number) : Number.eqb a b = true -> a = b.
Proof.
  destruct a, b; simpl; try discriminate; try reflexivity.
  rewrite andb_true_iff, !Z.eqb_eq. intros [-> ->]. reflexivity.
Qed.

Lemma number_survives_parse (n : Number.number) :
  number_survives n = true ->
  Number.is_finite n = true
  /\ parse_number (Number.toString n) = Some (n, []).
Proof.
  unfold number_survives. rewrite andb_true_iff. intros [H1 H2].
  split; [exact H1|].
  destruct (parse_number (Number.toString n)) as [[n' [|c r]]|];
    try discriminate H2.
  apply number_eqb_eq in H2. subst. reflexivity.
Qed.

Lemma starts_token_app (t s : jsstring) :
  starts_token t = true -> starts_token (t ++ s) = true.
Proof. destruct t; [discriminate|]. intros H. exact H. Qed.

Lemma list_to_map_reverse (o : gmap jsstring value) :
  list_to_map (reverse (map_to_list o)) = o.
Proof.
  rewrite <- (list_to_map_to_list o) at 2.
  apply list_to_map_proper.
  - rewrite fmap_reverse, reverse_Permutation. apply NoDup_fst_map_to_list.
  - apply reverse_Permutation.
Qed.

(** The texts of the members, when every value has a text. *)
Lemma members_fold (indent' : jsstring) (kvs : list (jsstring * value)) :
  Forall (fun kv => is_Some (serialize indent' kv.2)) kvs ->
  foldr (uncurry (fun k x acc =>
                    match serialize indent' x with
                    | Some t => (quote k ++ str ": " ++ t) :: acc
                    | None => acc
                    end)) [] kvs
  = map (member_text indent') kvs.
Proof.
  induction 1 as [|[k x] l [t Et] Hl IH]; [reflexivity|].
  simpl in *. rewrite IH, Et, (member_text_eq _ _ _ _ Et). reflexivity.
Qed.

Lemma reads_text (indent : jsstring) (x : value) :
  reads indent x ->
  exists t, serialize indent x = Some t /\ starts_token t = true.
Proof.
  intros H. destruct (H [] [] (2 * weight x)%nat eq_refl eq_refl (le_n _))
    as (t & E & T & _).
  eauto.
Qed.

Lemma reads_null (indent : jsstring) : reads indent VNull.
Proof.
  intros pre rest fuel Hpre Hrest Hf. exists (str "null").
  split; [reflexivity|]. split; [reflexivity|].
  destruct fuel as [|f]; [simpl in Hf; lia|].
  rewrite parse_value_S, (skip_ws_app _ _ Hpre). reflexivity.
Qed.

Lemma reads_bool (indent : jsstring) (b : bool) : reads indent (VBool b).
Proof.
  intros pre rest fuel Hpre Hrest Hf.
  exists (if b then str "true" else str "false").
  split; [destruct b; reflexivity|]. split; [destruct b; reflexivity|].
  destruct fuel as [|f]; [simpl in Hf; lia|].
  rewrite parse_value_S, (skip_ws_app _ _ Hpre). destruct b; reflexivity.
Qed.

Lemma reads_string (indent s : jsstring) : reads indent (VStr s).
Proof.
  intros pre rest fuel Hpre Hrest Hf. exists (quote s).
  split; [reflexivity|]. split; [reflexivity|].
  destruct fuel as [|f]; [simpl in Hf; lia|].
  rewrite parse_value_S, (skip_ws_app _ _ Hpre).
  unfold quote. rewrite <- !app_assoc.
  change ([34%N] ++ quote_units s ++ [34%N] ++ rest)
    with (34%N :: quote_units s ++ 34%N :: rest).
  rewrite skip_ws_cons by reflexivity.
  change ((34 =? 123)%N) with false. change ((34 =? 91)%N) with false.
  change ((34 =? 34)%N) with true. cbv iota.
  rewrite parse_quote_units. reflexivity.
Qed.

Lemma reads_number (indent : jsstring) (n : Number.number) :
  number_survives n = true -> reads indent (VNum n).
Proof.
  intros Hn pre rest fuel Hpre Hrest Hf.
  destruct (number_survives_parse n Hn) as [Hfin Hp].
  exists (Number.toString n).
  destruct (parse_number_head _ _ _ Hp) as (c & t' & Et & Hc).
  assert (Hc' : is_ws c = false /\ (c =? 123)%N = false /\ (c =? 91)%N = false
                /\ (c =? 34)%N = false /\ (c =? 93)%N = false
                /\ (c =? 125)%N = false).
  { unfold is_ws, is_digit in *.
    rewrite orb_true_iff, andb_true_iff, N.eqb_eq, !N.leb_le in Hc.
    rewrite !orb_false_iff, !N.eqb_neq. lia. }
  destruct Hc' as (W & C1 & C2 & C3 & C4 & C5).
  split; [simpl; rewrite Hfin; reflexivity|].
  split; [rewrite Et; simpl; rewrite W, C4, C5; reflexivity|].
  destruct fuel as [|f]; [simpl in Hf; lia|].
  rewrite parse_value_S, (skip_ws_app _ _ Hpre).
  pose proof (parse_number_app _ rest _ _ Hrest Hp) as Hp'.
  rewrite Et in *. rewrite <- app_comm_cons in *.
  rewrite skip_ws_cons by exact W.
  rewrite C1, C2, C3, Hc, Hp'. reflexivity.
Qed.


Lemma wrap_cons (open close indent indent' p : jsstring) (ps : list jsstring) :
  wrap open close indent indent' (p :: ps)
  = open ++ newline ++ indent' ++ join (str "," ++ newline ++ indent') (p :: ps)
    ++ newline ++ indent ++ close.
Proof. reflexivity. Qed.

Lemma join_token (sep : jsstring) (p : jsstring) (ps : list jsstring) (s : jsstring) :
  starts_token p = true -> starts_token (join sep (p :: ps) ++ s) = true.
Proof.
  intros H. destruct ps as [|q ps].
  - rewrite join_single. apply starts_token_app, H.
  - rewrite join_cons2, <- app_assoc. apply starts_token_app, H.
Qed.

Lemma after_close (u : jsstring) (c : N) :
  starts_token u = true -> c = 93%N \/ c = 125%N ->
  after c (skip_ws u) = None.
Proof.
  intros Hu Hc. rewrite <- (app_nil_r u). apply after_token_close; assumption.
Qed.

Lemma reads_array (indent : jsstring) (l : list value) :
  forallb is_ws indent = true ->
  Forall (reads (indent ++ gap)) l -> reads indent (VArr l).
Proof.
  intros Hi Hl pre rest fuel Hpre Hrest Hf.
  assert (Hi' : forallb is_ws (indent ++ gap) = true)
    by (rewrite forallb_app, Hi; reflexivity).
  set (indent' := indent ++ gap) in *.
  exists (wrap (str "[") (str "]") indent indent'
            (map (element_text indent') l)).
  split; [reflexivity|].
  destruct fuel as [|f]; [simpl in Hf; lia|].
  destruct l as [|x l].
  - split; [reflexivity|].
    rewrite parse_value_S, (skip_ws_app _ _ Hpre). reflexivity.
  - change (map (element_text indent') (x :: l))
      with (element_text indent' x :: map (element_text indent') l).
    rewrite wrap_cons. split; [reflexivity|].
    rewrite parse_value_S, (skip_ws_app _ _ Hpre).
    set (J := join (str "," ++ newline ++ indent')
                (element_text indent' x :: map (element_text indent') l)).
    assert (E : (str "[" ++ newline ++ indent' ++ J ++ newline ++ indent
                 ++ str "]") ++ rest
                = 91%N :: (newline ++ indent') ++ J ++ newline ++ indent
                  ++ str "]" ++ rest)
      by (rewrite <- !app_assoc; reflexivity).
    rewrite E, skip_ws_cons by reflexivity.
    change ((91 =? 123)%N) with false. change ((91 =? 91)%N) with true.
    cbv iota.
    rewrite (skip_ws_app (newline ++ indent')) by (apply ws_newline_indent, Hi').
    assert (HJ : forall s, starts_token (J ++ s) = true).
    { intros s. subst J. apply join_token.
      inversion Hl as [|? ? Hx _]; subst.
      destruct (reads_text _ _ Hx) as (t & Et & Tt).
      unfold element_text. rewrite Et. exact Tt. }
    rewrite (after_close _ 93 (HJ _)) by auto.
    assert (Pe : parse_elements f
                   ((newline ++ indent') ++ J ++ newline ++ indent
                    ++ str "]" ++ rest) = Some (x :: l, rest)).
    { apply (parse_elements_texts indent indent' (x :: l));
        [exact Hl | discriminate | exact Hi | exact Hi'
        | apply ws_newline_indent, Hi' |].
      change (weight (VArr (x :: l))) with (S (weights (x :: l))) in Hf.
      lia. }
    rewrite Pe.
    reflexivity.
Qed.


Lemma weight_object (o : gmap jsstring value) :
  weight (VObj o) = S (weights ((map_to_list o).*2)).
Proof.
  simpl. rewrite map_fold_foldr. f_equal. unfold weights.
  induction (map_to_list o) as [|[k x] l IH]; [reflexivity|].
  simpl. rewrite IH. reflexivity.
Qed.

Lemma serialize_object (indent : jsstring) (o : gmap jsstring value) :
  map_Forall (fun _ x => reads (indent ++ gap) x) o ->
  serialize indent (VObj o)
  = Some (wrap (str "{") (str "}") indent (indent ++ gap)
            (map (member_text (indent ++ gap)) (map_to_list o))).
Proof.
  intros Ho. simpl. rewrite map_fold_foldr, members_fold; [reflexivity|].
  apply map_Forall_to_list in Ho.
  eapply Forall_impl; [exact Ho|].
  intros [k x] Hx. simpl in *.
  destruct (reads_text _ _ Hx) as (t & Et & _). eauto.
Qed.

Lemma reads_object (indent : jsstring) (o : gmap jsstring value) :
  forallb is_ws indent = true ->
  map_Forall (fun _ x => reads (indent ++ gap) x) o -> reads indent (VObj o).
Proof.
  intros Hi Ho pre rest fuel Hpre Hrest Hf.
  assert (Hi' : forallb is_ws (indent ++ gap) = true)
    by (rewrite forallb_app, Hi; reflexivity).
  rewrite (serialize_object _ _ Ho).
  set (indent' := indent ++ gap) in *.
  eexists. split; [reflexivity|].
  rewrite weight_object in Hf.
  destruct fuel as [|f]; [lia|].
  pose proof (list_to_map_reverse o) as Eo.
  apply map_Forall_to_list in Ho.
  destruct (map_to_list o) as [|[k x] l] eqn:El.
  - simpl in Eo. subst o. split; [reflexivity|].
    rewrite parse_value_S, (skip_ws_app _ _ Hpre). reflexivity.
  - change (map (member_text indent') ((k, x) :: l))
      with (member_text indent' (k, x) :: map (member_text indent') l).
    rewrite wrap_cons. split; [reflexivity|].
    rewrite parse_value_S, (skip_ws_app _ _ Hpre).
    set (J := join (str "," ++ newline ++ indent')
                (member_text indent' (k, x) :: map (member_text indent') l)).
    assert (E : (str "{" ++ newline ++ indent' ++ J ++ newline ++ indent
                 ++ str "}") ++ rest
                = 123%N :: (newline ++ indent') ++ J ++ newline ++ indent
                  ++ str "}" ++ rest)
      by (rewrite <- !app_assoc; reflexivity).
    rewrite E, skip_ws_cons by reflexivity.
    change ((123 =? 123)%N) with true. cbv iota.
    rewrite (skip_ws_app (newline ++ indent')) by (apply ws_newline_indent, Hi').
    assert (HJ : forall s, starts_token (J ++ s) = true).
    { intros s. subst J. apply join_token. reflexivity. }
    rewrite (after_close _ 125 (HJ _)) by auto.
    assert (Pe : parse_members f
                   ((newline ++ indent') ++ J ++ newline ++ indent
                    ++ str "}" ++ rest) = Some ((k, x) :: l, rest)).
    { apply (parse_members_texts indent indent' ((k, x) :: l));
        [| discriminate | exact Hi | exact Hi'
        | apply ws_newline_indent, Hi' | lia].
      eapply Forall_impl; [exact Ho|]. intros [k' x'] H. exact H. }
    rewrite Pe, Eo. reflexivity.
Qed.

(** A value without [undefined] whose numbers survive is read back from
    the text that [serialize] writes, whatever the indentation. *)
Theorem reads_value (v : value) :
  defined v = true -> survives v = true ->
  forall indent, forallb is_ws indent = true -> reads indent v.
Proof.
  induction v as [| | b | n | s | l IH | o IH] using value_induction;
    intros Hd Hs indent Hi.
  - discriminate Hd.
  - apply reads_null.
  - apply reads_bool.
  - apply reads_number. exact Hs.
  - apply reads_string.
  - apply reads_array; [exact Hi|].
    simpl in Hd, Hs. rewrite forallb_forall in Hd, Hs.
    rewrite Forall_forall in IH |- *. intros x Hx.
    apply IH; auto using list_elem_of_In.
    + apply Hd. apply list_elem_of_In. exact Hx.
    + apply Hs. apply list_elem_of_In. exact Hx.
    + rewrite forallb_app, Hi. reflexivity.
  - apply reads_object; [exact Hi|].
    simpl in Hd, Hs. apply map_fold_and in Hd. apply map_fold_and in Hs.
    intros k x Hx. apply (IH k x Hx); eauto.
    rewrite forallb_app, Hi. reflexivity.
Qed.

(** *** What the parser returns *)

Ltac parser_case :=
  match goal with
  | H : context [match ?x with _ => _ end] |- _ =>
      lazymatch x with
      | context [match _ with _ => _ end] => fail
      | _ => destruct x eqn:?; try discriminate H
      end
  end.

(** [JSON.parse] returns no [undefined]. *)
Lemma parse_defined (fuel : nat) :
  (forall s v r, parse_value fuel s = Some (v, r) -> defined v = true)
  /\ (forall s vs r, parse_elements fuel s = Some (vs, r) ->
        forallb defined vs = true)
  /\ (forall s kvs r, parse_members fuel s = Some (kvs, r) ->
        Forall (fun kv => defined kv.2 = true) kvs).
Proof.
  induction fuel as [|f (IHv & IHe & IHm)].
  - repeat split; intros; discriminate.
  - split; [|split].
    + intros s v r H. rewrite parse_value_S in H.
      repeat parser_case; injection H as <- <-; try reflexivity.
      all: try (simpl; eauto; fail).
      simpl. apply map_fold_and. intros k x Hx.
      apply elem_of_list_to_map_2 in Hx. rewrite elem_of_reverse in Hx.
      match goal with
      | H : parse_members _ _ = Some _ |- _ =>
          apply IHm in H; rewrite Forall_forall in H; exact (H _ Hx)
      end.
    + intros s vs r H. rewrite parse_elements_S in H.
      repeat parser_case; injection H as <- <-; simpl.
      * apply andb_true_intro. split; eauto.
      * rewrite andb_true_r. eauto.
    + intros s kvs r H. rewrite parse_members_S in H.
      repeat parser_case; injection H as <- <-.
      * constructor; simpl; eauto.
      * constructor; simpl; eauto.
Qed.

(** *** The numbers that the parser returns *)

Lemma parse_number_double (s r : jsstring) (n : Number.number) :
  parse_number s = Some (n, r) -> Number.is_double n = true.
Proof.
  unfold parse_number. destruct (after 45 s) as [s1 |].
  all: repeat match goal with
         | |- context [match ?x with _ => _ end] =>
             lazymatch x with
             | context [match _ with _ => _ end] => fail
             | _ => destruct x as [[? ?] |]; try discriminate
             end
         end.
  all: intros E; injection E as <- <-; apply of_decimal_double.
Qed.

(** [JSON.parse] returns binary64 numbers. *)
Lemma parse_doubles (fuel : nat) :
  (forall s v r, parse_value fuel s = Some (v, r) -> doubles v = true)
  /\ (forall s vs r, parse_elements fuel s = Some (vs, r) ->
        forallb doubles vs = true)
  /\ (forall s kvs r, parse_members fuel s = Some (kvs, r) ->
        Forall (fun kv => doubles kv.2 = true) kvs).
Proof.
  induction fuel as [|f (IHv & IHe & IHm)].
  - repeat split; intros; discriminate.
  - split; [|split].
    + intros s v r H. rewrite parse_value_S in H.
      repeat parser_case; injection H as <- <-; try reflexivity.
      all: try (simpl; eauto using parse_number_double; fail).
      simpl. apply map_fold_and. intros k x Hx.
      apply elem_of_list_to_map_2 in Hx. rewrite elem_of_reverse in Hx.
      match goal with
      | H : parse_members _ _ = Some _ |- _ =>
          apply IHm in H; rewrite Forall_forall in H; exact (H _ Hx)
      end.
    + intros s vs r H. rewrite parse_elements_S in H.
      repeat parser_case; injection H as <- <-; simpl.
      * apply andb_true_intro. split; eauto.
      * rewrite andb_true_r. eauto.
    + intros s kvs r H. rewrite parse_members_S in H.
      repeat parser_case; injection H as <- <-.
      * constructor; simpl; eauto.
      * constructor; simpl; eauto.
Qed.

(** The finite binary64 numbers survive. *)
Lemma doubles_survive (v : value) :
  doubles v = true -> finite v = true -> survives v = true.
Proof.
  induction v as [| | b | n | s | l IH | o IH] using value_induction;
    intros Hd Hf; try reflexivity.
  - exact (double_survives n Hd Hf).
  - simpl in *. rewrite forallb_forall in Hd, Hf |- *.
    rewrite Forall_forall in IH. intros x Hx.
    apply IH; [apply list_elem_of_In; exact Hx | exact (Hd x Hx) | exact (Hf x Hx)].
  - simpl in *. rewrite map_fold_and in Hd, Hf |- *.
    intros k x Hx. apply (IH k x Hx); eauto.
Qed.

(** *** The text is long enough for the fuel that [parse] gives *)

Lemma defined_serialize (indent : jsstring) (v : value) :
  defined v = true -> is_Some (serialize indent v).
Proof. destruct v as [| | [] | | | |]; simpl; try discriminate; eauto. Qed.

Lemma join_length (sep : jsstring) (parts : list jsstring) :
  (foldr (fun p acc => length p + acc) 0 parts <= length (join sep parts))%nat.
Proof.
  induction parts as [|p [|q ps] IH]; simpl in *.
  - lia.
  - lia.
  - rewrite !length_app. lia.
Qed.

Lemma wrap_length (open close indent indent' : jsstring)
  (parts : list jsstring) :
  (length open + foldr (fun p acc => length p + acc) 0 parts
   <= length (wrap open close indent indent' parts))%nat.
Proof.
  destruct parts as [|p ps].
  - simpl. rewrite length_app. lia.
  - rewrite wrap_cons, !length_app.
    pose proof (join_length (str "," ++ newline ++ indent') (p :: ps)). lia.
Qed.

Lemma texts_length {A : Type} (w : A -> nat) (text : A -> jsstring)
  (l : list A) :
  Forall (fun x => (w x <= length (text x))%nat) l ->
  (foldr (fun x acc => w x + acc) 0 l
   <= foldr (fun p acc => length p + acc) 0 (map text l))%nat.
Proof.
  induction 1 as [|x l Hx Hl IH]; [reflexivity|]. cbn [map foldr]. lia.
Qed.

Lemma weights_snd (kvs : list (jsstring * value)) :
  weights (kvs.*2) = foldr (fun kv acc => weight kv.2 + acc)%nat 0%nat kvs.
Proof.
  induction kvs as [|kv l IH]; [reflexivity|].
  rewrite fmap_cons, weights_cons, IH. reflexivity.
Qed.

Lemma serialize_array (indent : jsstring) (l : list value) :
  serialize indent (VArr l)
  = Some (wrap (str "[") (str "]") indent (indent ++ gap)
            (map (element_text (indent ++ gap)) l)).
Proof. reflexivity. Qed.

Lemma serialize_object_fold (indent : jsstring) (o : gmap jsstring value) :
  serialize indent (VObj o)
  = Some (wrap (str "{") (str "}") indent (indent ++ gap)
            (map_fold (fun k x acc =>
                         match serialize (indent ++ gap) x with
                         | Some t => (quote k ++ str ": " ++ t) :: acc
                         | None => acc
                         end) [] o)).
Proof. reflexivity. Qed.

Lemma weight_le_text (v : value) :
  defined v = true -> survives v = true ->
  forall indent t, serialize indent v = Some t -> (weight v <= length t)%nat.
Proof.
  induction v as [| | b | n | s | l IH | o IH] using value_induction;
    intros Hd Hs indent t Ht.
  - discriminate Hd.
  - injection Ht as <-. simpl. lia.
  - destruct b; injection Ht as <-; simpl; lia.
  - destruct (number_survives_parse n Hs) as [Hfin Hp].
    simpl in Ht. rewrite Hfin in Ht. injection Ht as <-.
    destruct (parse_number_head _ _ _ Hp) as (c & t' & -> & _). simpl. lia.
  - injection Ht as <-. unfold quote. rewrite !length_app. simpl. lia.
  - rewrite serialize_array in Ht. injection Ht as <-.
    pose proof (wrap_length (str "[") (str "]") indent (indent ++ gap)
                  (map (element_text (indent ++ gap)) l)) as Hw.
    change (length (str "[")) with 1%nat in Hw.
    change (weight (VArr l)) with (S (weights l)).
    enough (weights l
            <= foldr (fun p acc => length p + acc) 0
                 (map (element_text (indent ++ gap)) l))%nat by lia.
    clear Hw.
    apply (texts_length weight (element_text (indent ++ gap))).
    unfold element_text.
    simpl in Hd, Hs. rewrite forallb_forall in Hd, Hs.
    rewrite Forall_forall in IH |- *. intros x Hx.
    assert (Hdx : defined x = true) by (apply Hd, list_elem_of_In, Hx).
    destruct (defined_serialize (indent ++ gap) x Hdx) as [tx Ex].
    rewrite Ex.
    exact (IH x Hx Hdx (Hs x (proj1 (list_elem_of_In _ _) Hx)) _ _ Ex).
  - rewrite weight_object.
    simpl in Hd, Hs. apply map_fold_and in Hd. apply map_fold_and in Hs.
    rewrite serialize_object_fold, map_fold_foldr, members_fold in Ht.
    2:{ apply map_Forall_to_list in Hd. eapply Forall_impl; [exact Hd|].
        intros [k x] Hx. apply defined_serialize. exact Hx. }
    injection Ht as <-.
    pose proof (wrap_length (str "{") (str "}") indent (indent ++ gap)
                  (map (member_text (indent ++ gap)) (map_to_list o))) as Hw.
    change (length (str "{")) with 1%nat in Hw.
    enough (weights ((map_to_list o).*2)
            <= foldr (fun p acc => length p + acc) 0
                 (map (member_text (indent ++ gap)) (map_to_list o)))%nat
      by lia.
    clear Hw. rewrite weights_snd.
    apply (texts_length (fun kv => weight kv.2) (member_text (indent ++ gap))).
    apply Forall_forall. intros [k x] Hx.
    apply elem_of_map_to_list in Hx. cbn [snd].
    pose proof (Hd k x Hx) as Hdx. simpl in Hdx.
    destruct (defined_serialize (indent ++ gap) x Hdx) as [tx Ex].
    rewrite (member_text_eq _ _ _ _ Ex), !length_app.
    pose proof (IH k x Hx Hdx (Hs k x Hx) _ _ Ex). lia.
Qed.

(** [JSON.parse(JSON.stringify(v, null, 2))] is [v], for a [v] without
    [undefined] whose numbers survive. *)
Theorem parse_stringify (v : value) :
  defined v = true -> survives v = true ->
  exists t, stringify v = Some t /\ parse t = Some v.
Proof.
  intros Hd Hs. unfold stringify.
  destruct (defined_serialize [] v Hd) as [t Et].
  exists t. split; [exact Et|].
  pose proof (weight_le_text v Hd Hs [] t Et) as Hw.
  destruct (reads_value v Hd Hs [] eq_refl [] [] (2 * length t + 2)%nat
              eq_refl eq_refl ltac:(lia)) as (t' & Et' & _ & Pt).
  rewrite Et in Et'. injection Et' as <-.
  unfold parse. rewrite app_nil_r in Pt. simpl app in Pt. rewrite Pt.
  reflexivity.
Qed.

End JSONProps.

(** ** The result editor *)

Module EditorProps.
Import Editor JSONProps.

(** C5.  Loading a file whose text does not parse leaves the state, the
    document and the buffer of the editor among it, exactly as it was, and
    shows the error message; loading a file whose text parses puts the
    parsed value in the document and the raw text of the file in the
    buffer. *)
Theorem load_json_spec (content : jsstring) (others : list jsstring)
  (st : State) :
  match JSON.parse content with
  | None =>
      handleLoadJson (content :: others) st = (st, [Alert msg_load_error])
  | Some parsed =>
      handleLoadJson (content :: others) st
      = ({| loading := loading st;
            generatedData := parsed;
            jsonContent := content |},
         [Alert msg_loaded])
  end.
Proof.
  unfold handleLoadJson, onload. destruct (JSON.parse content); reflexivity.
Qed.

Lemma parse_is_defined (content : jsstring) (v : value) :
  JSON.parse content = Some v -> JSON.defined v = true.
Proof.
  unfold JSON.parse. intros H.
  destruct (JSON.parse_value _ content) as [[v' r]|] eqn:E; [|discriminate H].
  destruct (JSON.skip_ws r); [|discriminate H]. injection H as <-.
  exact (proj1 (parse_defined _) _ _ _ E).
Qed.

Lemma parse_is_doubles (content : jsstring) (v : value) :
  JSON.parse content = Some v -> JSON.doubles v = true.
Proof.
  unfold JSON.parse. intros H.
  destruct (JSON.parse_value _ content) as [[v' r]|] eqn:E; [|discriminate H].
  destruct (JSON.skip_ws r); [|discriminate H]. injection H as <-.
  exact (proj1 (parse_doubles _) _ _ _ E).
Qed.

(** C6, as the specification states it, fails for a file with a number
    beyond the range of the doubles: [1e400] is well formed and is loaded as
    [Infinity], which is saved as [null]. *)
Lemma overflow_is_saved_as_null :
  let content := str "1e400" in
  let loaded := (handleLoadJson [content] initial).1 in
  JSON.parse content = Some (VNum Number.PosInf)
  /\ (handleDownload 1700000000000 loaded).2
     = [Download (str "bootcamp_1700000000000.json") (str "application/json")
          (str "null")]
  /\ JSON.parse (str "null") = Some VNull.
Proof. repeat split; vm_compute; reflexivity. Qed.

(** C6, amended.  For every file that parses to a value in which every
    number is finite, loading the file and saving at once gives a text that
    parses to the value that the file parses to. *)
Theorem load_save_round_trip (content : jsstring) (others : list jsstring)
  (v : value) (now : Z) (st : State) :
  JSON.parse content = Some v -> JSON.finite v = true ->
  let loaded := (handleLoadJson (content :: others) st).1 in
  exists text,
    (handleDownload now loaded).2
    = [Download (str "bootcamp_" ++ Date.decimal now ++ str ".json")
         (str "application/json") text]
    /\ JSON.parse text = Some v.
Proof.
  intros Hp Hf loaded. subst loaded.
  unfold handleLoadJson, onload. rewrite Hp. unfold handleDownload.
  cbn [fst snd jsonContent]. rewrite Hp.
  pose proof (doubles_survive v (parse_is_doubles _ _ Hp) Hf) as Hs.
  destruct (parse_stringify v (parse_is_defined _ _ Hp) Hs) as (t & Et & Pt).
  exists t. rewrite Et. split; [reflexivity | exact Pt].
Qed.

Lemma load_save_round_trip_witness :
  let content :=
    Scenario.json_text
      "{'identitas':{'nama':'Web Dev','durasi':8,'kapasitas':25},'modules':[{'minggu':1,'jam':2.5,'topik':['HTML','CSS']}],'aktif':true,'catatan':null}" in
  exists v text,
    JSON.parse content = Some v
    /\ (handleDownload 1700000000000 (handleLoadJson [content] initial).1).2
       = [Download (str "bootcamp_1700000000000.json")
            (str "application/json") text]
    /\ JSON.parse text = Some v.
Proof.
  intros content.
  assert (H : exists v, JSON.parse content = Some v /\ JSON.finite v = true).
  { eexists. split.
    - vm_compute. reflexivity.
    - vm_compute. reflexivity. }
  destruct H as (v & Hp & Hs).
  destruct (load_save_round_trip content [] v 1700000000000 initial Hp Hs)
    as (text & Hd & Ht).
  exists v, text. auto.
Defined.

End EditorProps.

(** ** The servers: what a request does and what it is answered *)

Module ServerProps.
Import Api ApiProps NumberProps JSONProps ServerDefs Samples.

Ltac allowed :=
  repeat match goal with
         | |- Forall _ (_ :: _) =>
             constructor;
             [first [reflexivity | split; reflexivity
                    | left; reflexivity | right; reflexivity] |]
         | |- Forall _ [] => constructor
         end.

Ltac summary :=
  let H := fresh in
  intros H; injection H as <- <-;
  eexists _, _; split; [reflexivity |];
  split; [cbn [status json]; rewrite !elem_of_cons; auto 6 |];
  split; [first [symmetry; apply app_nil_r
                | cbn [trace]; rewrite <- ?app_assoc; reflexivity] |];
  cbn [app];
  split; [allowed |];
  first [ let Hs := fresh in
          intros Hs; exfalso; apply Hs; reflexivity
        | intros _; allowed ].

(** What a request to the route comes to. *)
Lemma next_summary (env : Env) (req : Request) (w w' : World)
  (r : result Response) :
  next_handler env req w = (r, w') ->
  exists resp evs,
    r = Ok resp
    /\ status resp ∈ [200; 400; 405; 500]
    /\ trace w' = trace w ++ evs
    /\ Forall (generate_event
                 (temp_file (str "bootcamp_") (clock env (ticks w))
                    (str ".json"))) evs
    /\ (status resp <> 200 -> Forall (fun e => is_unlink e = false) evs).
Proof. unfold next_handler, next_generate. step. cases; summary. Qed.

Lemma express_summary (env : Env) (req : Request) (w w' : World)
  (r : result Response) :
  express_generate env req w = (r, w') ->
  exists resp evs,
    r = Ok resp
    /\ status resp ∈ [200; 400; 500]
    /\ trace w' = trace w ++ evs
    /\ Forall (generate_event
                 (temp_file (str "bootcamp_") (clock env (ticks w))
                    (str ".json"))) evs
    /\ (status resp <> 200 -> Forall (fun e => is_unlink e = false) evs).
Proof. unfold express_generate, express_generate_body. step. cases; summary. Qed.

Lemma convert_summary (env : Env) (req : Request) (w w' : World)
  (r : result Response) :
  express_convert env req w = (r, w') ->
  exists resp evs,
    r = Ok resp
    /\ status resp ∈ [200; 400; 500]
    /\ trace w' = trace w ++ evs
    /\ Forall (convert_event
                 (temp_file (str "bootcamp_") (clock env (ticks w))
                    (str ".json"))
                 (temp_file (str "bootcamp_") (clock env (ticks w))
                    (str ".docx"))) evs
    /\ (status resp <> 200 -> Forall (fun e => is_unlink e = false) evs).
Proof. unfold express_convert, express_convert_body. step. cases; summary. Qed.

(** X1.  Every request is answered: no exception leaves a handler, and the
    status is one of those the source names. *)
Theorem handlers_answer (env : Env) (req : Request) (w : World) :
  (exists resp w', next_handler env req w = (Ok resp, w')
                   /\ status resp ∈ [200; 400; 405; 500])
  /\ (exists resp w', express_generate env req w = (Ok resp, w')
                      /\ status resp ∈ [200; 400; 500])
  /\ (exists resp w', express_convert env req w = (Ok resp, w')
                      /\ status resp ∈ [200; 400; 500]).
Proof.
  split; [| split].
  - destruct (next_handler env req w) as [r w'] eqn:E.
    destruct (next_summary _ _ _ _ _ E) as (resp & evs & -> & Hs & _).
    eauto.
  - destruct (express_generate env req w) as [r w'] eqn:E.
    destruct (express_summary _ _ _ _ _ E) as (resp & evs & -> & Hs & _).
    eauto.
  - destruct (express_convert env req w) as [r w'] eqn:E.
    destruct (convert_summary _ _ _ _ _ E) as (resp & evs & -> & Hs & _).
    eauto.
Qed.

(** X2.  A request touches no file but its own temporary files: every call into
    the operating system is one of those of [generate_event], respectively
    [convert_event], for the paths made from the first reading of the clock.  A
    generate request writes no file itself. *)
Theorem own_files_only (env : Env) (req : Request) (w w' : World)
  (r : result Response) :
  let jsonPath :=
    temp_file (str "bootcamp_") (clock env (ticks w)) (str ".json") in
  let docxPath :=
    temp_file (str "bootcamp_") (clock env (ticks w)) (str ".docx") in
  (next_handler env req w = (r, w') \/ express_generate env req w = (r, w') ->
   exists evs, trace w' = trace w ++ evs
               /\ Forall (generate_event jsonPath) evs)
  /\ (express_convert env req w = (r, w') ->
      exists evs, trace w' = trace w ++ evs
                  /\ Forall (convert_event jsonPath docxPath) evs).
Proof.
  cbv zeta. split.
  - intros [H | H].
    + destruct (next_summary _ _ _ _ _ H) as (resp & evs & _ & _ & T & F & _).
      eauto.
    + destruct (express_summary _ _ _ _ _ H) as (resp & evs & _ & _ & T & F & _).
      eauto.
  - intros H.
    destruct (convert_summary _ _ _ _ _ H) as (resp & evs & _ & _ & T & F & _).
    eauto.
Qed.

Lemma own_files_only_witness :
  let env := Scenario.environment
               (Scenario.writes (Scenario.json_text "{'modules':[]}"))
               Scenario.no_io_error in
  let out := next_handler env (Scenario.post Scenario.web_dev) Scenario.start in
  exists evs,
    trace out.2 = evs
    /\ Forall (generate_event
                 (temp_file (str "bootcamp_") 1700000000000 (str ".json")))
         evs.
Proof.
  intros env out.
  destruct (own_files_only env (Scenario.post Scenario.web_dev) Scenario.start
              out.2 out.1) as [H _].
  destruct H as (evs & E & F).
  - left. apply surjective_pairing.
  - exists evs. split; [exact E | exact F].
Defined.

(** X3.  No [unlink] is tried on a request that is not answered 200: the
    temporary files of a failing request are left where they are. *)
Theorem no_unlink_on_failure (env : Env) (req : Request) (w w' : World)
  (resp : Response) :
  status resp <> 200 ->
  next_handler env req w = (Ok resp, w')
  \/ express_generate env req w = (Ok resp, w')
  \/ express_convert env req w = (Ok resp, w') ->
  exists evs, trace w' = trace w ++ evs
              /\ Forall (fun e => is_unlink e = false) evs.
Proof.
  intros Hs [H | [H | H]].
  - destruct (next_summary _ _ _ _ _ H) as (resp' & evs & E & _ & T & _ & U).
    injection E as <-. eauto.
  - destruct (express_summary _ _ _ _ _ H) as (resp' & evs & E & _ & T & _ & U).
    injection E as <-. eauto.
  - destruct (convert_summary _ _ _ _ _ H) as (resp' & evs & E & _ & T & _ & U).
    injection E as <-. eauto.
Qed.

Lemma no_unlink_on_failure_witness :
  let env := Scenario.environment (Scenario.fails (str "Command failed"))
               Scenario.no_io_error in
  let out := express_convert env (Scenario.post Scenario.document)
               Scenario.start in
  exists evs, trace out.2 = evs /\ Forall (fun e => is_unlink e = false) evs.
Proof.
  intros env out.
  destruct (no_unlink_on_failure env (Scenario.post Scenario.document)
              Scenario.start out.2
              (json 500 (failure (str "Command failed"))))
    as (evs & E & F).
  - discriminate.
  - right. right. rewrite (surjective_pairing (express_convert _ _ _)).
    apply (f_equal2 pair); [vm_compute; reflexivity | reflexivity].
  - exists evs. split; [exact E | exact F].
Defined.

Lemma required_cases (b : value) :
  (exists k, k ∈ required /\ truthy (get_prop b k) = false)
  \/ (truthy (get_prop b (str "nama")) = true
      /\ truthy (get_prop b (str "durasi")) = true
      /\ truthy (get_prop b (str "level")) = true
      /\ truthy (get_prop b (str "deskripsi")) = true).
Proof.
  assert (R : forall k, k ∈ [str "nama"; str "durasi"; str "level";
                              str "deskripsi"] -> k ∈ required)
    by (intros k H; exact H).
  destruct (truthy (get_prop b (str "nama"))) eqn:E1;
    [| left; exists (str "nama"); split; [apply R; rewrite !elem_of_cons; auto | exact E1]].
  destruct (truthy (get_prop b (str "durasi"))) eqn:E2;
    [| left; exists (str "durasi"); split; [apply R; rewrite !elem_of_cons; auto | exact E2]].
  destruct (truthy (get_prop b (str "level"))) eqn:E3;
    [| left; exists (str "level"); split; [apply R; rewrite !elem_of_cons; auto | exact E3]].
  destruct (truthy (get_prop b (str "deskripsi"))) eqn:E4;
    [| left; exists (str "deskripsi"); split;
       [apply R; rewrite !elem_of_cons; auto | exact E4]].
  right. auto.
Qed.

Lemma required_truthy (b : value) (k : jsstring) :
  truthy (get_prop b (str "nama")) = true ->
  truthy (get_prop b (str "durasi")) = true ->
  truthy (get_prop b (str "level")) = true ->
  truthy (get_prop b (str "deskripsi")) = true ->
  k ∈ required -> truthy (get_prop b k) = true.
Proof.
  intros H1 H2 H3 H4. unfold required. rewrite !elem_of_cons, elem_of_nil.
  intros [-> | [-> | [-> | [-> | []]]]]; assumption.
Qed.

Ltac not_400 H1 H2 H3 H4 :=
  leaf; simpl; (split; [lia |]);
  let k := fresh in
  let Hk := fresh in
  let Hf := fresh in
  intros (_ & k & Hk & Hf);
  rewrite (required_truthy _ k H1 H2 H3 H4 Hk) in Hf; discriminate.

Lemma next_bad_request (env : Env) (req : Request) (w w' : World)
  (resp : Response) :
  method req = str "POST" -> next_handler env req w = (Ok resp, w') ->
  status resp = 400 <-> missing req.
Proof.
  unfold missing. intros Hm. destruct (nullish (body req)) eqn:Hb.
  - unfold next_handler, next_generate. rewrite Hm, Hb. step.
    intros E. injection E as <- <-. simpl. split; [lia | intros []; discriminate].
  - destruct (required_cases (body req)) as [(k & Hk & Hf) | (H1 & H2 & H3 & H4)].
    + rewrite (next_rejects env req w k Hm Hb Hk Hf).
      intros E. injection E as <- <-. simpl. split; [eauto | reflexivity].
    + unfold next_handler, next_generate. rewrite Hm, Hb, H1, H2, H3, H4.
      step. cases; not_400 H1 H2 H3 H4.
Qed.

Lemma express_bad_request (env : Env) (req : Request) (w w' : World)
  (resp : Response) :
  express_generate env req w = (Ok resp, w') ->
  status resp = 400 <-> missing req.
Proof.
  unfold missing. destruct (nullish (body req)) eqn:Hb.
  - unfold express_generate, express_generate_body. rewrite Hb. step.
    intros E. injection E as <- <-. simpl. split; [lia | intros []; discriminate].
  - destruct (required_cases (body req)) as [(k & Hk & Hf) | (H1 & H2 & H3 & H4)].
    + rewrite (express_rejects env req w k Hb Hk Hf).
      intros E. injection E as <- <-. simpl. split; [eauto | reflexivity].
    + unfold express_generate, express_generate_body.
      rewrite Hb, H1, H2, H3, H4.
      step. cases; not_400 H1 H2 H3 H4.
Qed.

Lemma convert_bad_request (env : Env) (req : Request) (w w' : World)
  (resp : Response) :
  express_convert env req w = (Ok resp, w') ->
  status resp = 400
  <-> truthy (body req) = false
      \/ truthy (get_prop (body req) (str "identitas")) = false.
Proof.
  unfold express_convert, express_convert_body.
  destruct (truthy (body req)) eqn:Hb;
    [destruct (truthy (get_prop (body req) (str "identitas"))) eqn:Hi |].
  - step. cases; leaf.
    all: simpl; split; [lia | intros [? | ?]; discriminate].
  - step. intros E. injection E as <- <-. simpl. split; [auto | reflexivity].
  - step. intros E. injection E as <- <-. simpl. split; [auto | reflexivity].
Qed.

(** X4.  The 400 answer is kept for a request that lacks a field: a generate
    request (a POST, for the Next.js route) is answered 400 exactly when its
    body is there and one of the four required fields is falsy, a convert
    request exactly when its body or the block [identitas] is falsy. *)
Theorem bad_request_iff (env : Env) (req : Request) (w w' : World)
  (resp : Response) :
  (method req = str "POST" -> next_handler env req w = (Ok resp, w') ->
   (status resp = 400 <-> missing req))
  /\ (express_generate env req w = (Ok resp, w') ->
      (status resp = 400 <-> missing req))
  /\ (express_convert env req w = (Ok resp, w') ->
      (status resp = 400
       <-> truthy (body req) = false
           \/ truthy (get_prop (body req) (str "identitas")) = false)).
Proof.
  split; [| split].
  - apply next_bad_request.
  - apply express_bad_request.
  - apply convert_bad_request.
Qed.

Lemma bad_request_iff_witness :
  missing (Scenario.post Scenario.web_dev_without_deskripsi).
Proof.
  pose (env := Scenario.environment (Scenario.writes []) Scenario.no_io_error).
  pose (req := Scenario.post Scenario.web_dev_without_deskripsi).
  pose (resp := json 400 (failure (str "Missing required fields"))).
  destruct (bad_request_iff env req Scenario.start Scenario.start resp)
    as [H _].
  apply (H eq_refl).
  - vm_compute. reflexivity.
  - reflexivity.
Defined.

(** *** Failures of the script *)






(** X7.  An additional context that is truthy and not a string (a number, an
    array, an object) has no [replace]: the server answers 500 after it made
    the directory, and runs no script. *)
Theorem express_context_not_string (env : Env) (req : Request) (w : World) :
  let additional_context := get_prop (body req) (str "additional_context") in
  nullish (body req) = false ->
  truthy (get_prop (body req) (str "nama")) = true ->
  truthy (get_prop (body req) (str "durasi")) = true ->
  truthy (get_prop (body req) (str "level")) = true ->
  truthy (get_prop (body req) (str "deskripsi")) = true ->
  truthy additional_context = true ->
  (forall s, additional_context <> VStr s) ->
  io_error env (EMkdir temp) = None ->
  express_generate env req w
  = (Ok (json 500 (failure (message_or_unknown env (TypeError (str "replace"))))),
     {| files := files w; ticks := S (ticks w);
        trace := trace w ++ [EMkdir temp] |}).
Proof.
  intros additional_context Hb H1 H2 H3 H4 Hc Hs Hmk.
  unfold express_generate, express_generate_body, try_catch.
  rewrite Hb. fold additional_context. rewrite H1, H2, H3, H4, Hc.
  step. rewrite Hmk. step.
  destruct additional_context; try reflexivity.
  exfalso. exact (Hs _ eq_refl).
Qed.

Lemma express_context_not_string_witness :
  let env := Scenario.environment (Scenario.writes []) Scenario.no_io_error in
  let req := Scenario.post
               (VObj (<[str "additional_context" := VInt 5]>
                        (<[str "nama" := VString "Web Dev"]>
                        (<[str "durasi" := VInt 8]>
                        (<[str "level" := VString "Beginner"]>
                        (<[str "deskripsi" := VString "Learn web dev"]> ∅)))))) in
  (express_generate env req Scenario.start).1
  = Ok (json 500 (failure (str "engine error"))).
Proof.
  intros env req.
  rewrite (express_context_not_string env req Scenario.start).
  - reflexivity.
  - reflexivity.
  - reflexivity.
  - reflexivity.
  - reflexivity.
  - reflexivity.
  - reflexivity.
  - intros s H. vm_compute in H. discriminate H.
  - reflexivity.
Defined.

(** X8.  A convert request whose script exits with code zero and leaves a DOCX
    file is answered 200 with the content of that file, as an attachment named
    [bootcamp_curriculum.docx]; the script was given the document as
    [JSON.stringify(body, null, 2)] writes it, in the JSON file of the
    request. *)
Theorem convert_sends_docx (env : Env) (req : Request) (w : World)
  (text stdout stderr docx : jsstring) (f : gmap path jsstring) :
  let jsonPath :=
    temp_file (str "bootcamp_") (clock env (ticks w)) (str ".json") in
  let docxPath :=
    temp_file (str "bootcamp_") (clock env (ticks w)) (str ".docx") in
  truthy (get_prop (body req) (str "identitas")) = true ->
  JSON.stringify (body req) = Some text ->
  io_error env (EWriteFile jsonPath text) = None ->
  run env (convert_command jsonPath docxPath) 60000
    (<[jsonPath := text]> (files w)) = (Exited stdout stderr, f) ->
  io_error env (EReadFile docxPath) = None ->
  f !! docxPath = Some docx ->
  exists w',
    express_convert env req w
    = (Ok {| status := 200; headers := docx_headers; sent := Buffer docx |}, w')
    /\ trace w'
       = trace w ++ [EWriteFile jsonPath text;
                     EExec (convert_command jsonPath docxPath) 60000;
                     EReadFile docxPath; EUnlink jsonPath; EUnlink docxPath].
Proof.
  intros jsonPath docxPath Hi Ht Hw Hrun Hr Hf. subst jsonPath docxPath.
  unfold express_convert, express_convert_body, try_catch.
  rewrite Hi, orb_false_r.
  assert (Hb : truthy (body req) = true).
  { destruct (body req); try reflexivity; discriminate Hi. }
  rewrite Hb. step. rewrite Ht. step. rewrite Hw. step. rewrite Hrun. step.
  rewrite Hr. step. rewrite Hf. step.
  cases; eexists; (split; [reflexivity |]); cbn [trace];
    rewrite <- ?app_assoc; reflexivity.
Qed.

Lemma convert_sends_docx_witness :
  let env := Scenario.environment (Scenario.writes (str "PK"))
               Scenario.no_io_error in
  exists w',
    express_convert env (Scenario.post Scenario.document) Scenario.start
    = (Ok {| status := 200; headers := docx_headers;
             sent := Buffer (str "PK") |}, w').
Proof.
  intros env.
  destruct (convert_sends_docx env (Scenario.post Scenario.document)
              Scenario.start
              (default [] (JSON.stringify Scenario.document)) [] [] (str "PK")
              (<[temp_file (str "bootcamp_") 1700000000000 (str ".docx")
                 := str "PK"]>
               (<[temp_file (str "bootcamp_") 1700000000000 (str ".json")
                  := default [] (JSON.stringify Scenario.document)]> ∅)))
    as (w' & E & _).
  - reflexivity.
  - vm_compute. reflexivity.
  - reflexivity.
  - reflexivity.
  - reflexivity.
  - vm_compute. reflexivity.
  - exists w'. exact E.
Defined.

Lemma convert_writes_body (env : Env) (req : Request) (w w' : World)
  (r : result Response) (raw : jsstring) :
  JSON.parse raw = Some (body req) -> JSON.finite (body req) = true ->
  truthy (get_prop (body req) (str "identitas")) = true ->
  express_convert env req w = (r, w') ->
  exists text rest,
    trace w'
    = trace w
      ++ EWriteFile
           (temp_file (str "bootcamp_") (clock env (ticks w)) (str ".json"))
           text :: rest
    /\ JSON.parse text = Some (body req).
Proof.
  intros Hp Hfin Hi.
  pose proof (EditorProps.parse_is_defined _ _ Hp) as Hd.
  pose proof (doubles_survive _ (EditorProps.parse_is_doubles _ _ Hp) Hfin) as Hs.
  destruct (parse_stringify _ Hd Hs) as (text & Et & Pt).
  assert (Hb : truthy (body req) = true).
  { destruct (body req); try reflexivity; discriminate Hi. }
  unfold express_convert, express_convert_body, try_catch.
  rewrite Hi, Hb. step. rewrite Et. step.
  cases; leaf.
  all: exists text; eexists; (split; [| exact Pt]);
    rewrite <- ?app_assoc; reflexivity.
Qed.

(** X9.  The converter is given the posted document: the first thing a convert
    request does, for a body that the request text was parsed to and that
    holds no infinite number, is to write at its JSON path a text that parses
    back to this body. *)
Theorem convert_input_round_trip (env : Env) (req : Request) (w w' : World)
  (r : result Response) (raw : jsstring) :
  let jsonPath :=
    temp_file (str "bootcamp_") (clock env (ticks w)) (str ".json") in
  JSON.parse raw = Some (body req) -> JSON.finite (body req) = true ->
  truthy (get_prop (body req) (str "identitas")) = true ->
  express_convert env req w = (r, w') ->
  exists text rest,
    trace w' = trace w ++ EWriteFile jsonPath text :: rest
    /\ JSON.parse text = Some (body req).
Proof. cbv zeta. apply convert_writes_body. Qed.

Lemma convert_input_round_trip_witness :
  let env := Scenario.environment (Scenario.writes (str "PK"))
               Scenario.no_io_error in
  let raw :=
    Scenario.json_text "{'identitas':{'nama':'Web Dev','durasi':8},'modules':[]}" in
  let req := Scenario.post (default VNull (JSON.parse raw)) in
  exists text rest,
    trace (express_convert env req Scenario.start).2
    = EWriteFile (temp_file (str "bootcamp_") 1700000000000 (str ".json")) text
      :: rest
    /\ JSON.parse text = Some (body req).
Proof.
  intros env raw req.
  destruct (convert_input_round_trip env req Scenario.start
              (express_convert env req Scenario.start).2
              (express_convert env req Scenario.start).1 raw)
    as (text & rest & E & P).
  - vm_compute. reflexivity.
  - vm_compute. reflexivity.
  - vm_compute. reflexivity.
  - apply surjective_pairing.
  - exists text, rest. split; [exact E | exact P].
Defined.

(** *** The route and the server on the same failure *)







(** *** The command line, the temporary files and the code *)

Lemma replace_newlines_clean (s : jsstring) (x : N) :
  x ∈ replace_newlines s -> x <> 10%N /\ x <> 13%N.
Proof.
  induction s as [| c s IH]; simpl; [intros H; inversion H |].
  destruct ((c =? 13) || (c =? 10))%N eqn:E.
  - destruct s as [| d s']; [rewrite list_elem_of_singleton; intros ->; lia |].
    destruct ((d =? 13) || (d =? 10))%N; [exact IH |].
    rewrite elem_of_cons. intros [-> | H]; [lia | exact (IH H)].
  - rewrite elem_of_cons. intros [-> | H]; [| exact (IH H)].
    apply orb_false_iff in E as [E1 E2].
    apply N.eqb_neq in E1, E2. auto.
Qed.

Lemma escape_quotes_elem (s : jsstring) (x : N) :
  x ∈ escape_quotes s -> x ∈ s \/ x = 92%N.
Proof.
  unfold escape_quotes. induction s as [| c s IH]; simpl; [auto |].
  rewrite elem_of_app. intros [H | H].
  - destruct (c =? 34)%N eqn:E.
    + apply N.eqb_eq in E. subst c.
      rewrite !elem_of_cons, elem_of_nil in H.
      destruct H as [-> | [-> | []]]; [right; reflexivity | left; left].
    + apply list_elem_of_singleton in H. subst x. left. left.
  - destruct (IH H) as [H' | H']; [left; right; exact H' | right; exact H'].
Qed.

Lemma escape_quotes_escaped (s : jsstring) (i : nat) :
  escape_quotes s !! i = Some 34%N ->
  exists j, i = S j /\ escape_quotes s !! j = Some 92%N.
Proof.
  unfold escape_quotes. revert i. induction s as [| c s IH]; intros i; simpl;
    [rewrite lookup_nil; discriminate |].
  destruct (c =? 34)%N eqn:E; simpl.
  - destruct i as [| [| i]]; simpl; [discriminate | eauto |].
    intros H. destruct (IH i H) as (j & -> & Hj). exists (S (S j)). auto.
  - destruct i as [| i]; simpl.
    + intros H. injection H as ->. discriminate E.
    + intros H. destruct (IH i H) as (j & -> & Hj). exists (S j). auto.
Qed.

Lemma sanitise_plain (s : jsstring) :
  (forall x, x ∈ s -> x <> 10%N /\ x <> 13%N /\ x <> 34%N) ->
  escape_quotes (replace_newlines s) = s.
Proof.
  unfold escape_quotes. induction s as [| c s IH]; intros H; [reflexivity |].
  destruct (H c ltac:(left)) as (H1 & H2 & H3).
  simpl.
  rewrite (proj2 (N.eqb_neq c 13) H2), (proj2 (N.eqb_neq c 10) H1). simpl.
  rewrite (proj2 (N.eqb_neq c 34) H3). simpl. f_equal.
  apply IH. intros x Hx. apply H. right. exact Hx.
Qed.

(** X13.  The context that the server puts on the command line, for a context
    that is a string: it holds no line break, each of its double quotes comes
    right after a backslash, and a context without line breaks and double
    quotes is passed as it is. *)
Theorem context_sanitised (s : jsstring) :
  let context := express_context (VStr s) in
  (forall x, x ∈ context -> x <> 10%N /\ x <> 13%N)
  /\ (forall i, context !! i = Some 34%N ->
        exists j, i = S j /\ context !! j = Some 92%N)
  /\ ((forall x, x ∈ s -> x <> 10%N /\ x <> 13%N /\ x <> 34%N) -> context = s).
Proof.
  cbv zeta. unfold express_context. split; [| split].
  - intros x Hx. destruct (escape_quotes_elem _ _ Hx) as [H | ->]; [| lia].
    exact (replace_newlines_clean _ _ H).
  - apply escape_quotes_escaped.
  - apply sanitise_plain.
Qed.

Lemma context_sanitised_witness :
  express_context (VStr (str "plain")) = str "plain".
Proof.
  apply (context_sanitised (str "plain")).
  intros x Hx. vm_compute in Hx.
  repeat (apply elem_of_cons in Hx as [-> | Hx]; [repeat split; discriminate |]).
  inversion Hx.
Defined.

(** *** The names of the temporary files *)

Lemma digits_shape (z : Z) :
  0 <= z ->
  forallb JSON.is_digit (Number.digits z) = true /\ Number.digits z <> []
  /\ JSON.digits_value (Number.digits z) = z.
Proof.
  intros Hz. destruct (digits_spec z Hz) as (Hd & Hv & H0 & Hp).
  split; [exact Hd |]. split; [| exact Hv].
  destruct (Z.eq_dec z 0) as [-> | Hn]; [rewrite (H0 eq_refl); discriminate |].
  destruct (Hp ltac:(lia)) as [B _]. unfold Number.ndigits in B.
  intros E. rewrite E in B. simpl in B. lia.
Qed.

Lemma decimal_inj (t t' : Z) : Date.decimal t = Date.decimal t' -> t = t'.
Proof.
  unfold Date.decimal.
  destruct (t <? 0) eqn:E; destruct (t' <? 0) eqn:E';
    try apply Z.ltb_lt in E; try apply Z.ltb_ge in E;
    try apply Z.ltb_lt in E'; try apply Z.ltb_ge in E'; intros H.
  - change (str "-") with [45%N] in H. simpl app in H.
    injection H as H.
    destruct (digits_shape (- t) ltac:(lia)) as (_ & _ & V).
    destruct (digits_shape (- t') ltac:(lia)) as (_ & _ & V').
    apply (f_equal JSON.digits_value) in H. lia.
  - destruct (digits_shape t' E') as (D & N0 & _).
    destruct (Number.digits t') as [| c r]; [congruence |].
    change (str "-") with [45%N] in H. simpl in H. injection H as <- _.
    simpl in D. discriminate D.
  - destruct (digits_shape t E) as (D & N0 & _).
    destruct (Number.digits t) as [| c r]; [congruence |].
    change (str "-") with [45%N] in H. simpl in H. injection H as -> _.
    simpl in D. discriminate D.
  - destruct (digits_shape t E) as (_ & _ & V).
    destruct (digits_shape t' E') as (_ & _ & V').
    apply (f_equal JSON.digits_value) in H. lia.
Qed.

(** X14.  Requests that read different times from the clock have different
    temporary files: the name of a temporary file determines the time it was
    made from. *)
Theorem temp_file_inj (stem ext : jsstring) (t t' : Z) :
  temp_file stem t ext = temp_file stem t' ext -> t = t'.
Proof.
  unfold temp_file. intros H. injection H as H.
  apply app_inv_head, app_inv_tail in H. exact (decimal_inj _ _ H).
Qed.

Lemma temp_file_inj_witness : 1700000000000 = 1700000000000.
Proof.
  apply (temp_file_inj (str "bootcamp_") (str ".json")). reflexivity.
Defined.

(** *** The code of a bootcamp *)

Lemma digits_value_bound (ds : jsstring) :
  forallb JSON.is_digit ds = true ->
  0 <= JSON.digits_value ds < 10 ^ Z.of_nat (length ds).
Proof.
  induction ds as [| c ds IH]; intros H; [simpl; unfold JSON.digits_value; simpl; lia |].
  simpl in H. apply andb_true_iff in H as [Hc Hd].
  rewrite digits_value_cons. cbn [length].
  rewrite Nat2Z.inj_succ, Z.pow_succ_r by lia.
  apply is_digit_range in Hc. specialize (IH Hd).
  assert (0 < 10 ^ Z.of_nat (length ds)) by (apply Z.pow_pos_nonneg; lia).
  nia.
Qed.

Lemma digits_value_inj (a b : jsstring) :
  length a = length b ->
  forallb JSON.is_digit a = true -> forallb JSON.is_digit b = true ->
  JSON.digits_value a = JSON.digits_value b -> a = b.
Proof.
  revert b. induction a as [| c a IH]; intros [| d b] L Ha Hb V;
    try discriminate L; [reflexivity |].
  simpl in L. injection L as L.
  simpl in Ha, Hb. apply andb_true_iff in Ha as [Hc Ha].
  apply andb_true_iff in Hb as [Hd Hb].
  rewrite !digits_value_cons, L in V.
  pose proof (digits_value_bound a Ha) as Ba.
  pose proof (digits_value_bound b Hb) as Bb. rewrite L in Ba.
  apply is_digit_range in Hc, Hd.
  assert (0 < 10 ^ Z.of_nat (length b)) by (apply Z.pow_pos_nonneg; lia).
  assert (Z.of_N (c - 48) = Z.of_N (d - 48)) by nia.
  assert (c = d) by lia. subst d. f_equal.
  apply IH; [exact L | exact Ha | exact Hb | nia].
Qed.

Lemma replicate_zeros (n : nat) :
  forallb JSON.is_digit (replicate n 48%N) = true
  /\ JSON.digits_value (replicate n 48%N) = 0.
Proof.
  induction n as [| n [IH1 IH2]]; [split; reflexivity |].
  cbn [replicate]. split; [simpl; exact IH1 |].
  rewrite digits_value_cons, IH2. simpl. lia.
Qed.

Lemma pad_shape (width : nat) (r : Z) :
  0 <= r < 10 ^ Z.of_nat width -> (1 <= width)%nat ->
  length (Date.pad width r) = width
  /\ forallb JSON.is_digit (Date.pad width r) = true
  /\ JSON.digits_value (Date.pad width r) = r.
Proof.
  intros Hr Hw. unfold Date.pad, Date.decimal.
  rewrite (proj2 (Z.ltb_ge r 0)) by lia.
  destruct (digits_shape r ltac:(lia)) as (D & N0 & V).
  assert (L : (length (Number.digits r) <= width)%nat).
  { destruct (Z.eq_dec r 0) as [-> | Hn].
    - destruct (digits_spec 0 ltac:(lia)) as (_ & _ & H0 & _).
      rewrite (H0 eq_refl). simpl. lia.
    - destruct (digits_spec r ltac:(lia)) as (_ & _ & _ & Hp).
      destruct (Hp ltac:(lia)) as [[B1 B2] _]. unfold Number.ndigits in *.
      assert (10 ^ (Z.of_nat (length (Number.digits r)) - 1)
              < 10 ^ Z.of_nat width) by lia.
      apply Z.pow_lt_mono_r_iff in H; [lia | lia | lia]. }
  destruct (replicate_zeros (width - length (Number.digits r))) as [Z1 Z2].
  split; [rewrite length_app, length_replicate; lia |].
  split; [rewrite forallb_app, Z1, D; reflexivity |].
  rewrite digits_value_app, Z2, V. lia.
Qed.

(** X15.  The code that the server gives a bootcamp is [BOOT-] and the time
    modulo one million, written with six digits: the codes repeat after one
    million milliseconds. *)
Theorem express_kode_period (t : Z) :
  100000 <= t ->
  let kode (t : Z) := str "BOOT-" ++ last6 (Date.decimal t) in
  kode t = str "BOOT-" ++ Date.pad 6 (t mod 1000000)
  /\ kode (t + 1000000) = kode t.
Proof.
  intros Ht.
  assert (K : forall u, 100000 <= u ->
            last6 (Date.decimal u) = Date.pad 6 (u mod 1000000)).
  { intros u Hu. unfold last6, Date.decimal.
    rewrite (proj2 (Z.ltb_ge u 0)) by lia.
    destruct (digits_spec u ltac:(lia)) as (D & V & _ & Hp).
    destruct (Hp ltac:(lia)) as [[B1 B2] _]. unfold Number.ndigits in *.
    set (ds := Number.digits u) in *.
    assert (L : (6 <= length ds)%nat).
    { assert (10 ^ 5 < 10 ^ Z.of_nat (length ds)) by (change (10 ^ 5) with 100000; lia).
      apply Z.pow_lt_mono_r_iff in H; lia. }
    pose proof (Z.mod_pos_bound u 1000000 ltac:(lia)) as Hm.
    destruct (pad_shape 6 (u mod 1000000) ltac:(exact Hm) ltac:(lia))
      as (P1 & P2 & P3).
    assert (Dd : forallb JSON.is_digit (drop (length ds - 6) ds) = true).
    { rewrite <- (take_drop (length ds - 6) ds), forallb_app in D.
      apply andb_true_iff in D. tauto. }
    assert (Dt : forallb JSON.is_digit (take (length ds - 6) ds) = true).
    { rewrite <- (take_drop (length ds - 6) ds), forallb_app in D.
      apply andb_true_iff in D. tauto. }
    assert (Ld : length (drop (length ds - 6) ds) = 6%nat)
      by (rewrite length_drop; lia).
    apply digits_value_inj; [lia | exact Dd | exact P2 |].
    rewrite P3.
    rewrite <- (take_drop (length ds - 6) ds), digits_value_app, Ld in V.
    pose proof (digits_value_bound _ Dd) as Bd. rewrite Ld in Bd.
    change (10 ^ Z.of_nat 6) with 1000000 in *.
    apply (Z.mod_unique_pos u 1000000
             (JSON.digits_value (take (length ds - 6) ds))); lia. }
  cbv beta zeta. rewrite !K by lia. split; [reflexivity |].
  do 2 f_equal.
  replace (t + 1000000) with (t + 1 * 1000000) by lia.
  apply Z.mod_add. lia.
Qed.

Lemma express_kode_period_witness :
  str "BOOT-" ++ last6 (Date.decimal 1700001000001)
  = str "BOOT-" ++ last6 (Date.decimal 1700000000001).
Proof.
  apply (express_kode_period 1700000000001). lia.
Defined.

End ServerProps.

(** ** The change of a field *)

Module FormEventsProps.
Import Form FormEvents FormProps NumberProps Samples.

(** An integer of at most 53 bits is a Number value. *)
Lemma of_Z_exact (z : Z) :
  - 2 ^ 53 < z < 2 ^ 53 -> integer (Number.of_Z z) = Some z.
Proof.
  assert (P : forall p : positive, Z.pos p < 2 ^ 53 ->
            exists m e, Number.of_Z (Z.pos p) = Number.Finite m e
                        /\ 0 <= e /\ m * 2 ^ e = Z.pos p).
  { intros p Hp. destruct (Number.odd_part p) as [q t] eqn:E.
    destruct (odd_part_spec p q t E) as (V & T & O).
    pose proof (pow2_pos t T) as Pt.
    assert (Hq : Z.pos q < 2 ^ 53) by nia.
    destruct (round_pos_exact (Z.pos p) 1 (Z.pos q) t 0 t) as (u & Hu & R);
      try lia.
    - assert (Z.log2 (Z.pos p) = t + Z.log2 (Z.pos q))
        by (rewrite V; apply Z.log2_mul_pow2; lia).
      assert (Z.log2 (Z.pos p) < 53) by (apply Z.log2_lt_pow2; lia). lia.
    - exists (Z.pos q), t. unfold Number.of_Z, Number.of_ratio.
      rewrite R, normalize_shift by exact Hu.
      replace (t - u + u) with t by lia.
      rewrite (normalize_odd _ _ O). auto with lia. }
  intros Hz. destruct z as [| p | p].
  - reflexivity.
  - destruct (P p ltac:(lia)) as (m & e & E & He & V).
    rewrite E. simpl. rewrite (proj2 (Z.leb_le 0 e) He), V. reflexivity.
  - destruct (P p ltac:(lia)) as (m & e & E & He & V).
    change (Z.neg p) with (- Z.pos p). unfold Number.of_Z in *.
    rewrite of_ratio_opp, E. simpl.
    rewrite (proj2 (Z.leb_le 0 e) He). f_equal. lia.
Qed.

Lemma digit_not_white (c : N) :
  JSON.is_digit c = true -> is_js_whitespace c = false.
Proof.
  intros H. apply is_digit_range in H. unfold is_js_whitespace.
  repeat match goal with
         | |- context [(c =? ?k)%N] =>
             rewrite (proj2 (N.eqb_neq c k)) by lia
         end.
  rewrite (proj2 (N.leb_gt 8192 c)) by lia. reflexivity.
Qed.

Lemma trimStart_digit (c : N) (s : jsstring) :
  JSON.is_digit c = true -> trimStart (c :: s) = c :: s.
Proof. intros H. simpl. rewrite (digit_not_white c H). reflexivity. Qed.

(** The text of a number, followed by something that is not a digit, is
    read as that number by [parseInt]. *)
Lemma parseInt_decimal (n : Z) (rest : jsstring) :
  0 <= n -> JSON.no_digit_head rest ->
  (n = 0 -> JSON.after 120 rest = None /\ JSON.after 88 rest = None) ->
  parseInt (Date.decimal n ++ rest) = Some n.
Proof.
  intros Hn Hr Hx. unfold Date.decimal. rewrite (proj2 (Z.ltb_ge n 0)) by lia.
  destruct (digits_spec n Hn) as (D & V & H0 & Hp).
  unfold parseInt.
  destruct (Number.digits n) as [| c ds] eqn:E.
  { destruct (Z.eq_dec n 0) as [-> | Hne]; [discriminate (H0 eq_refl) |].
    destruct (Hp ltac:(lia)) as [B _]. unfold Number.ndigits in B.
    rewrite E in B. simpl in B. lia. }
  assert (Hc : JSON.is_digit c = true).
  { simpl in D. apply andb_true_iff in D. tauto. }
  rewrite <- app_comm_cons, (trimStart_digit c _ Hc).
  pose proof (is_digit_range c Hc) as Rc.
  rewrite (proj2 (N.eqb_neq c 45)), (proj2 (N.eqb_neq c 43)) by lia.
  assert (A : after_0x (c :: ds ++ rest) = None).
  { destruct (Z.eq_dec n 0) as [-> | Hne].
    - injection (H0 eq_refl) as -> ->.
      destruct (Hx eq_refl) as [X1 X2]. simpl.
      destruct rest as [| x r]; [reflexivity |].
      simpl in X1, X2.
      destruct (x =? 120)%N; [discriminate |].
      destruct (x =? 88)%N; [discriminate |]. reflexivity.
    - destruct (Hp ltac:(lia)) as [_ Hh]. simpl in Hh.
      unfold after_0x. destruct (ds ++ rest); [reflexivity |].
      rewrite (proj2 (N.eqb_neq c 48)) by congruence. reflexivity. }
  rewrite A, app_comm_cons, (span_digits_all _ _ D Hr), V.
  f_equal. lia.
Qed.

(** A text that does not start as a number does is NaN for [parseInt]. *)
Lemma parseInt_NaN (value : jsstring) :
  not_a_number value -> parseInt value = None.
Proof.
  unfold not_a_number, parseInt.
  destruct (trimStart value) as [| c r]; [reflexivity |].
  intros (D & H1 & H2).
  rewrite (proj2 (N.eqb_neq c 45) H1), (proj2 (N.eqb_neq c 43) H2).
  assert (A : after_0x (c :: r) = None).
  { unfold after_0x. destruct r; [reflexivity |].
    destruct (c =? 48)%N eqn:E; [| reflexivity].
    apply N.eqb_eq in E. subst c. discriminate D. }
  rewrite A. simpl. rewrite D. reflexivity.
Qed.

(** X16.  Typing the decimal text of an integer [n] below 2^53 into the
    duration, followed by anything that does not start with a digit ([24.9],
    [12 weeks]), sets the duration to [n]: [parseInt] reads the digits at the
    head.  The error of the duration is taken away, and the other fields are
    left as they are.  (After [0], the rest is not to start with [x] or [X]:
    that would be a hexadecimal literal.) *)
Theorem durasi_reads_leading_integer (n : Z) (rest : jsstring) (st : State) :
  0 <= n < 2 ^ 53 -> JSON.no_digit_head rest ->
  (n = 0 -> JSON.after 120 rest = None /\ JSON.after 88 rest = None) ->
  handleChange Durasi (Date.decimal n ++ rest) st
  = Some {| formData :=
              {| nama := nama (formData st); durasi := n;
                 level := level (formData st);
                 deskripsi := deskripsi (formData st);
                 additional_context := additional_context (formData st) |};
            errors := clear_error (str "durasi") (errors st) |}.
Proof.
  intros Hn Hr Hx. unfold handleChange, set_field, parseInt_or_0.
  rewrite (parseInt_decimal n rest ltac:(lia) Hr Hx).
  rewrite (of_Z_exact n ltac:(lia)). reflexivity.
Qed.

Lemma durasi_reads_leading_integer_witness :
  handleChange Durasi (str "24.9") blank_form
  = Some {| formData :=
              {| nama := []; durasi := 24; level := str "Beginner";
                 deskripsi := []; additional_context := [] |};
            errors := ∅ |}.
Proof.
  exact (durasi_reads_leading_integer 24 (str ".9") blank_form
           ltac:(lia) ltac:(reflexivity) ltac:(discriminate)).
Defined.

(** X17.  A text that does not start as a number does (the empty text, [abc])
    sets the duration to [0], never to NaN; submitting then calls no handler
    and reports the error of the duration. *)
Theorem durasi_not_a_number (value : jsstring) (st : State) :
  not_a_number value ->
  exists st',
    handleChange Durasi value st = Some st'
    /\ durasi (formData st') = 0
    /\ calls (handleSubmit st') = []
    /\ errors (state (handleSubmit st')) !! str "durasi" = Some msg_durasi.
Proof.
  intros H. unfold handleChange, set_field, parseInt_or_0.
  rewrite (parseInt_NaN value H).
  eexists. split; [reflexivity |]. split; [reflexivity |].
  unfold handleSubmit.
  match goal with |- context [validate ?s] =>
    pose proof (validate_answer s) as Ha;
    destruct (validate s) as [st2 ok] eqn:Ev end.
  simpl in Ha. subst ok. unfold valid, durasi_ok. simpl.
  rewrite andb_false_r. simpl. split; [reflexivity |].
  unfold validate in Ev. injection Ev as <-. simpl.
  rewrite newErrors_lookup. reflexivity.
Qed.

Lemma durasi_not_a_number_witness :
  exists st', handleChange Durasi (str "abc") blank_form = Some st'
              /\ durasi (formData st') = 0.
Proof.
  destruct (durasi_not_a_number (str "abc") blank_form) as (st' & E & D & _).
  - vm_compute. repeat split; discriminate.
  - exists st'. split; [exact E | exact D].
Defined.

Lemma clear_error_lookup (k k' : jsstring) (e : gmap jsstring jsstring) :
  (forall m, e !! k = Some m -> m <> []) ->
  clear_error k e !! k' = if bool_decide (k' = k) then None else e !! k'.
Proof.
  intros H. unfold clear_error. destruct (e !! k) as [m |] eqn:E.
  - destruct m as [| c m]; [exfalso; exact (H _ eq_refl eq_refl) |]. simpl.
    case_bool_decide as D.
    + subst. apply lookup_delete_eq.
    + apply lookup_delete_ne. congruence.
  - case_bool_decide as D; [subst; exact E | reflexivity].
Qed.

(** X18.  After [validate()], a change of a field takes the error of that field
    away, whatever the new value is, and leaves the errors of the other fields
    as [validate()] set them. *)
Theorem change_clears_error (f : field) (value : jsstring) (st st' : State)
  (k : jsstring) :
  handleChange f value (validate st).1 = Some st' ->
  errors st' !! k
  = if bool_decide (k = name f) then None else expected_errors (formData st) k.
Proof.
  unfold handleChange. simpl.
  destruct (set_field f value (formData st)) as [fd |]; [| discriminate].
  simpl. intros E. injection E as <-. simpl.
  rewrite clear_error_lookup.
  - case_bool_decide; [reflexivity | apply newErrors_lookup].
  - intros m. rewrite newErrors_lookup. unfold expected_errors, entry.
    repeat case_bool_decide; try discriminate.
    + destruct (nama_ok _); [discriminate |]. intros E ->. discriminate E.
    + destruct (durasi_ok _); [discriminate |]. intros E ->. discriminate E.
    + destruct (deskripsi_ok _); [discriminate |]. intros E ->. discriminate E.
Qed.

Lemma change_clears_error_witness :
  let st' := {| formData :=
                  {| nama := str "Web Dev"; durasi := 8;
                     level := str "Beginner"; deskripsi := [];
                     additional_context := [] |};
                errors := <[str "deskripsi" := msg_deskripsi]> ∅ |} in
  handleChange Nama (str "Web Dev") (validate blank_form).1 = Some st'
  /\ errors st' !! str "nama" = None
  /\ errors st' !! str "deskripsi" = Some msg_deskripsi.
Proof.
  intros st'.
  assert (H : handleChange Nama (str "Web Dev") (validate blank_form).1
              = Some st') by (vm_compute; reflexivity).
  split; [exact H |]. split.
  - exact (change_clears_error Nama (str "Web Dev") blank_form st'
             (str "nama") H).
  - exact (change_clears_error Nama (str "Web Dev") blank_form st'
             (str "deskripsi") H).
Defined.

End FormEventsProps.

(** ** JSON without a gap: what is written is read back *)

Module WireProps.
Import JSON Wire NumberProps JSONProps.

(** *** Numbers before a closing bracket *)

Lemma closes_head (c : N) (rest : jsstring) :
  closes (c :: rest) = true ->
  is_digit c = false /\ c <> 46%N /\ c <> 101%N /\ c <> 69%N /\ c <> 48%N
  /\ c <> 43%N /\ c <> 45%N.
Proof.
  unfold closes, is_digit.
  rewrite !orb_true_iff, !N.eqb_eq.
  intros [[-> | ->] | ->]; repeat split; discriminate.
Qed.

Lemma span_digits_closes (s rest ds r : jsstring) :
  closes rest = true ->
  span_digits s = (ds, r) -> span_digits (s ++ rest) = (ds, r ++ rest).
Proof.
  intros Hd. revert ds r. induction s as [|c s IH]; intros ds r H.
  - simpl in H. injection H as <- <-. simpl.
    destruct rest as [|c rest]; [reflexivity|].
    simpl. destruct (closes_head c rest Hd) as [-> _]. reflexivity.
  - simpl in *. destruct (is_digit c).
    + destruct (span_digits s) as [ds' r'] eqn:E.
      injection H as <- <-. rewrite (IH ds' r' eq_refl). reflexivity.
    + injection H as <- <-. reflexivity.
Qed.

Lemma after_closes (c : N) (s rest : jsstring) :
  closes rest = true -> after c s = None ->
  c = 48%N \/ c = 46%N \/ c = 43%N \/ c = 45%N ->
  after c (s ++ rest) = None.
Proof.
  intros Hd H Hc.
  destruct s as [|c' s];
    [|simpl in *; destruct (c' =? c)%N; [discriminate H | reflexivity]].
  destruct rest as [|d rest]; [reflexivity|]. simpl.
  destruct (closes_head d rest Hd) as (_ & H1 & _ & _ & H2 & H3 & H4).
  destruct (d =? c)%N eqn:E; [|reflexivity].
  apply N.eqb_eq in E. subst d.
  destruct Hc as [Hc | [Hc | [Hc | Hc]]]; congruence.
Qed.

Lemma parse_int_closes (s rest ip r : jsstring) :
  closes rest = true ->
  parse_int s = Some (ip, r) -> parse_int (s ++ rest) = Some (ip, r ++ rest).
Proof.
  intros Hd H. unfold parse_int in *.
  destruct (after 48 s) as [r0|] eqn:E.
  - injection H as <- <-. rewrite (after_app _ _ _ _ E). reflexivity.
  - rewrite (after_closes _ _ _ Hd E) by auto.
    destruct (span_digits s) as [ds r'] eqn:Es.
    rewrite (span_digits_closes _ _ _ _ Hd Es).
    destruct ds; [discriminate H|]. injection H as <- <-. reflexivity.
Qed.

Lemma parse_frac_closes (s rest fp r : jsstring) :
  closes rest = true ->
  parse_frac s = Some (fp, r) -> parse_frac (s ++ rest) = Some (fp, r ++ rest).
Proof.
  intros Hd H. unfold parse_frac in *.
  destruct (after 46 s) as [r0|] eqn:E.
  - rewrite (after_app _ _ _ _ E).
    destruct (span_digits r0) as [ds r'] eqn:Es.
    rewrite (span_digits_closes _ _ _ _ Hd Es).
    destruct ds; [discriminate H|]. injection H as <- <-. reflexivity.
  - rewrite (after_closes _ _ _ Hd E) by auto.
    injection H as <- <-. reflexivity.
Qed.

Lemma parse_exp_closes (s rest r : jsstring) (x : Z) :
  closes rest = true ->
  parse_exp s = Some (x, r) -> parse_exp (s ++ rest) = Some (x, r ++ rest).
Proof.
  intros Hd H. unfold parse_exp in *.
  destruct s as [|c s].
  - injection H as <- <-. simpl.
    destruct rest as [|d rest]; [reflexivity|].
    destruct (closes_head d rest Hd) as (_ & _ & H1 & H2 & _).
    rewrite (proj2 (N.eqb_neq d 101) H1), (proj2 (N.eqb_neq d 69) H2).
    reflexivity.
  - rewrite <- app_comm_cons.
    destruct ((c =? 101) || (c =? 69))%N.
    + destruct (after 43 s) as [r1|] eqn:E1.
      * rewrite (after_app _ _ _ _ E1).
        destruct (span_digits r1) as [ds r'] eqn:Es.
        rewrite (span_digits_closes _ _ _ _ Hd Es).
        destruct ds; [discriminate H|]. injection H as <- <-. reflexivity.
      * rewrite (after_closes _ _ _ Hd E1) by auto.
        destruct (after 45 s) as [r1|] eqn:E2.
        -- rewrite (after_app _ _ _ _ E2).
           destruct (span_digits r1) as [ds r'] eqn:Es.
           rewrite (span_digits_closes _ _ _ _ Hd Es).
           destruct ds; [discriminate H|]. injection H as <- <-. reflexivity.
        -- rewrite (after_closes _ _ _ Hd E2) by auto.
           destruct (span_digits s) as [ds r'] eqn:Es.
           rewrite (span_digits_closes _ _ _ _ Hd Es).
           destruct ds; [discriminate H|]. injection H as <- <-. reflexivity.
    + injection H as <- <-. reflexivity.
Qed.

(** A number followed by a comma or a closing bracket is read as the
    number alone. *)
Lemma parse_number_closes (s rest r : jsstring) (n : Number.number) :
  closes rest = true ->
  parse_number s = Some (n, r) ->
  parse_number (s ++ rest) = Some (n, r ++ rest).
Proof.
  intros Hd H. unfold parse_number in *.
  assert (E : exists neg s1,
             match after 45 s with
             | Some s1 => (true, s1)
             | None => (false, s)
             end = (neg, s1)
             /\ match after 45 (s ++ rest) with
                | Some s1 => (true, s1)
                | None => (false, s ++ rest)
                end = (neg, s1 ++ rest)).
  { destruct (after 45 s) as [s1|] eqn:E.
    - exists true, s1. rewrite (after_app _ _ _ _ E). auto.
    - exists false, s. rewrite (after_closes _ _ _ Hd E) by auto. auto. }
  destruct E as (neg & s1 & E1 & E2). rewrite E1 in H. rewrite E2.
  destruct (parse_int s1) as [[ip s2]|] eqn:Ei; [|discriminate H].
  rewrite (parse_int_closes _ _ _ _ Hd Ei).
  destruct (parse_frac s2) as [[fp s3]|] eqn:Ef; [|discriminate H].
  rewrite (parse_frac_closes _ _ _ _ Hd Ef).
  destruct (parse_exp s3) as [[x s4]|] eqn:Ee; [|discriminate H].
  rewrite (parse_exp_closes _ _ _ _ Hd Ee).
  injection H as <- <-. reflexivity.
Qed.

(** *** Values *)

Lemma reads_compact_null : reads_compact VNull.
Proof.
  intros rest fuel Hrest Hf. exists (str "null").
  split; [reflexivity|]. split; [reflexivity|].
  destruct fuel as [|f]; [simpl in Hf; lia|]. reflexivity.
Qed.

Lemma reads_compact_bool (b : bool) : reads_compact (VBool b).
Proof.
  intros rest fuel Hrest Hf.
  exists (if b then str "true" else str "false").
  split; [destruct b; reflexivity|]. split; [destruct b; reflexivity|].
  destruct fuel as [|f]; [simpl in Hf; lia|]. destruct b; reflexivity.
Qed.

Lemma reads_compact_string (s : jsstring) : reads_compact (VStr s).
Proof.
  intros rest fuel Hrest Hf. exists (quote s).
  split; [reflexivity|]. split; [reflexivity|].
  destruct fuel as [|f]; [simpl in Hf; lia|].
  rewrite parse_value_S.
  unfold quote. rewrite <- !app_assoc.
  change ([34%N] ++ quote_units s ++ [34%N] ++ rest)
    with (34%N :: quote_units s ++ 34%N :: rest).
  rewrite skip_ws_cons by reflexivity.
  change ((34 =? 123)%N) with false. change ((34 =? 91)%N) with false.
  change ((34 =? 34)%N) with true. cbv iota.
  rewrite parse_quote_units. reflexivity.
Qed.

Lemma reads_compact_number (n : Number.number) :
  number_survives n = true -> reads_compact (VNum n).
Proof.
  intros Hn rest fuel Hrest Hf.
  destruct (number_survives_parse n Hn) as [Hfin Hp].
  exists (Number.toString n).
  destruct (parse_number_head _ _ _ Hp) as (c & t' & Et & Hc).
  assert (Hc' : is_ws c = false /\ (c =? 123)%N = false /\ (c =? 91)%N = false
                /\ (c =? 34)%N = false /\ (c =? 93)%N = false
                /\ (c =? 125)%N = false).
  { unfold is_ws, is_digit in *.
    rewrite orb_true_iff, andb_true_iff, N.eqb_eq, !N.leb_le in Hc.
    rewrite !orb_false_iff, !N.eqb_neq. lia. }
  destruct Hc' as (W & C1 & C2 & C3 & C4 & C5).
  split; [simpl; rewrite Hfin; reflexivity|].
  split; [rewrite Et; simpl; rewrite W, C4, C5; reflexivity|].
  destruct fuel as [|f]; [simpl in Hf; lia|].
  rewrite parse_value_S.
  pose proof (parse_number_closes _ rest _ _ Hrest Hp) as Hp'.
  rewrite Et in *. rewrite <- app_comm_cons in *.
  rewrite skip_ws_cons by exact W.
  rewrite C1, C2, C3, Hc, Hp'. reflexivity.
Qed.

Lemma reads_compact_text (x : value) :
  reads_compact x ->
  exists t, compact x = Some t /\ starts_token t = true.
Proof.
  intros H. destruct (H [] (2 * weight x)%nat eq_refl (le_n _))
    as (t & E & T & _).
  eauto.
Qed.

(** *** Arrays *)

Lemma parse_elements_compact (l : list value) :
  Forall reads_compact l -> l <> [] ->
  forall (rest : jsstring) (fuel : nat),
    (1 + 2 * weights l <= fuel)%nat ->
    parse_elements fuel
      (join (str ",") (map compact_element l) ++ str "]" ++ rest)
    = Some (l, rest).
Proof.
  intros Hl Hne. induction Hl as [|x l Hx Hl IH]; [congruence|].
  intros rest fuel Hfuel. rewrite weights_cons in Hfuel.
  pose proof (weight_pos x) as Hw.
  destruct fuel as [|f]; [lia|].
  destruct l as [|y l].
  - destruct (Hx (str "]" ++ rest) f eq_refl ltac:(lia)) as (t & Et & Tt & Pt).
    simpl map. unfold compact_element at 1. rewrite Et. simpl join.
    simpl default. rewrite parse_elements_S, Pt. reflexivity.
  - change (map compact_element (x :: y :: l))
      with (compact_element x :: map compact_element (y :: l)).
    set (ts := map compact_element (y :: l)) in *.
    assert (Hts : exists q qs, ts = q :: qs) by (subst ts; simpl; eauto).
    destruct Hts as (q & qs & Eq). rewrite Eq, join_cons2, <- Eq.
    destruct (Hx (str "," ++ join (str ",") ts ++ str "]" ++ rest) f eq_refl
                ltac:(lia)) as (t & Et & Tt & Pt).
    unfold compact_element at 1. rewrite Et. simpl default.
    rewrite <- !app_assoc.
    rewrite parse_elements_S, Pt.
    change (str "," ++ join (str ",") ts ++ str "]" ++ rest)
      with (44%N :: join (str ",") ts ++ str "]" ++ rest).
    rewrite skip_ws_cons, after_same by reflexivity.
    rewrite (IH ltac:(discriminate) rest f ltac:(lia)).
    reflexivity.
Qed.

Lemma compact_join_token (p : jsstring) (ps : list jsstring) (s : jsstring) :
  starts_token p = true -> starts_token (join (str ",") (p :: ps) ++ s) = true.
Proof. apply join_token. Qed.

Lemma reads_compact_array (l : list value) :
  Forall reads_compact l -> reads_compact (VArr l).
Proof.
  intros Hl rest fuel Hrest Hf.
  exists (str "[" ++ join (str ",") (map compact_element l) ++ str "]").
  split; [reflexivity|]. split; [reflexivity|].
  destruct fuel as [|f]; [simpl in Hf; lia|].
  destruct l as [|x l]; [reflexivity|].
  rewrite parse_value_S.
  set (J := join (str ",") (map compact_element (x :: l))).
  assert (E : (str "[" ++ J ++ str "]") ++ rest = 91%N :: J ++ str "]" ++ rest)
    by (rewrite <- !app_assoc; reflexivity).
  rewrite E, skip_ws_cons by reflexivity.
  change ((91 =? 123)%N) with false. change ((91 =? 91)%N) with true.
  cbv iota.
  assert (HJ : forall s, starts_token (J ++ s) = true).
  { intros s. subst J. apply join_token.
    inversion Hl as [|? ? Hx _]; subst.
    destruct (reads_compact_text _ Hx) as (t & Et & Tt).
    unfold compact_element. rewrite Et. exact Tt. }
  rewrite (after_close _ 93 (HJ _)) by auto.
  assert (Pe : parse_elements f (J ++ str "]" ++ rest) = Some (x :: l, rest)).
  { apply (parse_elements_compact (x :: l) Hl); [discriminate |].
    change (weight (VArr (x :: l))) with (S (weights (x :: l))) in Hf. lia. }
  rewrite Pe. reflexivity.
Qed.

(** *** Objects *)

Lemma compact_member_eq (k t : jsstring) (x : value) :
  compact x = Some t -> compact_member (k, x) = quote k ++ str ":" ++ t.
Proof.
  intros E. unfold compact_member, compact_element. simpl. rewrite E.
  reflexivity.
Qed.

Lemma parse_members_compact (kvs : list (jsstring * value)) :
  Forall (fun kv => reads_compact kv.2) kvs -> kvs <> [] ->
  forall (rest : jsstring) (fuel : nat),
    (1 + 2 * weights (kvs.*2) <= fuel)%nat ->
    parse_members fuel
      (join (str ",") (map compact_member kvs) ++ str "}" ++ rest)
    = Some (kvs, rest).
Proof.
  intros Hl Hne. induction Hl as [|[k x] l Hx Hl IH]; [congruence|].
  intros rest fuel Hfuel. rewrite fmap_cons, weights_cons in Hfuel.
  simpl in Hx. change ((k, x).2) with x in Hfuel.
  pose proof (weight_pos x) as Hw.
  destruct fuel as [|f]; [lia|].
  assert (Member : forall R, closes R = true ->
            exists t, compact x = Some t
              /\ parse_members (S f) ((quote k ++ str ":" ++ t) ++ R)
                 = match after 44 (skip_ws R), after 125 (skip_ws R) with
                   | Some r4, _ =>
                       match parse_members f r4 with
                       | Some (kvs, r5) => Some ((k, x) :: kvs, r5)
                       | None => None
                       end
                   | _, Some r4 => Some ([(k, x)], r4)
                   | _, _ => None
                   end).
  { intros R HR. destruct (Hx R f HR ltac:(lia)) as (t & Et & Tt & Pt).
    exists t. split; [exact Et|].
    rewrite parse_members_S.
    assert (Sh : (quote k ++ str ":" ++ t) ++ R
                 = 34%N :: quote_units k ++ 34%N :: 58%N :: t ++ R).
    { unfold quote. rewrite <- !app_assoc. reflexivity. }
    rewrite Sh, skip_ws_cons, after_same, parse_quote_units by reflexivity.
    rewrite skip_ws_cons, after_same by reflexivity.
    rewrite Pt. reflexivity. }
  destruct l as [|y l].
  - destruct (Member (str "}" ++ rest) eq_refl) as (t & Et & Pm).
    change (map compact_member [(k, x)]) with [compact_member (k, x)].
    rewrite join_single, (compact_member_eq _ _ _ Et), Pm. reflexivity.
  - change (map compact_member ((k, x) :: y :: l))
      with (compact_member (k, x) :: map compact_member (y :: l)).
    set (ts := map compact_member (y :: l)) in *.
    assert (Hts : exists q qs, ts = q :: qs) by (subst ts; simpl; eauto).
    destruct Hts as (q & qs & Eq). rewrite Eq, join_cons2, <- Eq.
    destruct (Member (str "," ++ join (str ",") ts ++ str "}" ++ rest) eq_refl)
      as (t & Et & Pm).
    rewrite (compact_member_eq _ _ _ Et).
    rewrite <- (app_assoc _ (str "," ++ join (str ",") ts)).
    rewrite <- (app_assoc (str ",")).
    rewrite Pm.
    change (str "," ++ join (str ",") ts ++ str "}" ++ rest)
      with (44%N :: join (str ",") ts ++ str "}" ++ rest).
    rewrite skip_ws_cons, after_same by reflexivity.
    rewrite (IH ltac:(discriminate) rest f ltac:(lia)).
    reflexivity.
Qed.

Lemma compact_members_fold (kvs : list (jsstring * value)) :
  Forall (fun kv => is_Some (compact kv.2)) kvs ->
  foldr (uncurry (fun k x acc =>
                    match compact x with
                    | Some t => (quote k ++ str ":" ++ t) :: acc
                    | None => acc
                    end)) [] kvs
  = map compact_member kvs.
Proof.
  induction 1 as [|[k x] l [t Et] Hl IH]; [reflexivity|].
  simpl in *. rewrite IH, Et, (compact_member_eq _ _ _ Et). reflexivity.
Qed.

Lemma compact_object (o : gmap jsstring value) :
  map_Forall (fun _ x => is_Some (compact x)) o ->
  compact (VObj o)
  = Some (str "{" ++ join (str ",") (map compact_member (map_to_list o))
          ++ str "}").
Proof.
  intros Ho. simpl. rewrite map_fold_foldr, compact_members_fold; [reflexivity|].
  apply map_Forall_to_list in Ho.
  eapply Forall_impl; [exact Ho|]. intros [k x] Hx. exact Hx.
Qed.

Lemma reads_compact_object (o : gmap jsstring value) :
  map_Forall (fun _ x => reads_compact x) o -> reads_compact (VObj o).
Proof.
  intros Ho rest fuel Hrest Hf.
  rewrite compact_object.
  2:{ intros k x Hx. destruct (reads_compact_text _ (Ho k x Hx)) as (t & Et & _).
      eauto. }
  eexists. split; [reflexivity|]. split; [reflexivity|].
  rewrite weight_object in Hf.
  destruct fuel as [|f]; [lia|].
  pose proof (list_to_map_reverse o) as Eo.
  apply map_Forall_to_list in Ho.
  destruct (map_to_list o) as [|[k x] l] eqn:El.
  - simpl in Eo. subst o. reflexivity.
  - rewrite parse_value_S.
    set (J := join (str ",") (map compact_member ((k, x) :: l))).
    assert (E : (str "{" ++ J ++ str "}") ++ rest
                = 123%N :: J ++ str "}" ++ rest)
      by (rewrite <- !app_assoc; reflexivity).
    rewrite E, skip_ws_cons by reflexivity.
    change ((123 =? 123)%N) with true. cbv iota.
    assert (HJ : forall s, starts_token (J ++ s) = true).
    { intros s. subst J. apply join_token. reflexivity. }
    rewrite (after_close _ 125 (HJ _)) by auto.
    assert (Pe : parse_members f (J ++ str "}" ++ rest)
                 = Some ((k, x) :: l, rest)).
    { apply (parse_members_compact ((k, x) :: l)); [| discriminate | lia].
      eapply Forall_impl; [exact Ho|]. intros [k' x'] H. exact H. }
    rewrite Pe, Eo. reflexivity.
Qed.

Theorem reads_compact_value (v : value) :
  defined v = true -> survives v = true -> reads_compact v.
Proof.
  induction v as [| | b | n | s | l IH | o IH] using value_induction;
    intros Hd Hs.
  - discriminate Hd.
  - apply reads_compact_null.
  - apply reads_compact_bool.
  - apply reads_compact_number. exact Hs.
  - apply reads_compact_string.
  - apply reads_compact_array.
    simpl in Hd, Hs. rewrite forallb_forall in Hd, Hs.
    rewrite Forall_forall in IH |- *. intros x Hx.
    apply IH; [exact Hx | |].
    + apply Hd. apply list_elem_of_In. exact Hx.
    + apply Hs. apply list_elem_of_In. exact Hx.
  - apply reads_compact_object.
    simpl in Hd, Hs. apply map_fold_and in Hd. apply map_fold_and in Hs.
    intros k x Hx. apply (IH k x Hx); eauto.
Qed.

(** *** The text is long enough for the fuel that [parse] gives *)

Lemma defined_compact (v : value) : defined v = true -> is_Some (compact v).
Proof. destruct v as [| | [] | | | |]; simpl; try discriminate; eauto. Qed.

Lemma weight_le_compact (v : value) :
  defined v = true -> survives v = true ->
  forall t, compact v = Some t -> (weight v <= length t)%nat.
Proof.
  induction v as [| | b | n | s | l IH | o IH] using value_induction;
    intros Hd Hs t Ht.
  - discriminate Hd.
  - injection Ht as <-. simpl. lia.
  - destruct b; injection Ht as <-; simpl; lia.
  - destruct (number_survives_parse n Hs) as [Hfin Hp].
    simpl in Ht. rewrite Hfin in Ht. injection Ht as <-.
    destruct (parse_number_head _ _ _ Hp) as (c & t' & -> & _). simpl. lia.
  - injection Ht as <-. unfold quote. rewrite !length_app. simpl. lia.
  - change (compact (VArr l))
      with (Some (str "[" ++ join (str ",") (map compact_element l) ++ str "]"))
      in Ht.
    apply (inj Some) in Ht. subst t. rewrite !length_app.
    change (length (str "[")) with 1%nat.
    pose proof (join_length (str ",") (map compact_element l)) as Hj.
    change (weight (VArr l)) with (S (weights l)).
    enough (weights l
            <= foldr (fun p acc => length p + acc) 0
                 (map compact_element l))%nat by lia.
    apply (texts_length weight compact_element).
    unfold compact_element.
    simpl in Hd, Hs. rewrite forallb_forall in Hd, Hs.
    rewrite Forall_forall in IH |- *. intros x Hx.
    assert (Hdx : defined x = true) by (apply Hd, list_elem_of_In, Hx).
    destruct (defined_compact x Hdx) as [tx Ex].
    rewrite Ex.
    exact (IH x Hx Hdx (Hs x (proj1 (list_elem_of_In _ _) Hx)) _ Ex).
  - rewrite weight_object.
    simpl in Hd, Hs. apply map_fold_and in Hd. apply map_fold_and in Hs.
    rewrite compact_object in Ht.
    2:{ intros k x Hx. apply defined_compact. exact (Hd k x Hx). }
    apply (inj Some) in Ht. subst t. rewrite !length_app.
    change (length (str "{")) with 1%nat.
    pose proof (join_length (str ",") (map compact_member (map_to_list o)))
      as Hj.
    enough (weights ((map_to_list o).*2)
            <= foldr (fun p acc => length p + acc) 0
                 (map compact_member (map_to_list o)))%nat
      by lia.
    rewrite weights_snd.
    apply (texts_length (fun kv => weight kv.2) compact_member).
    apply Forall_forall. intros [k x] Hx.
    apply elem_of_map_to_list in Hx. cbn [snd].
    pose proof (Hd k x Hx) as Hdx. simpl in Hdx.
    destruct (defined_compact x Hdx) as [tx Ex].
    rewrite (compact_member_eq _ _ _ Ex), !length_app.
    pose proof (IH k x Hx Hdx (Hs k x Hx) _ Ex). lia.
Qed.

(** [JSON.parse(JSON.stringify(v))] is [v], for a [v] without [undefined]
    whose numbers survive. *)
Theorem parse_compact (v : value) :
  defined v = true -> survives v = true ->
  exists t, compact v = Some t /\ parse t = Some v.
Proof.
  intros Hd Hs.
  destruct (defined_compact v Hd) as [t Et].
  exists t. split; [exact Et|].
  pose proof (weight_le_compact v Hd Hs t Et) as Hw.
  destruct (reads_compact_value v Hd Hs [] (2 * length t + 2)%nat
              eq_refl ltac:(lia)) as (t' & Et' & _ & Pt).
  rewrite Et in Et'. injection Et' as <-.
  unfold parse. rewrite app_nil_r in Pt. rewrite Pt.
  reflexivity.
Qed.

End WireProps.

(** ** The container: from the form to the script and back *)

Module ContainerProps.
Import Editor Wire Container NumberProps JSONProps WireProps.
Import FormEventsProps ServerDefs ServerProps Samples.

(** *** The parts of a value *)

Lemma defined_lookup (o : gmap jsstring value) (k : jsstring) (x : value) :
  JSON.defined (VObj o) = true -> o !! k = Some x -> JSON.defined x = true.
Proof. simpl. rewrite map_fold_and. intros H E. exact (H k x E). Qed.

Lemma doubles_lookup (o : gmap jsstring value) (k : jsstring) (x : value) :
  JSON.doubles (VObj o) = true -> o !! k = Some x -> JSON.doubles x = true.
Proof. simpl. rewrite map_fold_and. intros H E. exact (H k x E). Qed.

Lemma truthy_prop (data : value) (k : jsstring) :
  truthy (get_prop data k) = true ->
  exists o, data = VObj o /\ o !! k = Some (get_prop data k).
Proof.
  destruct data as [| | | | | | o]; try discriminate. simpl.
  destruct (o !! k) as [x |] eqn:E; [| discriminate]. eauto.
Qed.

(** A truthy property of what [JSON.parse] returned is written by
    [JSON.stringify(_, null, 2)] as a text that parses back to it, when
    its numbers are finite. *)
Lemma parsed_prop_round_trip (content : jsstring) (data : value) (k : jsstring) :
  JSON.parse content = Some data ->
  truthy (get_prop data k) = true ->
  JSON.finite (get_prop data k) = true ->
  exists text, JSON.stringify (get_prop data k) = Some text
               /\ JSON.parse text = Some (get_prop data k).
Proof.
  intros Hp Ht Hf.
  destruct (truthy_prop data k Ht) as (o & -> & Ek).
  pose proof (EditorProps.parse_is_defined _ _ Hp) as Hd.
  pose proof (EditorProps.parse_is_doubles _ _ Hp) as Hb.
  apply parse_stringify.
  - exact (defined_lookup o k _ Hd Ek).
  - apply doubles_survive; [exact (doubles_lookup o k _ Hb Ek) | exact Hf].
Qed.

(** *** The body of a generate request *)

Lemma form_value_fields (fd : Form.BootcampFormInput) (P : value -> Prop) :
  (forall s, P (VStr s)) -> P (VInt (Form.durasi fd)) ->
  map_Forall (fun _ x => P x)
    (<[str "nama" := VStr (Form.nama fd)]>
    (<[str "durasi" := VInt (Form.durasi fd)]>
    (<[str "level" := VStr (Form.level fd)]>
    (<[str "deskripsi" := VStr (Form.deskripsi fd)]>
    (<[str "additional_context" := VStr (Form.additional_context fd)]>
       (∅ : gmap jsstring value)))))).
Proof.
  intros Hs Hn.
  repeat (apply map_Forall_insert_2; [first [apply Hs | exact Hn] |]).
  apply map_Forall_empty.
Qed.

Lemma of_Z_finite (z : Z) :
  - 2 ^ 53 < z < 2 ^ 53 ->
  Number.is_finite (Number.of_Z z) = true
  /\ Number.is_zero (Number.of_Z z) = bool_decide (z = 0).
Proof.
  intros Hz. pose proof (of_Z_exact z Hz) as E.
  destruct (Number.of_Z z) as [m e | |]; try discriminate E.
  split; [reflexivity |]. simpl in E.
  destruct (0 <=? e) eqn:He; [| discriminate]. apply Z.leb_le in He.
  injection E as E. pose proof (pow2_pos e He).
  destruct m; simpl; case_bool_decide; try reflexivity; nia.
Qed.

(** The body of the generate request parses to the object that the record
    of the form is. *)
Lemma form_body_parses (fd : Form.BootcampFormInput) :
  - 2 ^ 53 < Form.durasi fd < 2 ^ 53 ->
  JSON.parse (stringify (form_value fd)) = Some (form_value fd).
Proof.
  intros Hd. destruct (of_Z_finite _ Hd) as [Hf _].
  destruct (parse_compact (form_value fd)) as (t & Et & Pt).
  - unfold form_value. cbn [JSON.defined]. apply map_fold_and.
    apply (form_value_fields fd (fun x => JSON.defined x = true));
      reflexivity.
  - unfold form_value. cbn [JSON.survives]. apply map_fold_and.
    apply (form_value_fields fd (fun x => JSON.survives x = true));
      [reflexivity |].
    apply double_survives; [apply of_ratio_double; lia | exact Hf].
  - unfold stringify. rewrite Et. exact Pt.
Qed.

Lemma form_value_prop (fd : Form.BootcampFormInput) :
  get_prop (form_value fd) (str "nama") = VStr (Form.nama fd)
  /\ get_prop (form_value fd) (str "durasi") = VInt (Form.durasi fd)
  /\ get_prop (form_value fd) (str "level") = VStr (Form.level fd)
  /\ get_prop (form_value fd) (str "deskripsi") = VStr (Form.deskripsi fd)
  /\ get_prop (form_value fd) (str "additional_context")
     = VStr (Form.additional_context fd).
Proof.
  unfold form_value, get_prop.
  repeat split; simplify_map_eq; reflexivity.
Qed.

Lemma blank_nil_truthy (s : jsstring) : blank s = false -> truthy (VStr s) = true.
Proof. destruct s; [discriminate | reflexivity]. Qed.

(** X19.  A form that passes [validate()] is accepted by the server: the body
    that [handleGenerateAI] sends parses to a request that the route and the
    server answer 400 exactly when the level is empty, the one required field
    that [validate()] does not look at. *)
Theorem valid_form_reaches_script (fd : Form.BootcampFormInput)
  (env : Api.Env) (w w' : Api.World) (resp : Api.Response) :
  Form.valid fd = true ->
  exists b,
    JSON.parse (body (generate_request fd)) = Some b
    /\ (Api.next_handler env (Scenario.post b) w = (Api.Ok resp, w')
        \/ Api.express_generate env (Scenario.post b) w = (Api.Ok resp, w') ->
        (Api.status resp = 400 <-> Form.level fd = [])).
Proof.
  intros V. unfold Form.valid in V.
  apply andb_true_iff in V as [V V3]. apply andb_true_iff in V as [V1 V2].
  unfold Form.nama_ok in V1. unfold Form.deskripsi_ok in V3.
  unfold Form.durasi_ok in V2. apply negb_true_iff in V1, V3.
  apply andb_true_iff in V2 as [D1 D2]. apply Z.leb_le in D1, D2.
  assert (Hd : - 2 ^ 53 < Form.durasi fd < 2 ^ 53) by lia.
  exists (form_value fd). split; [exact (form_body_parses fd Hd) |].
  destruct (form_value_prop fd) as (P1 & P2 & P3 & P4 & _).
  destruct (of_Z_finite _ Hd) as [_ Hz].
  assert (M : missing (Scenario.post (form_value fd)) <-> Form.level fd = []).
  { unfold missing. cbn [Api.body Scenario.post]. split.
    - intros (_ & k & Hk & Hf). unfold Api.required in Hk.
      rewrite !elem_of_cons, elem_of_nil in Hk.
      destruct Hk as [-> | [-> | [-> | [-> | []]]]].
      + rewrite P1, (blank_nil_truthy _ V1) in Hf. discriminate.
      + rewrite P2 in Hf. unfold VInt in Hf. simpl in Hf. rewrite Hz in Hf.
        rewrite bool_decide_eq_false_2 in Hf by lia. discriminate.
      + rewrite P3 in Hf. destruct (Form.level fd); [reflexivity | discriminate].
      + rewrite P4, (blank_nil_truthy _ V3) in Hf. discriminate.
    - intros E. split; [reflexivity |]. exists (str "level").
      split; [unfold Api.required; rewrite !elem_of_cons; auto |].
      rewrite P3, E. reflexivity. }
  intros [H | H].
  - rewrite <- M.
    exact (next_bad_request env (Scenario.post (form_value fd)) w w' resp
             eq_refl H).
  - rewrite <- M.
    exact (express_bad_request env (Scenario.post (form_value fd)) w w' resp H).
Qed.

Lemma valid_form_reaches_script_witness :
  exists b, JSON.parse (body (generate_request web_dev_form)) = Some b.
Proof.
  destruct (valid_form_reaches_script web_dev_form
              (Scenario.environment (Scenario.writes []) Scenario.no_io_error)
              Scenario.start Scenario.start
              (Api.json 200 (Api.success VNull))) as (b & P & _).
  - reflexivity.
  - exists b. exact P.
Defined.

Section Browser.

Context (engine_message : Api.exn -> jsstring).

(** X20.  Whatever the request comes to, [handleGenerateAI] ends with [loading]
    false and one alert.  The document and the text of the editor change only
    together, and only for a response that is [ok] and parses to a value with
    truthy [success] and [data]: then the document is [data] and the text is
    what [JSON.stringify(data, null, 2)] writes; in every other case both are
    left as they were and the alert starts with [Error: ]. *)
Theorem generate_outcome (outcome : fetched) (st : State) :
  let st' := (finish_generate engine_message outcome st).1 in
  let alerts := (finish_generate engine_message outcome st).2 in
  loading st' = false
  /\ ((exists type content data,
         outcome = Responded true type content
         /\ JSON.parse content = Some data
         /\ truthy (get_prop data (str "success")) = true
         /\ truthy (get_prop data (str "data")) = true
         /\ generatedData st' = get_prop data (str "data")
         /\ JSON.stringify (get_prop data (str "data")) = Some (jsonContent st')
         /\ alerts = [Alert msg_generated])
      \/ (generatedData st' = generatedData st
          /\ jsonContent st' = jsonContent st
          /\ exists message, alerts = [Alert (str "Error: " ++ message)])).
Proof.
  cbv zeta. unfold finish_generate.
  destruct outcome as [m | [|] type content | [|] m];
    try (split; [reflexivity |]; right; simpl; eauto; fail).
  destruct (JSON.parse content) as [data |] eqn:Hp;
    [| split; [reflexivity |]; right; simpl; eauto].
  destruct (nullish data) eqn:Hn;
    [split; [reflexivity |]; right; simpl; eauto |].
  destruct (truthy (get_prop data (str "success"))) eqn:Hs;
    [| split; [reflexivity |]; right; simpl; eauto].
  destruct (truthy (get_prop data (str "data"))) eqn:Hd;
    [| split; [reflexivity |]; right; simpl; eauto].
  split; [reflexivity |]. left. exists type, content, data.
  cbn [andb fst snd generatedData jsonContent].
  destruct (truthy_prop _ _ Hd) as (o & -> & Ek).
  pose proof (defined_lookup o _ _ (EditorProps.parse_is_defined _ _ Hp) Ek) as D.
  destruct (defined_serialize [] _ D) as [t Et].
  unfold JSON.stringify. rewrite Et. auto 10.
Qed.

(** X21.  After a generation that succeeded, with a document whose numbers are
    finite, the text of the editor parses to the document in memory, and the
    editor is shown. *)
Theorem generate_fills_editor (type content : jsstring) (data : value)
  (st : State) :
  JSON.parse content = Some data ->
  truthy (get_prop data (str "success")) = true ->
  truthy (get_prop data (str "data")) = true ->
  JSON.finite (get_prop data (str "data")) = true ->
  let st' := (finish_generate engine_message (Responded true type content) st).1 in
  generatedData st' = get_prop data (str "data")
  /\ JSON.parse (jsonContent st') = Some (generatedData st')
  /\ editor_shown st' = true.
Proof.
  intros Hp Hs Hd Hf. cbv zeta. unfold finish_generate. rewrite Hp.
  destruct (truthy_prop _ _ Hd) as (o & E & Ek).
  assert (Hn : nullish data = false) by (rewrite E; reflexivity).
  rewrite Hn, Hs, Hd.
  cbn [andb fst generatedData jsonContent].
  destruct (parsed_prop_round_trip content data (str "data") Hp Hd Hf)
    as (text & Et & Pt).
  rewrite Et. cbn [default]. split; [reflexivity |]. split; [exact Pt |].
  unfold editor_shown. cbn [generatedData]. rewrite Hd. apply orb_true_r.
Qed.

(** X22.  The button is never left disabled: whatever the text of the editor
    and whatever the request comes to, once the handler is done (and its
    timer, if it started one, has fired) the button is enabled and carries its
    label again. *)
Theorem convert_button_settles (now : Z) (outcome : fetched) (b : button)
  (st : State) :
  settled (handleConvertToDocx engine_message now outcome (Some b) st)
  = Some ready.
Proof.
  unfold handleConvertToDocx.
  destruct (JSON.parse (jsonContent st)); [| reflexivity].
  destruct outcome as [m | [|] type content | [|] m]; reflexivity.
Qed.

(** X23.  A convert request is sent exactly when the text of the editor parses;
    the button is then disabled while the request is under way, and the body
    of the request parses back to the same value, when the numbers of this
    value are finite.  The handler ends with one download, for a response that
    is [ok], or with one alert. *)
Theorem convert_request (now : Z) (outcome : fetched) (btn : option button)
  (st : State) :
  let c := handleConvertToDocx engine_message now outcome btn st in
  match JSON.parse (jsonContent st) with
  | None => sent c = None
  | Some parsed =>
      exists r, sent c = Some r
                /\ url r = str "/api/convert-to-docx"
                /\ waiting c = option_map (fun _ => busy) btn
                /\ (JSON.finite parsed = true ->
                    JSON.parse (body r) = Some parsed)
  end
  /\ ((exists filename type content,
         effects c = [Download filename type content]
         /\ outcome = Responded true type content)
      \/ (exists message, effects c = [Alert message])).
Proof.
  cbv zeta. unfold handleConvertToDocx.
  destruct (JSON.parse (jsonContent st)) as [parsed |] eqn:Hp.
  - assert (W : JSON.finite parsed = true ->
                JSON.parse (stringify parsed) = Some parsed).
    { intros Hf.
      destruct (parse_compact parsed) as (t & Et & Pt).
      - exact (EditorProps.parse_is_defined _ _ Hp).
      - exact (doubles_survive _ (EditorProps.parse_is_doubles _ _ Hp) Hf).
      - unfold stringify. rewrite Et. exact Pt. }
    destruct outcome as [m | [|] type content | [|] m]; simpl;
      (split; [eexists; split;
                 [reflexivity | split; [reflexivity | split;
                                         [reflexivity | exact W]]] |]);
      eauto 10.
  - split; [reflexivity |]. right. simpl. eauto.
Qed.

(** X24.  From the editor to the converter: for a text of the editor that
    parses to a document with a block [identitas] and finite numbers, the
    request that [handleConvertToDocx] sends has a body that parses to this
    document, and the server, given the request with this body, writes for the
    script a JSON file that parses to the document too. *)
Theorem convert_end_to_end (now : Z) (outcome : fetched) (btn : option button)
  (st : State) (parsed : value) (env : Api.Env) (w w' : Api.World)
  (res : Api.result Api.Response) :
  JSON.parse (jsonContent st) = Some parsed ->
  JSON.finite parsed = true ->
  truthy (get_prop parsed (str "identitas")) = true ->
  exists r,
    sent (handleConvertToDocx engine_message now outcome btn st) = Some r
    /\ JSON.parse (body r) = Some parsed
    /\ (Api.express_convert env (Scenario.post parsed) w = (res, w') ->
        exists text rest,
          Api.trace w'
          = Api.trace w
            ++ Api.EWriteFile
                 (Api.temp_file (str "bootcamp_")
                    (Api.clock env (Api.ticks w)) (str ".json")) text :: rest
          /\ JSON.parse text = Some parsed).
Proof.
  intros Hp Hf Hi.
  assert (W : JSON.parse (stringify parsed) = Some parsed).
  { destruct (parse_compact parsed) as (t & Et & Pt).
    - exact (EditorProps.parse_is_defined _ _ Hp).
    - exact (doubles_survive _ (EditorProps.parse_is_doubles _ _ Hp) Hf).
    - unfold stringify. rewrite Et. exact Pt. }
  exists (post (str "/api/convert-to-docx") (stringify parsed)).
  split; [| split; [exact W |]].
  - unfold handleConvertToDocx. rewrite Hp.
    destruct outcome as [m | [|] type content | [|] m]; reflexivity.
  - intros H.
    exact (convert_writes_body env (Scenario.post parsed) w w' res
             (stringify parsed) W Hf Hi H).
Qed.

(** X25.  From the server to the editor: when the body of the response is what
    [res.json] writes for [{ success: true, data }], with a truthy [data]
    whose numbers are finite, [handleGenerateAI] puts [data] in memory and
    shows a text that parses to it. *)
Theorem generate_response_reaches_editor (type : jsstring) (data : value)
  (st : State) :
  JSON.defined data = true -> JSON.doubles data = true ->
  JSON.finite data = true -> truthy data = true ->
  let st' := (finish_generate engine_message
                (Responded true type (stringify (Api.success data))) st).1 in
  loading st' = false /\ generatedData st' = data
  /\ JSON.parse (jsonContent st') = Some data.
Proof.
  intros Hd Hb Hf Ht.
  pose proof (doubles_survive _ Hb Hf) as Hs.
  assert (W : JSON.parse (stringify (Api.success data))
              = Some (Api.success data)).
  { destruct (parse_compact (Api.success data)) as (t & Et & Pt).
    - unfold Api.success. cbn [JSON.defined]. apply map_fold_and.
      apply map_Forall_insert_2; [reflexivity |].
      apply map_Forall_insert_2; [exact Hd |]. apply map_Forall_empty.
    - unfold Api.success. cbn [JSON.survives]. apply map_fold_and.
      apply map_Forall_insert_2; [reflexivity |].
      apply map_Forall_insert_2; [exact Hs |]. apply map_Forall_empty.
    - unfold stringify. rewrite Et. exact Pt. }
  assert (Ne : str "success" <> str "data").
  { intros H. apply (f_equal length) in H. vm_compute in H. discriminate H. }
  assert (P1 : get_prop (Api.success data) (str "success") = VBool true).
  { unfold Api.success, get_prop. rewrite lookup_insert_eq. reflexivity. }
  assert (P2 : get_prop (Api.success data) (str "data") = data).
  { unfold Api.success, get_prop.
    rewrite lookup_insert_ne, lookup_insert_eq by exact Ne. reflexivity. }
  assert (Hn : nullish (Api.success data) = false) by reflexivity.
  cbv zeta. unfold finish_generate. rewrite W, Hn, P1, P2, Ht.
  cbn [truthy andb fst loading generatedData jsonContent].
  destruct (parse_stringify data Hd Hs) as (text & Et & Pt).
  rewrite Et. auto.
Qed.

End Browser.

Lemma generate_fills_editor_witness :
  let content :=
    Scenario.json_text "{'success':true,'data':{'modules':[],'minggu':12.5}}" in
  let st' := (finish_generate engine
                (Responded true (str "application/json") content) initial).1 in
  JSON.parse (jsonContent st') = Some (generatedData st')
  /\ editor_shown st' = true.
Proof.
  intros content st'.
  destruct (generate_fills_editor engine (str "application/json") content
              (default VNull (JSON.parse content)) initial) as (_ & P & S).
  - vm_compute. reflexivity.
  - vm_compute. reflexivity.
  - vm_compute. reflexivity.
  - vm_compute. reflexivity.
  - split; [exact P | exact S].
Defined.

Lemma convert_request_witness :
  let st := loaded (Scenario.json_text "{'identitas':{'nama':'Web Dev'}}") in
  exists r,
    sent (handleConvertToDocx engine 1700000000000
            (Responded true (str "application/docx") (str "PK")) None st)
    = Some r
    /\ JSON.parse (body r) = JSON.parse (jsonContent st).
Proof.
  intros st.
  pose proof (convert_request engine 1700000000000
                (Responded true (str "application/docx") (str "PK")) None st)
    as [H _].
  assert (E : JSON.parse (jsonContent st)
              = Some (default VNull (JSON.parse (jsonContent st))))
    by (vm_compute; reflexivity).
  rewrite E in H |- *.
  destruct H as (r & S & _ & _ & P).
  exists r. split; [exact S |]. apply P. vm_compute. reflexivity.
Defined.

Lemma convert_end_to_end_witness :
  let st := loaded (Scenario.json_text "{'identitas':{'nama':'Web Dev'}}") in
  exists r,
    sent (handleConvertToDocx engine 1700000000000 (Rejected (str "offline"))
            None st) = Some r
    /\ JSON.parse (body r) = JSON.parse (jsonContent st).
Proof.
  intros st.
  destruct (convert_end_to_end engine 1700000000000 (Rejected (str "offline"))
              None st (default VNull (JSON.parse (jsonContent st)))
              (Scenario.environment (Scenario.writes (str "PK"))
                 Scenario.no_io_error)
              Scenario.start Scenario.start (Api.Throw (Api.TypeError [])))
    as (r & S & P & _).
  - vm_compute. reflexivity.
  - vm_compute. reflexivity.
  - vm_compute. reflexivity.
  - exists r. split; [exact S |]. rewrite P. vm_compute. reflexivity.
Defined.

Lemma generate_response_reaches_editor_witness :
  let data := VObj (<[str "modules" := VArr [VInt 1; VInt 2]]> ∅) in
  let st' := (finish_generate engine
                (Responded true (str "application/json")
                   (stringify (Api.success data))) initial).1 in
  generatedData st' = data /\ JSON.parse (jsonContent st') = Some data.
Proof.
  intros data st'.
  destruct (generate_response_reaches_editor engine (str "application/json")
              data initial) as (_ & G & P).
  - vm_compute. reflexivity.
  - vm_compute. reflexivity.
  - vm_compute. reflexivity.
  - reflexivity.
  - split; [exact G | exact P].
Defined.

(** *** The editor *)



(** X27.  A file that parses brings the editor up, whatever it parses to.  The
    editor then stays up under every change of its text exactly when the
    document is truthy: after a file that holds [null], [false], [0] or an
    empty string, emptying the text area takes the editor away. *)
Theorem editor_shown_after_load (content : jsstring) (parsed : value)
  (st : State) :
  JSON.parse content = Some parsed ->
  let st' := (handleLoadJson [content] st).1 in
  editor_shown st' = true
  /\ ((forall text, editor_shown (edit text st') = true)
      <-> truthy parsed = true).
Proof.
  intros Hp. cbv zeta. unfold handleLoadJson, onload. rewrite Hp.
  cbn [fst]. unfold editor_shown, edit.
  cbn [jsonContent generatedData].
  split.
  - destruct content; [discriminate Hp | reflexivity].
  - split.
    + intros H. exact (H []).
    + intros H text. rewrite H. apply orb_true_r.
Qed.

Lemma editor_shown_after_load_witness :
  let st' := (handleLoadJson [str "null"] initial).1 in
  editor_shown st' = true /\ editor_shown (edit [] st') = false.
Proof.
  intros st'.
  destruct (editor_shown_after_load (str "null") VNull initial) as [S _].
  - vm_compute. reflexivity.
  - split; [exact S | reflexivity].
Defined.

End ContainerProps.
